(** * dbmigrate: the migration engine of [main.go], embedded in Rocq

    The development follows the layout of the Go program:

    - [GoString]: Go strings as sequences of runes, with the few functions
      of package [strings] and [unicode] that the engine calls;
    - [Splitter]: [splitSQLStatements], the quote- and comment-aware scanner;
    - [Parser]: [parseMigrationInfo] with the two header regular expressions;
    - [Resolver]: [processWithWriter], the recursive manifest expansion;
    - [Driver]: [getAppliedMigrations], [recordMigration],
      [executeSQLWithWriter] and the file loop of [run], over an abstract
      [DatabaseExecutor].

    The definitions come first: the embedding of the program, the
    readings of the specification it is compared with, and the executors
    and file systems of the examples.  The theorems follow, module by
    module. *)

From Stdlib Require Import ZArith List Bool Lia String Ascii.
From stdpp Require Import base option list gmap.
Import ListNotations.

Local Open Scope Z_scope.

(* ===================================================================== *)
(** * Go strings                                                          *)
(* ===================================================================== *)

Module GoString.

(** A Go [rune] is an [int32] holding a Unicode code point.  The engine
    only compares runes with constants, so no arithmetic (and no
    wrap-around) is ever performed on them. *)
Definition rune := Z.

(** Go strings are modelled by the rune sequence that [[]rune(s)] yields;
    SQL files and manifests are UTF-8 text, for which the conversion is a
    bijection, so [==] on strings is equality of rune lists. *)
Definition gostring := list rune.

(** Literals of the Go source, written as Rocq string literals. *)
Definition go (s : string) : gostring :=
  map (fun a : ascii => Z.of_N (N_of_ascii a)) (list_ascii_of_string s).

(** The rune constants of the source: line feed, carriage return, double
    quote, single quote, star, dash, slash, semicolon, backslash. *)
Definition rLF : rune := 10.
Definition rCR : rune := 13.
Definition rDQuote : rune := 34.
Definition rSQuote : rune := 39.
Definition rStar : rune := 42.
Definition rDash : rune := 45.
Definition rSlash : rune := 47.
Definition rSemi : rune := 59.
Definition rBackslash : rune := 92.

(** [unicode.IsSpace]: the runes with the Unicode property White_Space
    (tab to carriage return, space, NEL, NBSP, U+1680, U+2000 to U+200A,
    U+2028, U+2029, U+202F, U+205F, U+3000). *)
Definition isSpace (r : rune) : bool :=
  (r =? 9) || (r =? 10) || (r =? 11) || (r =? 12) || (r =? 13) || (r =? 32)
  || (r =? 133) || (r =? 160) || (r =? 5760)
  || ((8192 <=? r) && (r <=? 8202))
  || (r =? 8232) || (r =? 8233) || (r =? 8239) || (r =? 8287) || (r =? 12288).

(** [strings.TrimLeftFunc(s, unicode.IsSpace)] *)
Fixpoint trimLeft (s : gostring) : gostring :=
  match s with
  | [] => []
  | r :: s' => if isSpace r then trimLeft s' else s
  end.

(** [strings.TrimRightFunc(s, unicode.IsSpace)] *)
Definition trimRight (s : gostring) : gostring := rev (trimLeft (rev s)).

(** [strings.TrimSpace] *)
Definition TrimSpace (s : gostring) : gostring := trimRight (trimLeft s).

(** Comparison of [s] with the empty string. *)
Definition isEmpty (s : gostring) : bool :=
  match s with [] => true | _ :: _ => false end.

(** [a == b] on strings *)
Fixpoint eqString (a b : gostring) : bool :=
  match a, b with
  | [], [] => true
  | x :: a', y :: b' => (x =? y) && eqString a' b'
  | _, _ => false
  end.

(** [strings.HasPrefix] *)
Fixpoint HasPrefix (s prefix : gostring) : bool :=
  match prefix, s with
  | [], _ => true
  | p :: prefix', c :: s' => (c =? p) && HasPrefix s' prefix'
  | _ :: _, [] => false
  end.

(** [strings.HasSuffix] *)
Definition HasSuffix (s suffix : gostring) : bool :=
  HasPrefix (rev s) (rev suffix).

(** [strings.ReplaceAll] as [escapeSQLString] uses it: every single quote
    is doubled. *)
Definition escapeSQLString (s : gostring) : gostring :=
  flat_map (fun r => if r =? rSQuote then [rSQuote; rSQuote] else [r]) s.

(** [strings.Join(parts, sep)] *)
Fixpoint Join (parts : list gostring) (sep : gostring) : gostring :=
  match parts with
  | [] => []
  | [p] => p
  | p :: rest => p ++ sep ++ Join rest sep
  end.

(** The number of bytes of a rune in UTF-8, and of a text; the files are
    UTF-8 text, so this is the number of bytes that the scanner reads. *)
Definition runeLen (r : rune) : Z :=
  if r <? 128 then 1 else if r <? 2048 then 2 else if r <? 65536 then 3 else 4.

Definition byteLen (s : gostring) : Z :=
  fold_right (fun r n => runeLen r + n) 0 s.

(** [bufio.MaxScanTokenSize], the size to which a [bufio.Scanner] lets its
    buffer grow. *)
Definition MaxScanTokenSize : Z := 64 * 1024.

(** [dropCR] of package [bufio]: one trailing carriage return is dropped. *)
Definition dropCR (line : gostring) : gostring :=
  match rev line with
  | r :: front => if r =? rCR then rev front else line
  | [] => line
  end.

(** What a [bufio.Scanner] with the default split function
    [bufio.ScanLines] delivers: the tokens for which [Scan] returns true,
    and whether [Err] is [bufio.ErrTooLong] after [Scan] has returned
    false.  The text is cut at every line feed, one trailing carriage
    return is dropped from each line, and a last line without a newline
    is a token when it is not empty.  A line must fit into the buffer
    with its line feed; a last line without a line feed must leave one
    byte of the buffer free, since the scanner learns of the end of the
    input by reading on.  At a line that does not fit the scanner stops:
    that line and the lines after it are not delivered.  [cur] is the
    part of the current line that has been read. *)
Fixpoint scanLinesFrom (cur : gostring) (s : gostring) : list gostring * bool :=
  match s with
  | [] =>
      if isEmpty cur then ([], false)
      else if byteLen cur <? MaxScanTokenSize then ([dropCR cur], false)
      else ([], true)
  | c :: s' =>
      if c =? rLF then
        if byteLen cur + 1 <=? MaxScanTokenSize then
          let '(lines, tooLong) := scanLinesFrom [] s' in
          (dropCR cur :: lines, tooLong)
        else ([], true)
      else scanLinesFrom (cur ++ [c]) s'
  end.

Definition scanLines (content : gostring) : list gostring * bool :=
  scanLinesFrom [] content.

End GoString.

Import GoString.

(* ===================================================================== *)
(** * The statement splitter                                              *)
(* ===================================================================== *)

Module Splitter.

(** The local variables of [splitSQLStatements]: the loop index [i], the
    four mode flags, the [strings.Builder] [current] and the result slice
    [statements]. *)
Record scanner := Scanner {
  pos : nat;
  inSingleQuote : bool;
  inDoubleQuote : bool;
  inLineComment : bool;
  inBlockComment : bool;
  current : gostring;
  statements : list gostring
}.

Definition initial : scanner :=
  Scanner 0 false false false false [] [].

(** [runes[i]]; every access of the source is guarded by a bounds test,
    which the embedding keeps. *)
Definition runeAt (runes : list rune) (i : nat) : rune := nth i runes 0.

(** [current.WriteRune(ch)] *)
Definition writeRune (ch : rune) (s : scanner) : scanner :=
  Scanner (pos s) (inSingleQuote s) (inDoubleQuote s) (inLineComment s)
          (inBlockComment s) (current s ++ [ch]) (statements s).

Definition setSingleQuote (b : bool) (s : scanner) : scanner :=
  Scanner (pos s) b (inDoubleQuote s) (inLineComment s) (inBlockComment s)
          (current s) (statements s).

Definition setDoubleQuote (b : bool) (s : scanner) : scanner :=
  Scanner (pos s) (inSingleQuote s) b (inLineComment s) (inBlockComment s)
          (current s) (statements s).

Definition setLineComment (b : bool) (s : scanner) : scanner :=
  Scanner (pos s) (inSingleQuote s) (inDoubleQuote s) b (inBlockComment s)
          (current s) (statements s).

Definition setBlockComment (b : bool) (s : scanner) : scanner :=
  Scanner (pos s) (inSingleQuote s) (inDoubleQuote s) (inLineComment s) b
          (current s) (statements s).

(** [i++] *)
Definition advance (s : scanner) : scanner :=
  Scanner (S (pos s)) (inSingleQuote s) (inDoubleQuote s) (inLineComment s)
          (inBlockComment s) (current s) (statements s).

(** [stmt := strings.TrimSpace(current.String())], appended to
    [statements] when it is not the empty string. *)
Definition flush (cur : gostring) (stmts : list gostring) : list gostring :=
  let stmt := TrimSpace cur in
  if isEmpty stmt then stmts else stmts ++ [stmt].

(** ... followed by [current.Reset()] *)
Definition emit (s : scanner) : scanner :=
  Scanner (pos s) (inSingleQuote s) (inDoubleQuote s) (inLineComment s)
          (inBlockComment s) [] (flush (current s) (statements s)).

(** [i > 0] and [runes[i-1]] is a backslash. *)
Definition escaped (runes : list rune) (i : nat) : bool :=
  (0 <? i)%nat && (runeAt runes (i - 1) =? rBackslash).

(** The block that toggles the quote states.  [None] stands for the [continue]
    taken after writing an escaped quote; otherwise the scanner with the
    flags possibly toggled falls through to the semicolon test. *)
Definition toggleQuotes (runes : list rune) (ch : rune) (s : scanner)
  : option scanner :=
  if negb (inLineComment s) && negb (inBlockComment s) then
    if (ch =? rSQuote) && negb (inDoubleQuote s) then
      if escaped runes (pos s) then None
      else Some (setSingleQuote (negb (inSingleQuote s)) s)
    else if (ch =? rDQuote) && negb (inSingleQuote s) then
      if escaped runes (pos s) then None
      else Some (setDoubleQuote (negb (inDoubleQuote s)) s)
    else Some s
  else Some s.

(** One iteration of the [for] loop, including the post statement [i++]
    (every [continue] runs it as well). *)
Definition loopBody (runes : list rune) (s : scanner) : scanner :=
  let i := pos s in
  let ch := runeAt runes i in
  (* Check for line comments *)
  if negb (inSingleQuote s) && negb (inDoubleQuote s)
     && negb (inBlockComment s) && (ch =? rDash)
     && (i + 1 <? length runes)%nat && (runeAt runes (i + 1) =? rDash)
  then advance (writeRune ch (setLineComment true s))
  (* End line comment on newline *)
  else if inLineComment s && ((ch =? rLF) || (ch =? rCR))
  then advance (writeRune ch (setLineComment false s))
  (* Check for block comments *)
  else if negb (inSingleQuote s) && negb (inDoubleQuote s)
          && negb (inLineComment s) && (ch =? rSlash)
          && (i + 1 <? length runes)%nat && (runeAt runes (i + 1) =? rStar)
  then advance (writeRune ch (setBlockComment true s))
  (* End block comment; the extra [advance] is the [i++] that skips the slash *)
  else if inBlockComment s && (ch =? rStar)
          && (i + 1 <? length runes)%nat && (runeAt runes (i + 1) =? rSlash)
  then advance (writeRune (runeAt runes (i + 1))
                  (advance (writeRune ch (setBlockComment false s))))
  else
    (* Toggle quote states *)
    match toggleQuotes runes ch s with
    | None => advance (writeRune ch s)
    | Some s1 =>
        (* Split on semicolon if not in quotes or comments *)
        if (ch =? rSemi) && negb (inSingleQuote s1) && negb (inDoubleQuote s1)
           && negb (inLineComment s1) && negb (inBlockComment s1)
        then advance (emit s1)
        else advance (writeRune ch s1)
    end.

(** [for i := 0; i < len(runes); i++ { ... }], run for at most [fuel]
    iterations.  [scanLoop k runes initial] is therefore the scanner at
    the head of the loop after [k] iterations (or after the loop has
    ended, if that took fewer). *)
Fixpoint scanLoop (fuel : nat) (runes : list rune) (s : scanner) : scanner :=
  match fuel with
  | O => s
  | S fuel' =>
      if (pos s <? length runes)%nat
      then scanLoop fuel' runes (loopBody runes s)
      else s
  end.

(** Every iteration advances [i], so [len(runes)] iterations always reach
    the end of the loop (see [scanLoop_finishes]). *)
Definition splitSQLStatements (sql : gostring) : list gostring :=
  let s := scanLoop (length sql) sql initial in
  (* Add the last statement if there is one *)
  flush (current s) (statements s).

(** The four mode flags are pairwise exclusive. *)
Definition exclusive (s : scanner) : bool :=
  match inSingleQuote s, inDoubleQuote s, inLineComment s, inBlockComment s with
  | false, false, false, _ => true
  | false, false, _, false => true
  | false, _, false, false => true
  | _, false, false, false => true
  | _, _, _, _ => false
  end.

(** The number of active modes. *)
Definition activeModes (s : scanner) : nat :=
  (Nat.b2n (inSingleQuote s) + Nat.b2n (inDoubleQuote s)
   + Nat.b2n (inLineComment s) + Nat.b2n (inBlockComment s))%nat.

(** No mode is active. *)
Definition plain (s : scanner) : bool :=
  negb (inSingleQuote s) && negb (inDoubleQuote s)
  && negb (inLineComment s) && negb (inBlockComment s).

End Splitter.

Import Splitter.


(* ===================================================================== *)
(** * Collaborators: the operating system, errors and diagnostics         *)
(* ===================================================================== *)

Module Env.

(** The functions of packages [os], [path/filepath] and [crypto/md5] that
    the engine calls.  The file system is read-only for the engine and is
    taken not to change during a run. *)
Class OS := {
  (** [os.ReadFile] and [os.Open] followed by reading, for a process that
      has a file descriptor left: the text of the file, or [None] when
      the file system refuses to open it *)
  ReadFile : gostring -> option gostring;
  (** [filepath.Dir] *)
  Dir : gostring -> gostring;
  (** [filepath.Base] *)
  Base : gostring -> gostring;
  (** [filepath.Join] of two elements *)
  JoinPath : gostring -> gostring -> gostring;
  (** [hex.EncodeToString] of [md5.Sum] *)
  md5hex : gostring -> gostring
}.

(** The [error] values that reach the engine. *)
Inductive error :=
  | OsError (path : gostring)                (* from [os.Open], [os.ReadFile] *)
  | TooManyOpenFiles (path : gostring)       (* from [os.Open]: no descriptor left *)
  | TokenTooLong                             (* [bufio.ErrTooLong] *)
  | ErrorReadingFile (path : gostring) (cause : error) (* error reading file %s: %w *)
  | BackendError (msg : gostring)            (* from the executor *)
  | FailedToReadSQL (cause : error)          (* failed to read SQL file: %w *)
  | StatementFailed (index : nat) (cause : error). (* statement %d failed: %w *)

(** One constructor for every [fmt.Fprintf] of the modelled functions. *)
Inductive message :=
  (* run *)
  | NoteCouldNotQuery (e : error)
  | ErrProcessingIndex (e : error)
  | WarnParse (file : gostring) (e : error)
  | Skipping (base version : gostring)
  | MismatchWarning (version : gostring)
  | MismatchFile (file : gostring)
  | MismatchExpected (checksum : gostring)
  | MismatchCurrent (checksum : gostring)
  | MismatchHint
  | ErrExecuting (file : gostring) (e : error)
  | WarnRecord (version : gostring) (e : error)
  | MigrationComplete (applied skipped : nat)
  (* processWithWriter *)
  | ErrOpening (e : error)
  | ProcessingFile (path dir : gostring)
  | AddingSQL (fileName : gostring)
  | WarnUnknownType (fileName : gostring)
  (* executeSQLWithWriter *)
  | ExecutingFile (path : gostring)
  | ExecutingStatement (i total : nat)
  | Executed (path : gostring) (n : nat).

End Env.

Import Env.

(* ===================================================================== *)
(** * The migration parser                                                *)
(* ===================================================================== *)

Module Parser.

(** [MigrationInfo] holds metadata extracted from SQL file headers. *)
Record MigrationInfo := {
  Version : gostring;
  Description : gostring;
  Filename : gostring;
  Checksum : gostring
}.

Definition setVersion (v : gostring) (info : MigrationInfo) : MigrationInfo :=
  {| Version := v; Description := Description info;
     Filename := Filename info; Checksum := Checksum info |}.

Definition setDescription (d : gostring) (info : MigrationInfo) : MigrationInfo :=
  {| Version := Version info; Description := d;
     Filename := Filename info; Checksum := Checksum info |}.

(** The class [\s] of package [regexp]: tab, line feed, form feed,
    carriage return, space. *)
Definition reSpace (r : rune) : bool :=
  (r =? 9) || (r =? 10) || (r =? 12) || (r =? 13) || (r =? 32).

(** [.] matches every rune but the line feed. *)
Definition reDot (r : rune) : bool := negb (r =? rLF).

(** [(.+)$] at the start of [s]: the group is all of [s]. *)
Definition reGroup (s : gostring) : option gostring :=
  if negb (isEmpty s) && forallb reDot s then Some s else None.

(** [\s*(.+)$]: the star is greedy and gives runes back only when the
    rest of the pattern fails (leftmost-first matching). *)
Fixpoint reValue (s : gostring) : option gostring :=
  match s with
  | [] => None
  | c :: s' =>
      if reSpace c then
        match reValue s' with
        | Some g => Some g
        | None => reGroup s
        end
      else reGroup s
  end.

(** [key\s*(.+)$] for a literal [key] *)
Definition reKey (key s : gostring) : option gostring :=
  if HasPrefix s key then reValue (drop (length key) s) else None.

(** [\s*key\s*(.+)$] *)
Fixpoint reSpacesKey (key s : gostring) : option gostring :=
  match s with
  | [] => reKey key []
  | c :: s' =>
      if reSpace c then
        match reSpacesKey key s' with
        | Some g => Some g
        | None => reKey key s
        end
      else reKey key s
  end.

(** [FindStringSubmatch] for the anchored pattern [^--\s*key\s*(.+)$]:
    the text of the group when the line matches. *)
Definition reHeader (key line : gostring) : option gostring :=
  if HasPrefix line (go "--") then reSpacesKey key (drop 2 line) else None.

Definition versionRegex : gostring -> option gostring :=
  reHeader (go "version:").

Definition descriptionRegex : gostring -> option gostring :=
  reHeader (go "description:").

(** The body of the header loop up to the test that stops it. *)
Definition headerLine (line : gostring) (info : MigrationInfo) : MigrationInfo :=
  let info1 :=
    match versionRegex line with
    | Some g => setVersion (TrimSpace g) info
    | None => info
    end in
  match descriptionRegex line with
  | Some g => setDescription (TrimSpace g) info1
  | None => info1
  end.

(** Both [info.Version] and [info.Description] differ from the empty
    string. *)
Definition foundBoth (info : MigrationInfo) : bool :=
  negb (isEmpty (Version info)) && negb (isEmpty (Description info)).

(** [for scanner.Scan() && lineCount < 10 { ... }] over the lines that the
    scanner delivers; [scanner.Err()] is not looked at. *)
Fixpoint headerLoop (lines : list gostring) (lineCount : nat)
    (info : MigrationInfo) : MigrationInfo :=
  match lines with
  | [] => info
  | line :: rest =>
      if (lineCount <? 10)%nat then
        let info' := headerLine line info in
        (* Stop if we've found both *)
        if foundBoth info' then info'
        else headerLoop rest (S lineCount) info'
      else info
  end.

Section WithOS.
Context `{OS}.

Definition parseMigrationInfo (path : gostring) : MigrationInfo * option error :=
  let info := {| Version := []; Description := [];
                 Filename := Base path; Checksum := [] |} in
  match ReadFile path with
  | None => (info, Some (OsError path))
  | Some content =>
      (* Calculate checksum of entire file *)
      let info1 := {| Version := []; Description := [];
                      Filename := Base path; Checksum := md5hex content |} in
      (* Parse first few lines for version and description *)
      (headerLoop (fst (scanLines content)) 0 info1, None)
  end.

End WithOS.

(** The reading of the header loop in the specification: the first
    matching line of a field gives its value. *)
Fixpoint firstMatch (re : gostring -> option gostring) (lines : list gostring)
  : gostring :=
  match lines with
  | [] => []
  | line :: rest =>
      match re line with
      | Some g => TrimSpace g
      | None => firstMatch re rest
      end
  end.

(** What the loop computes: every matching line overwrites the field, so
    the last matching line of the lines read gives its value. *)
Definition lastMatchFrom (re : gostring -> option gostring) (v : gostring)
    (lines : list gostring) : gostring :=
  fold_left (fun v line =>
               match re line with Some g => TrimSpace g | None => v end)
            lines v.

Definition lastMatch (re : gostring -> option gostring) (lines : list gostring)
  : gostring := lastMatchFrom re [] lines.

(** Both fields are non-empty after the lines [read]. *)
Definition bothFound (read : list gostring) : bool :=
  negb (isEmpty (lastMatch versionRegex read))
  && negb (isEmpty (lastMatch descriptionRegex read)).

End Parser.

Import Parser.

(* ===================================================================== *)
(** * The index resolver                                                  *)
(* ===================================================================== *)

Module Resolver.

Section WithOS.
Context `{OS}.

(** The scanner loop of [processWithWriter] over the lines of one
    manifest; [recurse] is the recursive call of [processWithWriter].
    The slice behind the pointer [sqlfiles] and the writer [w] are
    threaded through, and the result carries them with the returned
    [error]. *)
Fixpoint scanManifest
    (recurse : gostring -> list gostring -> list message ->
               list gostring * list message * option error)
    (dir : gostring) (debug : bool) (lines : list gostring)
    (sqlfiles : list gostring) (w : list message)
  : list gostring * list message * option error :=
  match lines with
  | [] => (sqlfiles, w, None)
  | text :: rest =>
      let line := TrimSpace text in
      if isEmpty line || HasPrefix line (go "#") then
        (* Skip empty lines and comments *)
        scanManifest recurse dir debug rest sqlfiles w
      else
        let fileName := line in
        if HasSuffix fileName (go ".lst") then
          match recurse (JoinPath dir fileName) sqlfiles w with
          | (sqlfiles', w', Some err) => (sqlfiles', w', Some err)
          | (sqlfiles', w', None) =>
              scanManifest recurse dir debug rest sqlfiles' w'
          end
        else if HasSuffix fileName (go ".sql") then
          scanManifest recurse dir debug rest
            (sqlfiles ++ [JoinPath dir fileName])
            (if debug then w ++ [AddingSQL fileName] else w)
        else
          scanManifest recurse dir debug rest sqlfiles
            (w ++ [WarnUnknownType fileName])
  end.

(** [processWithWriter] reads an index.lst file and recursively collects
    SQL files.  Every level of the recursion keeps its manifest open until
    it returns ([defer file.Close()]), so every level holds one file
    descriptor more: [free] is the number of files that the process can
    still open, and [os.Open] fails when none is left.  The source has no
    cycle detection; this is what ends its recursion. *)
Fixpoint processWithWriter (free : nat) (path : gostring)
    (sqlfiles : list gostring) (w : list message) (debug : bool)
  : list gostring * list message * option error :=
  match free with
  | O =>
      (sqlfiles, w ++ [ErrOpening (TooManyOpenFiles path)],
       Some (TooManyOpenFiles path))
  | S free' =>
      match ReadFile path with
      | None =>
          (sqlfiles, w ++ [ErrOpening (OsError path)], Some (OsError path))
      | Some content =>
          let dir := Dir path in
          let '(lines, tooLong) := scanLines content in
          match scanManifest
                  (fun p sqlfiles w => processWithWriter free' p sqlfiles w debug)
                  dir debug lines sqlfiles
                  (w ++ [ProcessingFile path dir]) with
          | (sqlfiles', w', Some err) => (sqlfiles', w', Some err)
          | (sqlfiles', w', None) =>
              (* scanner.Err() *)
              if tooLong
              then (sqlfiles', w', Some (ErrorReadingFile path TokenTooLong))
              else (sqlfiles', w', None)
          end
      end
  end.

(** The reading of the resolver in the specification: the files of a
    manifest are the concatenation, in document order, of what each line
    contributes; a nested manifest contributes its own files, found
    relative to the directory of the manifest that names it. *)
Inductive entry :=
  | Ignored                       (* blank line, comment, unknown suffix *)
  | NestedManifest (path : gostring)
  | SQLFile (path : gostring).

Definition classify (dir text : gostring) : entry :=
  let line := TrimSpace text in
  if isEmpty line || HasPrefix line (go "#") then Ignored
  else if HasSuffix line (go ".lst") then NestedManifest (JoinPath dir line)
  else if HasSuffix line (go ".sql") then SQLFile (JoinPath dir line)
  else Ignored.

(** The files of the lines of one manifest, given the files of every
    nested manifest. *)
Fixpoint splice (nested : gostring -> option (list gostring))
    (dir : gostring) (lines : list gostring) : option (list gostring) :=
  match lines with
  | [] => Some []
  | text :: rest =>
      here ← match classify dir text with
             | Ignored => Some []
             | NestedManifest p => nested p
             | SQLFile p => Some [p]
             end;
      after ← splice nested dir rest;
      Some (here ++ after)
  end.

(** The files of a manifest tree that is read without error: [None] when
    a manifest of the tree cannot be opened, by the file system or because
    the nesting is deeper than the [free] file descriptors allow, or
    cannot be read to its end by the line scanner. *)
Fixpoint resolve (free : nat) (manifest : gostring) : option (list gostring) :=
  match free with
  | O => None
  | S free' =>
      content ← ReadFile manifest;
      files ← splice (resolve free') (Dir manifest) (fst (scanLines content));
      if snd (scanLines content) then None else Some files
  end.

End WithOS.

End Resolver.

Import Resolver.

(* ===================================================================== *)
(** * The applied-state registry and the migration driver                 *)
(* ===================================================================== *)

Module Driver.

(** The values [interface{}] of a result row: a string, or anything else. *)
Inductive value :=
  | VString (s : gostring)
  | VOther.

(** [DatabaseExecutor] defines the interface for database-specific
    operations.  [B] is the state behind the receiver; errors are the
    messages of the returned [error].  [Connect], [Close] and
    [DefaultPort] are used before and after the part of [run] that is
    embedded here. *)
Class DatabaseExecutor (B : Type) := {
  Execute : B -> gostring -> B * option gostring;
  Query : B -> gostring -> B * list (gmap (list Z) value) * option gostring
}.

(** The fields of [RunConfig] that the migration part of [run] reads. *)
Record RunConfig := {
  Path : gostring;
  Force : bool;
  Debug : bool
}.

(** The world a run acts on: the executor, the two writers, and two
    records kept for the statements of the properties, which no function
    reads: [issued] lists every text passed to [Execute], in order, and
    [ledger] lists the rows of [schema_versions] inserted by
    [recordMigration], in order. *)
Record world (B : Type) := World {
  backend : B;
  issued : list gostring;
  ledger : list MigrationInfo;
  stdout : list message;
  stderr : list message
}.
Arguments World {B}.
Arguments backend {B}.
Arguments issued {B}.
Arguments ledger {B}.
Arguments stdout {B}.
Arguments stderr {B}.

(** [row[key].(string)] with the comma-ok form: the empty string when the
    key is absent or the value is no string. *)
Definition asString (v : option value) : gostring :=
  match v with
  | Some (VString s) => s
  | _ => []
  end.

Section WithExecutor.
Context `{OS} {B : Type} `{DatabaseExecutor B}.

(** [fmt.Fprintf(cfg.Stdout, ...)] and [fmt.Fprintf(cfg.Stderr, ...)] *)
Definition say (m : message) (w : world B) : world B :=
  World (backend w) (issued w) (ledger w) (stdout w ++ [m]) (stderr w).

Definition complain (m : message) (w : world B) : world B :=
  World (backend w) (issued w) (ledger w) (stdout w) (stderr w ++ [m]).

(** [executor.Execute(ctxbg, sql)] *)
Definition execute (sql : gostring) (w : world B) : world B * option error :=
  let '(b, err) := Execute (backend w) sql in
  (World b (issued w ++ [sql]) (ledger w) (stdout w) (stderr w),
   BackendError <$> err).

(** [getAppliedMigrations] returns a map of version -> checksum for all
    applied migrations. *)
Definition getAppliedMigrations (w : world B)
  : world B * gmap (list Z) (list Z) * option error :=
  let '(b, rows, err) :=
    Query (backend w) (go "SELECT version, checksum FROM schema_versions") in
  let w' := World b (issued w) (ledger w) (stdout w) (stderr w) in
  match err with
  | Some e => (w', ∅, Some (BackendError e))
  | None =>
      (w',
       fold_left (fun (result : gmap (list Z) (list Z)) row =>
                    let version := asString (row !! go "version") in
                    let checksum := asString (row !! go "checksum") in
                    if negb (isEmpty version)
                    then <[version := checksum]> result
                    else result)
                 rows ∅,
       None)
  end.

(** The text built by [fmt.Sprintf] in [recordMigration]. *)
Definition insertSQL (info : MigrationInfo) : gostring :=
  go "INSERT INTO schema_versions (version, description, filename, checksum) VALUES ('"
  ++ escapeSQLString (Version info) ++ go "', '"
  ++ escapeSQLString (Description info) ++ go "', '"
  ++ escapeSQLString (Filename info) ++ go "', '"
  ++ escapeSQLString (Checksum info) ++ go "')".

(** [recordMigration] inserts a record into the [schema_versions] table;
    an insert that succeeds adds the row to the ledger. *)
Definition recordMigration (info : MigrationInfo) (w : world B)
  : world B * option error :=
  let '(w', err) := execute (insertSQL info) w in
  match err with
  | Some e => (w', Some e)
  | None =>
      (World (backend w') (issued w') (ledger w' ++ [info])
             (stdout w') (stderr w'), None)
  end.

(** [for i, stmt := range statements { ... }] of [executeSQLWithWriter];
    [i] is the index of the head of [stmts] and [total] is
    [len(statements)]. *)
Fixpoint executeStatements (stmts : list gostring) (i total : nat)
    (debug : bool) (w : world B) : world B * option error :=
  match stmts with
  | [] => (w, None)
  | text :: rest =>
      let stmt := TrimSpace text in
      if isEmpty stmt then
        executeStatements rest (S i) total debug w (* Skip empty statements *)
      else
        let w1 := if debug then say (ExecutingStatement (i + 1) total) w else w in
        let '(w2, err) := execute stmt w1 in
        match err with
        | Some e => (w2, Some (StatementFailed (i + 1) e))
        | None => executeStatements rest (S i) total debug w2
        end
  end.

(** [executeSQLWithWriter] reads and executes a SQL file. *)
Definition executeSQLWithWriter (path : gostring) (debug : bool) (w : world B)
  : world B * option error :=
  let w1 := say (ExecutingFile path) w in
  match ReadFile path with
  | None => (w1, Some (FailedToReadSQL (OsError path)))
  | Some sql =>
      (* Split SQL content into individual statements *)
      let statements := splitSQLStatements sql in
      (* Execute each statement separately *)
      let '(w2, err) := executeStatements statements 0 (length statements) debug w1 in
      match err with
      | Some e => (w2, Some e)
      | None => (say (Executed path (length statements)) w2, None)
      end
  end.

(** How the body of the file loop of [run] ends: [continue] after a skip,
    the end of the body after an apply, or [return 1]. *)
Inductive outcome := Applied | Skipped | Aborted.

(** The part of the loop body from [executeSQLWithWriter] on. *)
Definition applyMigration (cfg : RunConfig) (sqlFile : gostring)
    (info : MigrationInfo) (w : world B) : world B * outcome :=
  let '(w1, err) := executeSQLWithWriter sqlFile (Debug cfg) w in
  match err with
  | Some e => (complain (ErrExecuting sqlFile e) w1, Aborted)
  | None =>
      (* Record the migration if it has version info *)
      if negb (isEmpty (Version info)) then
        let '(w2, rerr) := recordMigration info w1 in
        match rerr with
        | Some e => (say (WarnRecord (Version info) e) w2, Applied)
        | None => (w2, Applied)
        end
      else (w1, Applied)
  end.

(** The body of [for _, sqlFile := range *sqlfiles]. *)
Definition migrateFile (cfg : RunConfig) (appliedMigrations : gmap (list Z) (list Z))
    (sqlFile : gostring) (w : world B) : world B * outcome :=
  let '(info, err) := parseMigrationInfo sqlFile in
  let w1 := match err with
            | Some e => say (WarnParse sqlFile e) w
            | None => w
            end in
  (* Check if migration was already applied *)
  if negb (Force cfg) && negb (isEmpty (Version info)) then
    match appliedMigrations !! Version info with
    | Some existingChecksum =>
        if eqString existingChecksum (Checksum info) then
          (if Debug cfg then say (Skipping (Base sqlFile) (Version info)) w1 else w1,
           Skipped)
        else
          (complain MismatchHint
             (complain (MismatchCurrent (Checksum info))
                (complain (MismatchExpected existingChecksum)
                   (complain (MismatchFile sqlFile)
                      (complain (MismatchWarning (Version info)) w1)))),
           Aborted)
    | None => applyMigration cfg sqlFile info w1
    end
  else applyMigration cfg sqlFile info w1.

(** The file loop of [run] with its two counters; [None] is [return 1]. *)
Fixpoint migrateFiles (cfg : RunConfig) (appliedMigrations : gmap (list Z) (list Z))
    (sqlfiles : list gostring) (migrationsApplied migrationsSkipped : nat)
    (w : world B) : world B * option (nat * nat) :=
  match sqlfiles with
  | [] => (w, Some (migrationsApplied, migrationsSkipped))
  | sqlFile :: rest =>
      match migrateFile cfg appliedMigrations sqlFile w with
      | (w', Skipped) =>
          migrateFiles cfg appliedMigrations rest
                       migrationsApplied (S migrationsSkipped) w'
      | (w', Applied) =>
          migrateFiles cfg appliedMigrations rest
                       (S migrationsApplied) migrationsSkipped w'
      | (w', Aborted) => (w', None)
      end
  end.

(** The second half of [run]: the manifest is resolved and the files are
    migrated against [appliedMigrations].  The result is the exit status;
    [free] is the number of files that the process can still open. *)
Definition resolveAndMigrate (free : nat) (cfg : RunConfig)
    (appliedMigrations : gmap (list Z) (list Z)) (w : world B)
  : world B * Z :=
  (* Process index.lst file to get list of SQL files *)
  match processWithWriter free (Path cfg) [] (stdout w) (Debug cfg) with
  | (sqlfiles, out, Some e) =>
      (complain (ErrProcessingIndex e)
         (World (backend w) (issued w) (ledger w) out (stderr w)), 1)
  | (sqlfiles, out, None) =>
      let w1 := World (backend w) (issued w) (ledger w) out (stderr w) in
      (* Execute each SQL file *)
      match migrateFiles cfg appliedMigrations sqlfiles 0 0 w1 with
      | (w2, None) => (w2, 1)
      | (w2, Some (migrationsApplied, migrationsSkipped)) =>
          (say (MigrationComplete migrationsApplied migrationsSkipped) w2, 0)
      end
  end.

(** [run] from the loading of the applied migrations to the final report,
    for a configuration without [-version] and without [-data]. *)
Definition run (free : nat) (cfg : RunConfig) (w : world B)
  : world B * Z :=
  (* Get already applied migrations *)
  let '(w1, loaded, err) := getAppliedMigrations w in
  match err with
  | Some e =>
      (* Table might not exist yet, continue with empty map *)
      resolveAndMigrate free cfg ∅
        (if Debug cfg then say (NoteCouldNotQuery e) w1 else w1)
  | None => resolveAndMigrate free cfg loaded w1
  end.

(** The state machine of the specification: the decision for one file. *)
Inductive decision := AlwaysApply | Apply | Skip | Reject.

Definition decideFile (force : bool) (info : MigrationInfo)
    (applied : gmap (list Z) (list Z)) : decision :=
  if isEmpty (Version info) then AlwaysApply          (* unversioned *)
  else if force then Apply                            (* override flag *)
  else match applied !! Version info with
       | None => Apply                                (* versioned, new *)
       | Some checksum =>
           if eqString checksum (Checksum info)
           then Skip                                  (* versioned, match *)
           else Reject                                (* versioned, mismatch *)
       end.

(** The world in which a file is executed: [w] with the warning of a
    failed parse. *)
Definition afterParse (sqlFile : gostring) (w : world B) : world B :=
  match snd (parseMigrationInfo sqlFile) with
  | Some e => say (WarnParse sqlFile e) w
  | None => w
  end.

(** The versions carried by the files of a run, unversioned files left
    out. *)
Definition versionsOf (sqlfiles : list gostring) : list gostring :=
  List.filter (fun v => negb (isEmpty v))
              (map (fun f => Version (fst (parseMigrationInfo f))) sqlfiles).

(** The executor, the statements issued and the ledger are those of [w]. *)
Definition sameEffects (w w' : world B) : Prop :=
  backend w' = backend w /\ issued w' = issued w /\ ledger w' = ledger w.

(** What [Execute] does to the executor over a list of statements that
    all succeed. *)
Fixpoint executedAll (b : B) (stmts : list gostring) : option B :=
  match stmts with
  | [] => Some b
  | stmt :: rest =>
      match Execute b stmt with
      | (b', None) => executedAll b' rest
      | (_, Some _) => None
      end
  end.

(** What executing a list of statements means for the executor: the
    statements are passed to [Execute] one after the other until it
    rejects one.  The result is the executor after them, the statements
    that were passed, the rejected one included, and whether all were
    accepted. *)
Fixpoint sendAll (b : B) (stmts : list gostring) : B * list gostring * bool :=
  match stmts with
  | [] => (b, [], true)
  | stmt :: rest =>
      match Execute b stmt with
      | (b', Some _) => (b', [stmt], false)
      | (b', None) =>
          let '(b'', sent, accepted) := sendAll b' rest in
          (b'', stmt :: sent, accepted)
      end
  end.

End WithExecutor.

End Driver.

Import Driver.

(* ===================================================================== *)
(** * Executors and file systems for the examples                         *)
(* ===================================================================== *)

Module Fixtures.

(** [MockExecutor] of main_test.go. *)
Record MockExecutor := {
  executedSQL : list gostring;
  shouldError : bool
}.

Definition mockExecute (m : MockExecutor) (sql : gostring)
  : MockExecutor * option gostring :=
  if shouldError m then (m, Some (go "context deadline exceeded"))
  else ({| executedSQL := executedSQL m ++ [sql]; shouldError := shouldError m |},
        None).

Definition mockQuery (m : MockExecutor) (sql : gostring)
  : MockExecutor * list (gmap (list Z) value) * option gostring :=
  if shouldError m then (m, [], Some (go "context deadline exceeded"))
  else (m, [], None).

Definition mockExecutor : DatabaseExecutor MockExecutor :=
  {| Execute := mockExecute; Query := mockQuery |}.

(** [MockExecutorWithRows] of main_test.go: [Execute] is the one of the
    embedded [MockExecutor], [Query] returns the rows. *)
Record MockExecutorWithRows := {
  mock : MockExecutor;
  rows : list (gmap (list Z) value);
  queryShouldError : bool
}.

Definition mockExecutorWithRows : DatabaseExecutor MockExecutorWithRows :=
  {| Execute m sql :=
       let '(m', err) := mockExecute (mock m) sql in
       ({| mock := m'; rows := rows m; queryShouldError := queryShouldError m |},
        err);
     Query m sql :=
       if queryShouldError m then (m, [], Some (go "query error"))
       else (m, rows m, None) |}.

(** An executor that rejects the statement [BAD] and logs the others. *)
Definition pickyExecutor : DatabaseExecutor (list gostring) :=
  {| Execute log sql :=
       if eqString sql (go "BAD") then (log, Some (go "syntax error"))
       else (log ++ [sql], None);
     Query log sql := (log, [], None) |}.

(** A file system given by a table of paths and texts.  Paths are
    relative, separated by slashes, without dot elements; the fingerprint
    of a text is the text itself. *)
Fixpoint lookupFile (files : list (gostring * gostring)) (path : gostring)
  : option gostring :=
  match files with
  | [] => None
  | (p, text) :: rest => if eqString p path then Some text else lookupFile rest path
  end.

Fixpoint afterLastSlash (path acc : gostring) : gostring :=
  match path with
  | [] => acc
  | c :: rest =>
      if c =? rSlash then afterLastSlash rest [] else afterLastSlash rest (acc ++ [c])
  end.

Definition tableBase (path : gostring) : gostring := afterLastSlash path [].

Definition tableDir (path : gostring) : gostring :=
  if forallb (fun c => negb (c =? rSlash)) path then go "."
  else take (length path - length (tableBase path) - 1) path.

Definition tableJoin (dir name : gostring) : gostring :=
  if eqString dir (go ".") then name else dir ++ go "/" ++ name.

Definition tableOS (files : list (gostring * gostring)) : OS :=
  {| ReadFile := lookupFile files;
     Dir := tableDir;
     Base := tableBase;
     JoinPath := tableJoin;
     md5hex := fun text => text |}.

(** Line feed, for the texts of the examples. *)
Definition nl : gostring := [rLF].

(** A manifest that lists [a.sql] and then a nested manifest, in a
    subdirectory, that lists [b.sql]. *)
Definition nestedFiles : list (gostring * gostring) :=
  [ (go "sql/index.lst",
     go "# schema" ++ nl ++ go "a.sql" ++ nl ++ go "more/index.lst" ++ nl);
    (go "sql/more/index.lst", go "b.sql" ++ nl) ].

(** A migration whose second statement the picky executor rejects. *)
Definition badFiles : list (gostring * gostring) :=
  [ (go "index.lst", go "m.sql" ++ nl ++ go "n.sql" ++ nl);
    (go "m.sql",
     go "-- version: 1.0.0" ++ nl ++ go "-- description: three statements" ++ nl
     ++ go "SELECT 1; BAD; SELECT 3;" ++ nl);
    (go "n.sql", go "SELECT 4;" ++ nl) ].

(** One versioned migration. *)
Definition oneMigration : gostring :=
  go "-- version: 1.0.0" ++ nl ++ go "-- description: first" ++ nl
  ++ go "CREATE TABLE t (id INT);" ++ nl.

Definition oneFile : list (gostring * gostring) :=
  [ (go "index.lst", go "m.sql" ++ nl); (go "m.sql", oneMigration) ].

(** What [parseMigrationInfo] returns for it. *)
Definition oneInfo : MigrationInfo :=
  {| Version := go "1.0.0"; Description := go "first";
     Filename := go "m.sql"; Checksum := oneMigration |}.

(** The row of [schema_versions] for it, as [Query] returns it. *)
Definition oneRow : gmap (list Z) value :=
  <[go "version" := VString (go "1.0.0")]>
    (<[go "checksum" := VString oneMigration]> ∅).

(** A second versioned migration, and a manifest with both. *)
Definition secondMigration : gostring :=
  go "-- version: 1.1.0" ++ nl ++ go "-- description: second" ++ nl
  ++ go "ALTER TABLE t ADD COLUMN name String;" ++ nl.

Definition twoFiles : list (gostring * gostring) :=
  [ (go "index.lst", go "m.sql" ++ nl ++ go "n.sql" ++ nl);
    (go "m.sql", oneMigration); (go "n.sql", secondMigration) ].

(** A file with two version headers. *)
Definition twoVersions : gostring :=
  go "-- version: 1" ++ nl ++ go "-- version: 2" ++ nl
  ++ go "-- description: d" ++ nl ++ go "SELECT 1;" ++ nl.

(** Configurations and worlds of the examples. *)
Definition plainRun : RunConfig :=
  {| Path := go "index.lst"; Force := false; Debug := false |}.

Definition forcedRun : RunConfig :=
  {| Path := go "index.lst"; Force := true; Debug := false |}.

Definition freshLog : world (list gostring) := World [] [] [] [] [].

(** An executor that reports [reported] as the rows of the ledger. *)
Definition reporting (reported : list (gmap (list Z) value)) (failing : bool)
  : MockExecutorWithRows :=
  {| mock := {| executedSQL := []; shouldError := false |};
     rows := reported; queryShouldError := failing |}.

(** Before the first run: nothing recorded, nothing reported. *)
Definition beforeFirstRun : world MockExecutorWithRows :=
  World (reporting [] false) [] [] [] [].

(** After the first run: the row of the migration recorded and reported. *)
Definition afterFirstRun : world MockExecutorWithRows :=
  World (reporting [oneRow] false) [] [oneInfo] [] [].

(** The row of a migration of the same version with another text. *)
Definition staleRow : gmap (list Z) value :=
  <[go "version" := VString (go "1.0.0")]>
    (<[go "checksum" := VString (go "X")]> ∅).

(** A store whose ledger cannot be queried. *)
Definition unreachableLedger : world MockExecutorWithRows :=
  World (reporting [] true) [] [] [] [].

End Fixtures.

Import Fixtures.

(* ===================================================================== *)
(** * The branches of the scanner, as a relation                          *)
(* ===================================================================== *)

Module SplitterSteps.

(** [branch runes s s'] lists the seven ways through the loop body, each
    with the tests of the source that lead to it.  [loopBody_branch]
    below shows that the loop body always takes one of them. *)
Inductive branch (runes : list rune) (s : scanner) : scanner -> Prop :=
  | LineCommentStart :
      inSingleQuote s = false -> inDoubleQuote s = false ->
      inBlockComment s = false ->
      runeAt runes (pos s) = rDash ->
      (pos s + 1 < length runes)%nat ->
      runeAt runes (pos s + 1) = rDash ->
      branch runes s
        (advance (writeRune (runeAt runes (pos s)) (setLineComment true s)))
  | LineCommentEnd :
      inLineComment s = true ->
      runeAt runes (pos s) = rLF \/ runeAt runes (pos s) = rCR ->
      branch runes s
        (advance (writeRune (runeAt runes (pos s)) (setLineComment false s)))
  | BlockCommentStart :
      inSingleQuote s = false -> inDoubleQuote s = false ->
      inLineComment s = false ->
      runeAt runes (pos s) = rSlash ->
      (pos s + 1 < length runes)%nat ->
      runeAt runes (pos s + 1) = rStar ->
      branch runes s
        (advance (writeRune (runeAt runes (pos s)) (setBlockComment true s)))
  | BlockCommentEnd :
      inBlockComment s = true ->
      runeAt runes (pos s) = rStar ->
      (pos s + 1 < length runes)%nat ->
      runeAt runes (pos s + 1) = rSlash ->
      branch runes s
        (advance (writeRune (runeAt runes (pos s + 1))
           (advance (writeRune (runeAt runes (pos s))
              (setBlockComment false s)))))
  | EscapedQuote :
      inLineComment s = false -> inBlockComment s = false ->
      (runeAt runes (pos s) = rSQuote /\ inDoubleQuote s = false)
      \/ (runeAt runes (pos s) = rDQuote /\ inSingleQuote s = false) ->
      escaped runes (pos s) = true ->
      branch runes s (advance (writeRune (runeAt runes (pos s)) s))
  | ToggleSingle :
      inLineComment s = false -> inBlockComment s = false ->
      runeAt runes (pos s) = rSQuote -> inDoubleQuote s = false ->
      escaped runes (pos s) = false ->
      branch runes s
        (advance (writeRune (runeAt runes (pos s))
           (setSingleQuote (negb (inSingleQuote s)) s)))
  | ToggleDouble :
      inLineComment s = false -> inBlockComment s = false ->
      runeAt runes (pos s) = rDQuote -> inSingleQuote s = false ->
      escaped runes (pos s) = false ->
      branch runes s
        (advance (writeRune (runeAt runes (pos s))
           (setDoubleQuote (negb (inDoubleQuote s)) s)))
  | Split :
      runeAt runes (pos s) = rSemi -> plain s = true ->
      branch runes s (advance (emit s))
  | Write :
      runeAt runes (pos s) <> rSemi \/ plain s = false ->
      branch runes s (advance (writeRune (runeAt runes (pos s)) s)).

End SplitterSteps.

Import SplitterSteps.

(* ===================================================================== *)
(** * The round trip of the splitter, as the specification words it       *)
(* ===================================================================== *)

Module SplitterSpec.

(** A segment that survives trimming. *)
Definition nonBlank (s : gostring) : bool := negb (isEmpty s).

(** The segments of a text, trimmed, without the blank ones. *)
Definition keptSegments (segments : list gostring) : list gostring :=
  List.filter nonBlank (map TrimSpace segments).



(** The text read so far is the closed segments and the open one, joined
    by semicolons; the statements are the closed segments that are kept. *)
Definition segmented (runes : list rune) (s : scanner) : Prop :=
  exists segs,
    Join (segs ++ [current s]) (go ";") = take (pos s) runes
    /\ statements s = keptSegments segs
    /\ (pos s <= length runes)%nat.

(** A statement as the splitter returns it. *)
Definition trimmed (stmt : gostring) : Prop :=
  TrimSpace stmt = stmt /\ isEmpty stmt = false.

End SplitterSpec.

Import SplitterSpec.

(* ===================================================================== *)
(** * Connection defaults                                                 *)
(* ===================================================================== *)

Module Connection.

(** The fields of [RunConfig] that [applyDefaultsWithConfig] reads and
    writes.  [Port] is a Go [int]; it is only compared with 0 and
    assigned. *)
Record connection := {
  Engine : gostring;
  Port : Z;
  User : gostring;
  Database : gostring
}.

(** The only implementation of [DatabaseExecutor] that [createExecutor]
    builds. *)
Inductive executorKind : Set := ClickHouseExecutor.

(** [(e *ClickHouseExecutor) DefaultPort] *)
Definition DefaultPort (k : executorKind) : Z :=
  match k with ClickHouseExecutor => 9000 end.

(** The error of [createExecutor]: unsupported database engine. *)
Inductive engineError := UnsupportedEngine (engine : gostring).

(** [createExecutor] creates the appropriate database executor based on
    the engine type. *)
Definition createExecutor (engine : gostring) : executorKind + engineError :=
  if eqString engine (go "clickhouse") then inl ClickHouseExecutor
  else inr (UnsupportedEngine engine).

(** [applyDefaultsWithConfig] sets default values based on the database
    engine. *)
Definition applyDefaultsWithConfig (executor : executorKind) (cfg : connection)
  : connection :=
  let cfg1 :=
    if Port cfg =? 0
    then {| Engine := Engine cfg; Port := DefaultPort executor;
            User := User cfg; Database := Database cfg |}
    else cfg in
  if eqString (Engine cfg1) (go "clickhouse") then
    let cfg2 :=
      if isEmpty (User cfg1)
      then {| Engine := Engine cfg1; Port := Port cfg1;
              User := go "default"; Database := Database cfg1 |}
      else cfg1 in
    if isEmpty (Database cfg2)
    then {| Engine := Engine cfg2; Port := Port cfg2;
            User := User cfg2; Database := go "default" |}
    else cfg2
  else cfg1.

(** [DefaultRunConfig], the fields above. *)
Definition DefaultRunConfig : connection :=
  {| Engine := go "clickhouse"; Port := 0;
     User := go "default"; Database := go "default" |}.

End Connection.

Import Connection.

(* ===================================================================== *)
(** * Loading CSV data                                                    *)
(* ===================================================================== *)

Module CSVLoader.

(** What one call of [reader.Read()] returns before [io.EOF]: a record or
    an error. *)
Inductive csvRead :=
  | CSVRecord (fields : list gostring)
  | CSVFailure (msg : gostring).

(** [os.ReadDir], the names of the entries with [IsDir()], and what the
    [csv.Reader] over a file returns call after call until [io.EOF];
    [None] is the error of [os.ReadDir] or [os.Open]. *)
Class DataDir := {
  ReadDir : gostring -> option (list (gostring * bool));
  OpenCSV : gostring -> option (list csvRead)
}.

(** The errors of the two loading functions. *)
Inductive csvError :=
  | FailedToReadDir (dataDir : gostring)
  | FailedToLoad (name : gostring) (cause : csvError)
  | FailedToOpenCSV (csvPath : gostring)
  | FailedToReadHeaders (cause : option gostring)  (* [None] is [io.EOF] *)
  | NoColumns
  | ErrorReadingCSV (msg : gostring)
  | WrongColumnCount (got expected : nat)
  | FailedToInsert (cause : error).

(** One constructor for every line the two functions write. *)
Inductive csvMessage :=
  | LoadingData (dataDir : gostring)
  | NoCSVFiles
  | LoadedFiles (csvCount : nat)
  | LoadingFile (csvPath tableName : gostring)
  | NoDataRows (csvPath : gostring)
  | InsertingRows (n : nat) (tableName : gostring)
  | LoadedRows (n : nat) (tableName : gostring).

(** [strings.TrimSuffix] *)
Definition TrimSuffix (s suffix : gostring) : gostring :=
  if HasSuffix s suffix then take (length s - length suffix) s else s.

(** The loop that reads all data rows; [expected] is [len(headers)]. *)
Fixpoint readRecords (expected : nat) (reads : list csvRead)
    (records : list (list gostring)) : list (list gostring) + csvError :=
  match reads with
  | [] => inl records
  | CSVFailure msg :: _ => inr (ErrorReadingCSV msg)
  | CSVRecord record :: rest =>
      if (length record =? expected)%nat
      then readRecords expected rest (records ++ [record])
      else inr (WrongColumnCount (length record) expected)
  end.

(** One group of values: every value quoted, its single quotes doubled. *)
Definition valueGroup (record : list gostring) : gostring :=
  go "(" ++ Join (map (fun v => go "'" ++ escapeSQLString v ++ go "'") record)
                 (go ", ") ++ go ")".

(** The complete INSERT statement. *)
Definition csvInsertSQL (tableName : gostring) (headers : list gostring)
    (records : list (list gostring)) : gostring :=
  go "INSERT INTO " ++ tableName ++ go " (" ++ Join headers (go ", ")
  ++ go ") VALUES " ++ Join (map valueGroup records) (go ", ").

Section WithExecutor.
Context `{OS} `{DataDir} {B : Type} `{DatabaseExecutor B}.

(** [loadCSVFileWithWriter] reads a CSV file and inserts rows into the
    specified table. *)
Definition loadCSVFileWithWriter (csvPath tableName : gostring) (debug : bool)
    (w : world B) (out : list csvMessage)
  : world B * list csvMessage * option csvError :=
  let out1 := out ++ [LoadingFile csvPath tableName] in
  match OpenCSV csvPath with
  | None => (w, out1, Some (FailedToOpenCSV csvPath))
  | Some reads =>
      (* Read header row to get column names *)
      match reads with
      | [] => (w, out1, Some (FailedToReadHeaders None))
      | CSVFailure msg :: _ => (w, out1, Some (FailedToReadHeaders (Some msg)))
      | CSVRecord headers :: rest =>
          if (length headers =? 0)%nat then (w, out1, Some NoColumns)
          else
            (* Read all data rows first *)
            match readRecords (length headers) rest [] with
            | inr e => (w, out1, Some e)
            | inl records =>
                if (length records =? 0)%nat
                then (w, out1 ++ [NoDataRows csvPath], None)
                else
                  let insertSQL := csvInsertSQL tableName headers records in
                  let out2 :=
                    if debug
                    then out1 ++ [InsertingRows (length records) tableName]
                    else out1 in
                  (* Execute batch insert *)
                  match execute insertSQL w with
                  | (w', Some e) => (w', out2, Some (FailedToInsert e))
                  | (w', None) =>
                      (w', out2 ++ [LoadedRows (length records) tableName], None)
                  end
            end
      end
  end.

(** [for _, entry := range entries] of [loadCSVDataWithWriter] *)
Fixpoint loadEntries (dataDir : gostring) (debug : bool)
    (entries : list (gostring * bool)) (csvCount : nat)
    (w : world B) (out : list csvMessage)
  : world B * list csvMessage * (nat + csvError) :=
  match entries with
  | [] => (w, out, inl csvCount)
  | (name, isDir) :: rest =>
      if isDir || negb (HasSuffix name (go ".csv")) then
        loadEntries dataDir debug rest csvCount w out
      else
        let csvPath := JoinPath dataDir name in
        let tableName := TrimSuffix name (go ".csv") in
        match loadCSVFileWithWriter csvPath tableName debug w out with
        | (w', out', Some e) => (w', out', inr (FailedToLoad name e))
        | (w', out', None) => loadEntries dataDir debug rest (S csvCount) w' out'
        end
  end.

(** [loadCSVDataWithWriter] reads CSV files from a directory and loads
    them into database tables. *)
Definition loadCSVDataWithWriter (dataDir : gostring) (debug : bool)
    (w : world B) (out : list csvMessage)
  : world B * list csvMessage * option csvError :=
  let out1 := out ++ [LoadingData dataDir] in
  (* Read directory contents *)
  match ReadDir dataDir with
  | None => (w, out1, Some (FailedToReadDir dataDir))
  | Some entries =>
      (* Process each CSV file *)
      match loadEntries dataDir debug entries 0 w out1 with
      | (w', out', inr e) => (w', out', Some e)
      | (w', out', inl csvCount) =>
          if (csvCount =? 0)%nat then (w', out' ++ [NoCSVFiles], None)
          else (w', out' ++ [LoadedFiles csvCount], None)
      end
  end.

End WithExecutor.

(** The entries that [loadCSVDataWithWriter] loads: the files named
    [*.csv]. *)
Definition csvEntries (entries : list (gostring * bool)) : list gostring :=
  map fst (List.filter (fun e : gostring * bool =>
                          negb (snd e) && HasSuffix (fst e) (go ".csv"))
                       entries).

End CSVLoader.

Import CSVLoader.

(* ===================================================================== *)
(** * Readings used by the further properties                             *)
(* ===================================================================== *)

Module Readings.

(** The plain split of a text at every semicolon. *)
Fixpoint splitAtSemicolons (cur : gostring) (text : gostring) : list gostring :=
  match text with
  | [] => [cur]
  | c :: rest =>
      if c =? rSemi then cur :: splitAtSemicolons [] rest
      else splitAtSemicolons (cur ++ [c]) rest
  end.

(** The pieces occur in the text one after the other, without overlap. *)
Fixpoint inOrder (pieces : list gostring) (text : gostring) : Prop :=
  match pieces with
  | [] => True
  | piece :: rest =>
      exists before after, text = before ++ piece ++ after /\ inOrder rest after
  end.

(** A value as a header line carries it: not empty, no whitespace at
    either end, on one line. *)
Definition headerValue (v : gostring) : Prop :=
  v <> [] /\ TrimSpace v = v /\ ~ In rLF v.

(** The two columns that [getAppliedMigrations] reads from a row. *)
Definition rowVersion (row : gmap (list Z) value) : gostring :=
  asString (row !! go "version").

Definition rowChecksum (row : gmap (list Z) value) : gostring :=
  asString (row !! go "checksum").

(** The loop of [getAppliedMigrations] over the rows. *)
Definition collectRows (rows : list (gmap (list Z) value))
  : gmap (list Z) (list Z) :=
  fold_left (fun (result : gmap (list Z) (list Z)) row =>
               let version := asString (row !! go "version") in
               let checksum := asString (row !! go "checksum") in
               if negb (isEmpty version)
               then <[version := checksum]> result
               else result)
            rows ∅.

(** Two worlds that differ in what was written to the standard output
    only. *)
Definition sameButStdout {B : Type} (w1 w2 : world B) : Prop :=
  backend w1 = backend w2 /\ issued w1 = issued w2
  /\ ledger w1 = ledger w2 /\ stderr w1 = stderr w2.

(** The files found and the error do not depend on the writer and on the
    debug flag. *)
Definition sameResolution
    (x y : list gostring * list message * option error) : Prop :=
  fst (fst x) = fst (fst y) /\ snd x = snd y.

(** A text made of complete lines, each ended by a line feed. *)
Definition unlines (texts : list gostring) : gostring :=
  flat_map (fun text => text ++ [rLF]) texts.

(** A line that [bufio.ScanLines] delivers: it holds no line feed and
    fits into the buffer of the scanner with its line feed. *)
Definition scannable (text : gostring) : Prop :=
  ~ In rLF text /\ byteLen text < MaxScanTokenSize.

(** The status of a run and what it leaves, up to the standard output. *)
Definition sameRun {B : Type} (x y : world B * Z) : Prop :=
  snd x = snd y /\ sameButStdout (fst x) (fst y).

(** The paths of the files that the CSV loader announced, in order. *)
Definition loadedFiles (out : list csvMessage) : list gostring :=
  omap (fun m => match m with
                 | LoadingFile csvPath _ => Some csvPath
                 | _ => None
                 end) out.

(** What the loop over the data rows makes of a read that it rejects. *)
Definition rowError (expected : nat) (read : csvRead) : option csvError :=
  match read with
  | CSVFailure msg => Some (ErrorReadingCSV msg)
  | CSVRecord record =>
      if (length record =? expected)%nat then None
      else Some (WrongColumnCount (length record) expected)
  end.

(** The closing line of [loadCSVDataWithWriter]. *)
Definition closingLine (csvCount : nat) : csvMessage :=
  match csvCount with
  | O => NoCSVFiles
  | _ => LoadedFiles csvCount
  end.

(** The reads of a CSV file with a header and data rows of its width. *)
Definition wellFormedCSV (reads : list csvRead) (headers : list gostring)
    (rows : list (list gostring)) : Prop :=
  reads = CSVRecord headers :: map CSVRecord rows
  /\ headers <> []
  /\ Forall (fun row => length row = length headers) rows.

End Readings.

Import Readings.

(* ===================================================================== *)
(** * Further file systems and data for the examples                      *)
(* ===================================================================== *)

Module MoreFixtures.

(** A manifest that lists a SQL file and then itself. *)
Definition loopFiles : list (gostring * gostring) :=
  [ (go "index.lst", go "a.sql" ++ nl ++ go "index.lst" ++ nl) ].

(** A data directory with a subdirectory, a text file and two CSV files,
    the second with a row that is too short. *)
Definition tableData : DataDir :=
  {| ReadDir dir :=
       if eqString dir (go "data")
       then Some [(go "old", true); (go "notes.txt", false);
                  (go "users.csv", false); (go "visits.csv", false)]
       else None;
     OpenCSV path :=
       if eqString path (go "data/users.csv")
       then Some [CSVRecord [go "id"; go "name"];
                  CSVRecord [go "1"; go "it's"];
                  CSVRecord [go "2"; go "bob"]]
       else if eqString path (go "data/visits.csv")
       then Some [CSVRecord [go "id"; go "day"];
                  CSVRecord [go "1"; go "mon"];
                  CSVFailure (go "record on line 3: wrong number of fields")]
       else None |}.

(** A manifest between two SQL files names a manifest that is missing. *)
Definition brokenFiles : list (gostring * gostring) :=
  [ (go "index.lst",
     go "a.sql" ++ nl ++ go "missing.lst" ++ nl ++ go "b.sql" ++ nl) ].

(** A manifest whose second line does not fit into the buffer of the
    line scanner. *)
Definition longLine : gostring := repeat 120 (Z.to_nat MaxScanTokenSize).

Definition longLineFiles : list (gostring * gostring) :=
  [ (go "index.lst",
     unlines [go "a.sql"] ++ longLine ++ (nl ++ go "b.sql" ++ nl)) ].

(** A world with the mock executor of main_test.go. *)
Definition freshMock : world MockExecutor :=
  World {| executedSQL := []; shouldError := false |} [] [] [] [].

(** The rows of a ledger in which a version was recorded twice. *)
Definition twiceRecorded : list (gmap (list Z) value) :=
  [ <[go "version" := VString (go "1.0.0")]>
      (<[go "checksum" := VString (go "old")]> ∅);
    <[go "version" := VString (go "1.0.0")]>
      (<[go "checksum" := VString (go "new")]> ∅) ].

End MoreFixtures.

Import MoreFixtures.

(* ===================================================================== *)
(** * Facts about Go strings                                              *)
(* ===================================================================== *)

(** Turns the boolean tests of the source found among the hypotheses into
    equations and inequalities. *)
Ltac bool_facts :=
  repeat match goal with
  | H : (_ && _)%bool = true |- _ => apply andb_prop in H; destruct H
  | H : negb _ = true |- _ => apply negb_true_iff in H
  | H : negb _ = false |- _ => apply negb_false_iff in H
  | H : (_ || _)%bool = true |- _ => apply orb_prop in H
  | H : (_ =? _)%Z = true |- _ => apply Z.eqb_eq in H
  | H : (_ =? _)%Z = false |- _ => apply Z.eqb_neq in H
  | H : (_ <? _)%nat = true |- _ => apply Nat.ltb_lt in H
  | H : (_ <? _)%nat = false |- _ => apply Nat.ltb_ge in H
  end.

Section GoStringFacts.

Lemma isEmpty_true (s : gostring) : isEmpty s = true <-> s = [].
Proof. destruct s; simpl; split; congruence. Qed.

Lemma isEmpty_false (s : gostring) : isEmpty s = false <-> s <> [].
Proof. destruct s; simpl; split; congruence. Qed.

Lemma eqString_eq (a b : gostring) : eqString a b = true <-> a = b.
Proof.
  revert b; induction a as [|x a IH]; intros [|y b]; simpl; split;
    try congruence.
  - intros Hab. apply andb_prop in Hab as [Hx Hr].
    apply Z.eqb_eq in Hx. apply IH in Hr. congruence.
  - intros [= -> ->]. rewrite Z.eqb_refl. simpl. apply IH. reflexivity.
Qed.

(** Trimming on the left stops at the first rune that is no space. *)
Lemma trimLeft_app (l m : gostring) :
  trimLeft (l ++ m) = if isEmpty (trimLeft l) then trimLeft m else trimLeft l ++ m.
Proof.
  induction l as [|c l IH]; simpl; [reflexivity|].
  destruct (isSpace c); [exact IH | reflexivity].
Qed.

Lemma trimLeft_head (s : gostring) :
  match trimLeft s with [] => True | c :: _ => isSpace c = false end.
Proof.
  induction s as [|c s IH]; simpl; [exact I|].
  destruct (isSpace c) eqn:E; [exact IH | exact E].
Qed.

Lemma trimLeft_fixed (s : gostring) :
  match s with [] => True | c :: _ => isSpace c = false end -> trimLeft s = s.
Proof. destruct s as [|c s]; simpl; [reflexivity|]. intros ->. reflexivity. Qed.

Lemma trimRight_cons (c : rune) (s : gostring) :
  trimRight (c :: s) =
  if isEmpty (trimRight s) then trimRight [c] else c :: trimRight s.
Proof.
  unfold trimRight. simpl rev at 1. rewrite trimLeft_app.
  destruct (trimLeft (rev s)) as [|d t] eqn:E.
  - reflexivity.
  - replace (isEmpty (d :: t)) with false by reflexivity.
    replace (isEmpty (rev (d :: t))) with false.
    + rewrite rev_app_distr. reflexivity.
    + symmetry. apply isEmpty_false. simpl. destruct (rev t); discriminate.
Qed.

Lemma trimRight_head (c : rune) (s : gostring) :
  isSpace c = false -> exists t, trimRight (c :: s) = c :: t.
Proof.
  intros Hc. rewrite trimRight_cons.
  destruct (isEmpty (trimRight s)).
  - exists []. unfold trimRight. simpl. rewrite Hc. reflexivity.
  - eexists. reflexivity.
Qed.

(** The result of [TrimSpace] neither starts nor ends with a space. *)
Lemma TrimSpace_first (s : gostring) :
  match TrimSpace s with [] => True | c :: _ => isSpace c = false end.
Proof.
  unfold TrimSpace. pose proof (trimLeft_head s) as Hh.
  destruct (trimLeft s) as [|c t]; [exact I|].
  destruct (trimRight_head c t Hh) as [t' ->]. exact Hh.
Qed.

Lemma TrimSpace_last (s : gostring) :
  match rev (TrimSpace s) with [] => True | c :: _ => isSpace c = false end.
Proof.
  unfold TrimSpace, trimRight. rewrite rev_involutive. apply trimLeft_head.
Qed.

Lemma TrimSpace_idem (s : gostring) : TrimSpace (TrimSpace s) = TrimSpace s.
Proof.
  pose proof (TrimSpace_first s) as Hf. pose proof (TrimSpace_last s) as Hl.
  unfold TrimSpace at 1. rewrite (trimLeft_fixed _ Hf).
  unfold trimRight. rewrite (trimLeft_fixed _ Hl). apply rev_involutive.
Qed.

(** [strings.Join] and the last element. *)
Lemma Join_snoc_write (segs : list gostring) (cur x sep : gostring) :
  Join (segs ++ [cur ++ x]) sep = Join (segs ++ [cur]) sep ++ x.
Proof.
  induction segs as [|a segs IH]; simpl; [reflexivity|].
  destruct (segs ++ [cur ++ x]) eqn:E1; [destruct segs; discriminate|].
  destruct (segs ++ [cur]) eqn:E2; [destruct segs; discriminate|].
  rewrite IH. rewrite <- !app_assoc. reflexivity.
Qed.

Lemma Join_snoc_new (segs : list gostring) (cur sep : gostring) :
  Join ((segs ++ [cur]) ++ [[]]) sep = Join (segs ++ [cur]) sep ++ sep.
Proof.
  induction segs as [|a segs IH]; simpl.
  - rewrite app_nil_r. reflexivity.
  - destruct ((segs ++ [cur]) ++ [[]]) eqn:E1; [destruct segs; discriminate|].
    destruct (segs ++ [cur]) eqn:E2; [destruct segs; discriminate|].
    rewrite IH. rewrite <- !app_assoc. reflexivity.
Qed.

Lemma runeLen_pos (r : rune) : 1 <= runeLen r.
Proof.
  unfold runeLen.
  destruct (r <? 128), (r <? 2048), (r <? 65536); lia.
Qed.

Lemma byteLen_app (a b : gostring) : byteLen (a ++ b) = byteLen a + byteLen b.
Proof. induction a as [|r a IH]; simpl; [reflexivity | rewrite IH; lia]. Qed.

Lemma byteLen_nonneg (s : gostring) : 0 <= byteLen s.
Proof.
  induction s as [|r s IH]; simpl; [lia | pose proof (runeLen_pos r); lia].
Qed.

(** The part of a line that has been read grows until the line ends. *)
Lemma scanLinesFrom_prefix (cur line rest : gostring) :
  ~ In rLF line ->
  scanLinesFrom cur (line ++ rest) = scanLinesFrom (cur ++ line) rest.
Proof.
  revert cur. induction line as [|c line IH]; intros cur Hno.
  - simpl. now rewrite app_nil_r.
  - cbn [app scanLinesFrom].
    replace (c =? rLF) with false
      by (symmetry; apply Z.eqb_neq; intros ->; apply Hno; now left).
    rewrite IH by (intros Hin; apply Hno; now right).
    now rewrite <- app_assoc.
Qed.

(** A line that fills the buffer ends the scan: neither that line nor a
    later one is delivered. *)
Lemma scanLinesFrom_too_long (cur s : gostring) :
  MaxScanTokenSize <= byteLen cur -> scanLinesFrom cur s = ([], true).
Proof.
  revert cur. induction s as [|c s IH]; intros cur Hlong.
  - cbn [scanLinesFrom]. destruct cur as [|r cur];
      [unfold MaxScanTokenSize in Hlong; simpl in Hlong; lia|].
    cbn [isEmpty]. destruct (Z.ltb_spec (byteLen (r :: cur)) MaxScanTokenSize);
      [lia | reflexivity].
  - cbn [scanLinesFrom]. destruct (c =? rLF).
    + destruct (Z.leb_spec (byteLen cur + 1) MaxScanTokenSize);
        [lia | reflexivity].
    + apply IH. rewrite byteLen_app. pose proof (byteLen_nonneg [c]). lia.
Qed.

Lemma scanLines_too_long (line rest : gostring) :
  ~ In rLF line -> MaxScanTokenSize <= byteLen line ->
  scanLines (line ++ rest) = ([], true).
Proof.
  intros Hno Hlong. unfold scanLines. rewrite scanLinesFrom_prefix by exact Hno.
  now apply scanLinesFrom_too_long.
Qed.

(** A line that fits into the buffer with its line feed is delivered. *)
Lemma scanLinesFrom_line (cur line rest : gostring) :
  ~ In rLF line ->
  byteLen (cur ++ line) < MaxScanTokenSize ->
  scanLinesFrom cur (line ++ rLF :: rest)
  = (dropCR (cur ++ line) :: fst (scanLinesFrom [] rest),
     snd (scanLinesFrom [] rest)).
Proof.
  intros Hno Hfit. rewrite scanLinesFrom_prefix by exact Hno.
  cbn [scanLinesFrom]. change (rLF =? rLF) with true. cbv iota.
  destruct (Z.leb_spec (byteLen (cur ++ line) + 1) MaxScanTokenSize); [|lia].
  destruct (scanLinesFrom [] rest). reflexivity.
Qed.

Lemma scanLinesFrom_line_app (cur line rest : gostring) :
  ~ In rLF line ->
  byteLen (cur ++ line) < MaxScanTokenSize ->
  scanLinesFrom cur (line ++ [rLF] ++ rest)
  = (dropCR (cur ++ line) :: fst (scanLinesFrom [] rest),
     snd (scanLinesFrom [] rest)).
Proof. apply scanLinesFrom_line. Qed.

End GoStringFacts.

(* ===================================================================== *)
(** * Facts about the splitter                                            *)
(* ===================================================================== *)

Section SplitterFacts.

(** The loop body always takes one of the listed branches. *)
Lemma loopBody_branch (runes : list rune) (s : scanner) :
  branch runes s (loopBody runes s).
Proof.
  unfold loopBody.
  destruct (negb (inSingleQuote s) && negb (inDoubleQuote s)
            && negb (inBlockComment s) && (runeAt runes (pos s) =? rDash)
            && (pos s + 1 <? length runes)%nat
            && (runeAt runes (pos s + 1) =? rDash)) eqn:E1.
  { bool_facts. now apply LineCommentStart. }
  destruct (inLineComment s && ((runeAt runes (pos s) =? rLF)
                                || (runeAt runes (pos s) =? rCR))) eqn:E2.
  { bool_facts. apply LineCommentEnd; [assumption|].
    match goal with H : _ \/ _ |- _ => destruct H; bool_facts; auto end. }
  destruct (negb (inSingleQuote s) && negb (inDoubleQuote s)
            && negb (inLineComment s) && (runeAt runes (pos s) =? rSlash)
            && (pos s + 1 <? length runes)%nat
            && (runeAt runes (pos s + 1) =? rStar)) eqn:E3.
  { bool_facts. now apply BlockCommentStart. }
  destruct (inBlockComment s && (runeAt runes (pos s) =? rStar)
            && (pos s + 1 <? length runes)%nat
            && (runeAt runes (pos s + 1) =? rSlash)) eqn:E4.
  { bool_facts. now apply BlockCommentEnd. }
  clear E1 E2 E3 E4. unfold toggleQuotes.
  destruct (negb (inLineComment s) && negb (inBlockComment s)) eqn:E5.
  - bool_facts.
    destruct ((runeAt runes (pos s) =? rSQuote) && negb (inDoubleQuote s)) eqn:E6.
    { bool_facts. destruct (escaped runes (pos s)) eqn:E7.
      - apply EscapedQuote; auto.
      - replace (runeAt runes (pos s) =? rSemi) with false
          by (symmetry; apply Z.eqb_neq; unfold rSemi, rSQuote in *; lia).
        now apply ToggleSingle. }
    destruct ((runeAt runes (pos s) =? rDQuote) && negb (inSingleQuote s)) eqn:E8.
    { bool_facts. destruct (escaped runes (pos s)) eqn:E7.
      - apply EscapedQuote; auto.
      - replace (runeAt runes (pos s) =? rSemi) with false
          by (symmetry; apply Z.eqb_neq; unfold rSemi, rDQuote in *; lia).
        now apply ToggleDouble. }
    destruct ((runeAt runes (pos s) =? rSemi) && negb (inSingleQuote s)
              && negb (inDoubleQuote s) && negb (inLineComment s)
              && negb (inBlockComment s)) eqn:E9.
    + apply Split; [bool_facts; assumption|].
      unfold plain. bool_facts.
      repeat match goal with H : _ = false |- _ => rewrite H end. reflexivity.
    + apply Write. unfold plain.
      destruct (runeAt runes (pos s) =? rSemi) eqn:E10; bool_facts; [right|left; assumption].
      exact E9.
  - destruct ((runeAt runes (pos s) =? rSemi) && negb (inSingleQuote s)
              && negb (inDoubleQuote s) && negb (inLineComment s)
              && negb (inBlockComment s)) eqn:E9.
    + exfalso. bool_facts.
      repeat match goal with H : _ = false |- _ => rewrite H in * end.
      discriminate.
    + apply Write. unfold plain.
      destruct (runeAt runes (pos s) =? rSemi) eqn:E10; bool_facts; [right|left; assumption].
      exact E9.
Qed.

(** Every iteration moves the index forward by one rune, or by two when
    it closes a block comment; the second rune is then the slash. *)
Lemma loopBody_pos (runes : list rune) (s : scanner) :
  pos (loopBody runes s) = S (pos s)
  \/ (pos (loopBody runes s) = S (S (pos s))
      /\ (pos s + 1 < length runes)%nat
      /\ runeAt runes (pos s + 1) = rSlash).
Proof.
  destruct (loopBody_branch runes s); simpl; auto.
Qed.

Lemma loopBody_pos_lt (runes : list rune) (s : scanner) :
  (pos s < pos (loopBody runes s))%nat.
Proof. destruct (loopBody_pos runes s) as [-> | [-> _]]; lia. Qed.

Lemma loopBody_pos_le (runes : list rune) (s : scanner) :
  (pos s < length runes)%nat -> (pos (loopBody runes s) <= length runes)%nat.
Proof. destruct (loopBody_pos runes s) as [-> | [-> [Hlt _]]]; lia. Qed.

(** The loop, unrolled at its end rather than at its start. *)
Lemma scanLoop_S (k : nat) (runes : list rune) (s : scanner) :
  scanLoop (S k) runes s =
  let s' := scanLoop k runes s in
  if (pos s' <? length runes)%nat then loopBody runes s' else s'.
Proof.
  revert s. induction k as [|k IH]; intros s.
  - simpl. destruct (pos s <? length runes)%nat; reflexivity.
  - change (scanLoop (S (S k)) runes s)
      with (if (pos s <? length runes)%nat
            then scanLoop (S k) runes (loopBody runes s) else s).
    destruct (pos s <? length runes)%nat eqn:E.
    + rewrite IH. simpl. rewrite E. reflexivity.
    + simpl. rewrite E. simpl. rewrite E. reflexivity.
Qed.

(** A property kept by every iteration holds at every loop head. *)
Lemma scanLoop_invariant (P : scanner -> Prop) (runes : list rune) :
  (forall s, P s -> (pos s < length runes)%nat -> P (loopBody runes s)) ->
  forall k s, P s -> P (scanLoop k runes s).
Proof.
  intros Hstep k. induction k as [|k IH]; intros s Hs; simpl; [exact Hs|].
  destruct (pos s <? length runes)%nat eqn:E; [|exact Hs].
  apply IH, Hstep; [exact Hs|]. now apply Nat.ltb_lt.
Qed.

(** [len(runes)] iterations are enough: the loop has then ended. *)
Lemma scanLoop_progress (runes : list rune) (k : nat) (s : scanner) :
  (length runes <= pos s + k)%nat ->
  (length runes <= pos (scanLoop k runes s))%nat.
Proof.
  revert s. induction k as [|k IH]; intros s Hk; simpl; [lia|].
  destruct (pos s <? length runes)%nat eqn:E.
  - apply IH. pose proof (loopBody_pos_lt runes s). lia.
  - apply Nat.ltb_ge in E. exact E.
Qed.

Lemma scanLoop_finishes (runes : list rune) :
  pos (scanLoop (length runes) runes initial) = length runes.
Proof.
  apply Nat.le_antisymm.
  - apply (scanLoop_invariant (fun s => (pos s <= length runes)%nat)).
    + intros s _ Hlt. now apply loopBody_pos_le.
    + simpl. lia.
  - apply scanLoop_progress. simpl. lia.
Qed.

(** More fuel changes nothing once the loop has ended. *)
Lemma scanLoop_ended (runes : list rune) (k : nat) (s : scanner) :
  (length runes <= pos s)%nat -> scanLoop k runes s = s.
Proof.
  intros Hle. destruct k; simpl; [reflexivity|].
  apply Nat.ltb_ge in Hle. rewrite Hle. reflexivity.
Qed.

(** The mode flags stay exclusive. *)
Lemma loopBody_exclusive (runes : list rune) (s : scanner) :
  exclusive s = true -> exclusive (loopBody runes s) = true.
Proof.
  intros Hex. destruct (loopBody_branch runes s);
    destruct s as [i sq dq lc bc cur st]; unfold exclusive, plain in *;
    simpl in *; subst; simpl in *;
    repeat match goal with b : bool |- _ => destruct b end;
    simpl in *; congruence.
Qed.

Lemma scanLoop_exclusive (runes : list rune) (k : nat) :
  exclusive (scanLoop k runes initial) = true.
Proof.
  apply (scanLoop_invariant (fun s => exclusive s = true)).
  - intros s Hs _. now apply loopBody_exclusive.
  - reflexivity.
Qed.

Lemma exclusive_activeModes (s : scanner) :
  exclusive s = true <-> (activeModes s <= 1)%nat.
Proof.
  unfold exclusive, activeModes.
  destruct (inSingleQuote s), (inDoubleQuote s), (inLineComment s),
    (inBlockComment s); simpl; split; intros; try lia; congruence.
Qed.

End SplitterFacts.

Section SplitterClaims.

Lemma take_S_runeAt (runes : list rune) (i : nat) :
  (i < length runes)%nat -> take (S i) runes = take i runes ++ [runeAt runes i].
Proof.
  intros Hlt. apply take_S_r. unfold runeAt.
  destruct (nth_lookup_or_length runes i 0) as [Hl | Hge]; [exact Hl | lia].
Qed.

Lemma flush_kept (segs : list gostring) (cur : gostring) :
  flush cur (keptSegments segs) = keptSegments (segs ++ [cur]).
Proof.
  unfold flush, keptSegments. rewrite map_app, List.filter_app.
  cbn [map List.filter].
  change (nonBlank (TrimSpace cur)) with (negb (isEmpty (TrimSpace cur))).
  destruct (isEmpty (TrimSpace cur)); cbn [negb].
  - rewrite app_nil_r. reflexivity.
  - reflexivity.
Qed.

Lemma loopBody_segmented (runes : list rune) (s : scanner) :
  segmented runes s -> (pos s < length runes)%nat ->
  segmented runes (loopBody runes s).
Proof.
  intros (segs & HJ & Hst & Hle) Hlt.
  pose proof (take_S_runeAt runes (pos s) Hlt) as Htake.
  destruct (loopBody_branch runes s) as
    [ | | | _ _ Hlt2 _ | | | | Hsemi _ | ]; unfold segmented; simpl.
  1-3, 5-7, 9:
    exists segs; rewrite Join_snoc_write, HJ, Htake; repeat split; auto; lia.
  - (* the two runes that close a block comment *)
    exists segs. rewrite <- app_assoc, Join_snoc_write, HJ.
    replace (pos s + 1)%nat with (S (pos s)) in * by lia.
    rewrite (take_S_runeAt runes (S (pos s)) Hlt2), Htake, <- app_assoc.
    repeat split; auto.
  - (* a boundary *)
    exists (segs ++ [current s]). rewrite Join_snoc_new, HJ, Htake, Hsemi.
    repeat split; [|lia]. rewrite Hst. apply flush_kept.
Qed.

Lemma scanLoop_segmented (runes : list rune) (k : nat) :
  segmented runes (scanLoop k runes initial).
Proof.
  apply (scanLoop_invariant (segmented runes)).
  - intros s Hs Hlt. now apply loopBody_segmented.
  - exists []. simpl. repeat split. lia.
Qed.

Lemma flush_statements (cur : gostring) (stmts : list gostring) (stmt : gostring) :
  In stmt (flush cur stmts) -> In stmt stmts \/ (stmt = TrimSpace cur /\ stmt <> []).
Proof.
  unfold flush. destruct (isEmpty (TrimSpace cur)) eqn:E; [auto|].
  rewrite in_app_iff. simpl. intros [Hin | [<- | []]]; [auto|].
  right. split; [reflexivity|]. now apply isEmpty_false.
Qed.

(** Every statement the scanner holds is the non-empty result of a trim. *)
Lemma scanLoop_statements (runes : list rune) (k : nat) (stmt : gostring) :
  In stmt (statements (scanLoop k runes initial)) ->
  stmt <> [] /\ exists cur, stmt = TrimSpace cur.
Proof.
  revert stmt.
  apply (scanLoop_invariant
           (fun s => forall stmt, In stmt (statements s) ->
                                  stmt <> [] /\ exists cur, stmt = TrimSpace cur)).
  - intros s Hs _ stmt. destruct (loopBody_branch runes s); simpl; auto.
    intros Hin. apply flush_statements in Hin as [Hin | [-> Hne]]; eauto.
  - simpl. intros stmt [].
Qed.

Lemma split_statements (sql stmt : gostring) :
  In stmt (splitSQLStatements sql) ->
  stmt <> [] /\ exists cur, stmt = TrimSpace cur.
Proof.
  unfold splitSQLStatements. intros Hin.
  apply flush_statements in Hin as [Hin | [-> Hne]]; eauto.
  now apply scanLoop_statements in Hin.
Qed.

(** Statements of the splitter are fixed by [TrimSpace]. *)
Lemma split_trimmed (sql stmt : gostring) :
  In stmt (splitSQLStatements sql) -> TrimSpace stmt = stmt /\ isEmpty stmt = false.
Proof.
  intros Hin. apply split_statements in Hin as [Hne [cur ->]].
  split; [apply TrimSpace_idem | now apply isEmpty_false].
Qed.

(** Every index of the text is the index of some iteration, but for the
    slash that closes a block comment. *)
Lemma index_visited (runes : list rune) (i : nat) :
  (i < length runes)%nat ->
  (exists k, pos (scanLoop k runes initial) = i)
  \/ (runeAt runes i = rSlash /\ exists k, pos (scanLoop k runes initial) = S i).
Proof.
  induction i as [|i IH]; intros Hlt.
  - left. exists O. reflexivity.
  - destruct IH as [[k Hk] | [_ [k Hk]]]; [lia | | left; eauto].
    pose proof (scanLoop_S k runes initial) as HS. cbv zeta in HS.
    rewrite Hk in HS.
    replace (i <? length runes)%nat with true in HS
      by (symmetry; apply Nat.ltb_lt; lia).
    destruct (loopBody_pos runes (scanLoop k runes initial))
      as [Hp | (Hp & _ & Hsl)]; rewrite Hk in *.
    + left. exists (S k). rewrite HS. exact Hp.
    + right. replace (i + 1)%nat with (S i) in Hsl by lia.
      split; [exact Hsl|]. exists (S k). rewrite HS. exact Hp.
Qed.

(** A semicolon read while a mode is active goes to the open segment. *)
Lemma semicolon_in_mode_kept (runes : list rune) (s : scanner) :
  runeAt runes (pos s) = rSemi -> plain s = false ->
  statements (loopBody runes s) = statements s
  /\ current (loopBody runes s) = current s ++ [rSemi].
Proof.
  intros Hsemi Hmode.
  destruct (loopBody_branch runes s); simpl; rewrite ?Hsemi; auto;
    unfold rSemi, rDash, rSlash, rStar in *; try congruence.
Qed.

(** A statement is only cut at a semicolon read while no mode is active. *)
Lemma boundary_only_plain_semicolon (runes : list rune) (s : scanner) :
  statements (loopBody runes s) <> statements s
  \/ current (loopBody runes s) = [] ->
  runeAt runes (pos s) = rSemi /\ plain s = true.
Proof.
  intros Hcut.
  destruct (loopBody_branch runes s); simpl in Hcut; auto;
    destruct Hcut as [Hcut | Hcut]; try congruence;
    try (destruct (current s); discriminate).
Qed.

(** C10: at every loop head of the scan of any text at most one of the
    four mode flags is set; the block comment flag is only raised at a
    slash followed by a star read while no mode is active, only lowered at
    a star followed by a slash read while no other mode is active, and the
    line comment flag is only lowered at a line feed or carriage return. *)
Theorem C10_modes_mutually_exclusive (sql : gostring) (k : nat) :
  let s := scanLoop k sql initial in
  let s' := loopBody sql s in
  (activeModes s <= 1)%nat
  /\ (inBlockComment s = false -> inBlockComment s' = true ->
       plain s = true
       /\ runeAt sql (pos s) = rSlash /\ runeAt sql (pos s + 1) = rStar)
  /\ (inBlockComment s = true -> inBlockComment s' = false ->
       inSingleQuote s = false /\ inDoubleQuote s = false
       /\ inLineComment s = false
       /\ runeAt sql (pos s) = rStar /\ runeAt sql (pos s + 1) = rSlash)
  /\ (inLineComment s = true -> inLineComment s' = false ->
       runeAt sql (pos s) = rLF \/ runeAt sql (pos s) = rCR).
Proof.
  intros s s'. pose proof (scanLoop_exclusive sql k) as Hex. fold s in Hex.
  split; [now apply exclusive_activeModes|].
  subst s'. generalize dependent s. intros s Hex.
  destruct (loopBody_branch sql s); destruct s as [i sq dq lc bc cur st];
    unfold exclusive, plain in *; simpl in *; subst; simpl in *;
    repeat split; intros; subst; simpl in *; try congruence; auto;
    repeat match goal with b : bool |- _ => destruct b end;
    simpl in *; congruence.
Qed.

(** C9: a single or double quote of the text that directly follows a
    backslash is read by an iteration of the scan, and that iteration
    leaves both string-literal flags as they were. *)
Theorem C9_escaped_quote_never_toggles (sql : gostring) (i : nat) :
  (0 < i)%nat -> (i < length sql)%nat ->
  runeAt sql (i - 1) = rBackslash ->
  runeAt sql i = rSQuote \/ runeAt sql i = rDQuote ->
  exists k,
    let s := scanLoop k sql initial in
    pos s = i
    /\ inSingleQuote (loopBody sql s) = inSingleQuote s
    /\ inDoubleQuote (loopBody sql s) = inDoubleQuote s.
Proof.
  intros Hpos Hlt Hprev Hquote.
  destruct (index_visited sql i Hlt) as [[k Hk] | [Hsl _]].
  2: { unfold rSlash, rSQuote, rDQuote in *. lia. }
  exists k. cbv zeta. split; [exact Hk|].
  assert (Hesc : escaped sql (pos (scanLoop k sql initial)) = true).
  { rewrite Hk. unfold escaped. rewrite Hprev.
    replace (0 <? i)%nat with true by (symmetry; now apply Nat.ltb_lt).
    reflexivity. }
  rewrite <- Hk in Hquote.
  destruct (loopBody_branch sql (scanLoop k sql initial)); simpl; auto;
    unfold rSlash, rSQuote, rDQuote, rDash, rStar, rSemi, rLF, rCR in *;
    try congruence; try lia.
Qed.

(** The escaped quote of [it\'s], at index 4 of the literal. *)
Lemma C9_escaped_quote_never_toggles_witness :
  exists k,
    let s := scanLoop k (go "'it\'s'") initial in
    pos s = 4%nat
    /\ inSingleQuote (loopBody (go "'it\'s'") s) = inSingleQuote s
    /\ inDoubleQuote (loopBody (go "'it\'s'") s) = inDoubleQuote s.
Proof.
  apply (C9_escaped_quote_never_toggles (go "'it\'s'") 4).
  - lia.
  - simpl. lia.
  - reflexivity.
  - left. reflexivity.
Defined.

(** C2: the text [/*/ ; */] is one block comment, a slash and a star that
    open it, the body [/ ; ] and a star and a slash that close it, yet the
    splitter cuts it at the semicolon of the body; the comment [/* ; */]
    and the literal of the example of the specification are kept whole. *)
Theorem C2_semicolon_in_block_comment_splits :
  splitSQLStatements (go "/*" ++ go "/ ; " ++ go "*/") = [go "/*/"; go "*/"]
  /\ splitSQLStatements (go "/*" ++ go " ; " ++ go "*/") = [go "/* ; */"]
  /\ splitSQLStatements (go "INSERT INTO t VALUES ('a;b'); SELECT 1;")
     = [go "INSERT INTO t VALUES ('a;b')"; go "SELECT 1"].
Proof. repeat split; vm_compute; reflexivity. Qed.



End SplitterClaims.

(* ===================================================================== *)
(** * Facts about the migration parser                                    *)
(* ===================================================================== *)

Section ParserClaims.

Lemma lastMatchFrom_snoc (re : gostring -> option gostring) (v line : gostring)
    (read : list gostring) :
  lastMatchFrom re v (read ++ [line]) =
  match re line with
  | Some g => TrimSpace g
  | None => lastMatchFrom re v read
  end.
Proof. unfold lastMatchFrom. rewrite fold_left_app. reflexivity. Qed.

Lemma headerLine_Version (line : gostring) (info : MigrationInfo) :
  Version (headerLine line info) =
  match versionRegex line with Some g => TrimSpace g | None => Version info end.
Proof.
  unfold headerLine.
  destruct (versionRegex line), (descriptionRegex line); reflexivity.
Qed.

Lemma headerLine_Description (line : gostring) (info : MigrationInfo) :
  Description (headerLine line info) =
  match descriptionRegex line with
  | Some g => TrimSpace g
  | None => Description info
  end.
Proof.
  unfold headerLine.
  destruct (versionRegex line), (descriptionRegex line); reflexivity.
Qed.

(** The header loop, started after the lines [read] have been read
    without finding both fields, stops after [n] lines of the whole text:
    at the first [n] at which both fields are found, or at the tenth line
    or the end of the text. *)
Lemma headerLoop_scan (rest read : list gostring) (info : MigrationInfo) :
  Version info = lastMatch versionRegex read ->
  Description info = lastMatch descriptionRegex read ->
  (length read <= 10)%nat ->
  (forall m, (m <= length read)%nat -> bothFound (take m read) = false) ->
  let lines := read ++ rest in
  let r := headerLoop rest (length read) info in
  exists n,
    (n <= 10)%nat /\ (n <= length lines)%nat
    /\ Version r = lastMatch versionRegex (take n lines)
    /\ Description r = lastMatch descriptionRegex (take n lines)
    /\ (forall m, (m < n)%nat -> bothFound (take m lines) = false)
    /\ (bothFound (take n lines) = true \/ n = Nat.min 10 (length lines)).
Proof.
  revert read info. induction rest as [|line rest IH]; intros read info HV HD Hlen Hnot.
  - cbv zeta. cbn [headerLoop]. rewrite app_nil_r. exists (length read).
    rewrite firstn_all. repeat split; auto.
    + intros m Hm. apply Hnot. lia.
    + right. lia.
  - cbv zeta. simpl headerLoop.
    destruct (length read <? 10)%nat eqn:E.
    + apply Nat.ltb_lt in E.
      assert (HV' : Version (headerLine line info)
                    = lastMatch versionRegex (read ++ [line])).
      { rewrite headerLine_Version. unfold lastMatch.
        rewrite lastMatchFrom_snoc, HV. reflexivity. }
      assert (HD' : Description (headerLine line info)
                    = lastMatch descriptionRegex (read ++ [line])).
      { rewrite headerLine_Description. unfold lastMatch.
        rewrite lastMatchFrom_snoc, HD. reflexivity. }
      assert (Hfound : foundBoth (headerLine line info) = bothFound (read ++ [line])).
      { unfold foundBoth, bothFound. rewrite HV', HD'. reflexivity. }
      assert (Htake : take (S (length read)) (read ++ line :: rest) = read ++ [line]).
      { change (line :: rest) with ([line] ++ rest). rewrite app_assoc.
        apply take_app_length'. rewrite length_app. simpl. lia. }
      assert (Hbefore : forall m, (m <= length read)%nat ->
                          bothFound (take m (read ++ line :: rest)) = false).
      { intros m Hm. rewrite take_app_le by exact Hm. now apply Hnot. }
      destruct (foundBoth (headerLine line info)) eqn:F.
      * exists (S (length read)). rewrite Htake.
        repeat split; auto; try lia.
        -- rewrite length_app. simpl. lia.
        -- intros m Hm. apply Hbefore. lia.
      * specialize (IH (read ++ [line]) (headerLine line info) HV' HD').
        replace (length (read ++ [line])) with (S (length read)) in IH
          by (rewrite length_app; simpl; lia).
        rewrite <- app_assoc in IH. apply IH; [lia|].
        intros m Hm.
        destruct (Nat.eq_dec m (S (length read))) as [-> | Hne].
        -- rewrite take_ge by (rewrite length_app; simpl; lia).
           rewrite <- Hfound. reflexivity.
        -- rewrite take_app_le by lia. apply Hnot. lia.
    + apply Nat.ltb_ge in E. exists (length read).
      rewrite take_app_length.
      repeat split; auto; try lia.
      * rewrite length_app. lia.
      * intros m Hm. rewrite take_app_le by lia. apply Hnot. lia.
      * right. rewrite length_app. cbn [length]. lia.
Qed.

(** Lines after the tenth are never looked at. *)
Lemma headerLoop_take (lines : list gostring) (lineCount : nat)
    (info : MigrationInfo) :
  headerLoop lines lineCount info
  = headerLoop (take (10 - lineCount) lines) lineCount info.
Proof.
  revert lineCount info.
  induction lines as [|line rest IH]; intros lineCount info.
  - rewrite take_nil. reflexivity.
  - cbn [headerLoop]. destruct (lineCount <? 10)%nat eqn:E.
    + apply Nat.ltb_lt in E.
      replace (10 - lineCount)%nat with (S (10 - S lineCount)) by lia.
      cbn [take headerLoop].
      replace (lineCount <? 10)%nat with true by (symmetry; now apply Nat.ltb_lt).
      destruct (foundBoth (headerLine line info)); [reflexivity | apply IH].
    + apply Nat.ltb_ge in E.
      replace (10 - lineCount)%nat with 0%nat by lia. reflexivity.
Qed.

(** The two header fields that the loop computes depend on the lines and
    on the two fields it starts from, not on file name and checksum. *)
Lemma headerLoop_fields (lines : list gostring) (lineCount : nat)
    (i1 i2 : MigrationInfo) :
  Version i1 = Version i2 -> Description i1 = Description i2 ->
  Version (headerLoop lines lineCount i1) = Version (headerLoop lines lineCount i2)
  /\ Description (headerLoop lines lineCount i1)
     = Description (headerLoop lines lineCount i2).
Proof.
  revert lineCount i1 i2.
  induction lines as [|l ls IH]; intros c i1 i2 HV HD; [auto|].
  cbn [headerLoop]. destruct (c <? 10)%nat; [|auto].
  assert (HV' : Version (headerLine l i1) = Version (headerLine l i2))
    by (rewrite !headerLine_Version, HV; reflexivity).
  assert (HD' : Description (headerLine l i1) = Description (headerLine l i2))
    by (rewrite !headerLine_Description, HD; reflexivity).
  unfold foundBoth. rewrite HV', HD'.
  destruct (negb (isEmpty (Version (headerLine l i2)))
            && negb (isEmpty (Description (headerLine l i2)))); auto.
Qed.

Lemma lastMatch_no_match (re : gostring -> option gostring) (lines : list gostring) :
  (forall line, In line lines -> re line = None) -> lastMatch re lines = [].
Proof.
  induction lines as [|line lines IH] using rev_ind; intros Hno; [reflexivity|].
  unfold lastMatch in *. rewrite lastMatchFrom_snoc.
  rewrite (Hno line) by (apply in_app_iff; right; left; reflexivity).
  apply IH. intros l Hl. apply Hno. apply in_app_iff. now left.
Qed.

Lemma In_take {A : Type} (x : A) (n m : nat) (l : list A) :
  (n <= m)%nat -> In x (take n l) -> In x (take m l).
Proof.
  intros Hle Hin. rewrite <- (take_drop n (take m l)).
  rewrite take_take. replace (n `min` m)%nat with n by lia.
  apply in_app_iff. now left.
Qed.

(** C3, the claim as it is worded, fails: in a file whose first two lines
    both carry a version header, the second one gives the version. *)
Lemma C3_first_match_does_not_win :
  let info := fst (@parseMigrationInfo (tableOS [(go "f.sql", twoVersions)])
                                       (go "f.sql")) in
  firstMatch versionRegex (take 10 (fst (scanLines twoVersions))) = go "1"
  /\ Version info = go "2"
  /\ Version info
     <> firstMatch versionRegex (take 10 (fst (scanLines twoVersions))).
Proof. vm_compute. repeat split. discriminate. Qed.

(** C3: [parseMigrationInfo] reads [n] of the lines that the line scanner
    delivers, [n] being at most 10; each field is the trimmed value of
    the last of these lines that matches its header; no shorter prefix of
    the file has both fields non-empty, and the reading stops there
    because both are non-empty or because the tenth line or the last line
    delivered is reached.  A file without a header in its first 10 lines
    gets empty fields, and two files with the same first 10 lines get the
    same fields.  The scanner delivers no line that does not fit into its
    buffer of 64 KiB and no line after such a line: a file whose first
    line is that long gets empty fields, whatever follows. *)
Theorem C3_headers_from_first_ten_lines `{OS} (path content : gostring) :
  ReadFile path = Some content ->
  let lines := fst (scanLines content) in
  let info := fst (parseMigrationInfo path) in
  (exists n,
     (n <= 10)%nat /\ (n <= length lines)%nat
     /\ Version info = lastMatch versionRegex (take n lines)
     /\ Description info = lastMatch descriptionRegex (take n lines)
     /\ (forall m, (m < n)%nat -> bothFound (take m lines) = false)
     /\ (bothFound (take n lines) = true \/ n = Nat.min 10 (length lines)))
  /\ ((forall line, In line (take 10 lines) ->
         versionRegex line = None /\ descriptionRegex line = None) ->
      Version info = [] /\ Description info = [])
  /\ (forall path' content',
        ReadFile path' = Some content' ->
        take 10 (fst (scanLines content')) = take 10 lines ->
        Version (fst (parseMigrationInfo path')) = Version info
        /\ Description (fst (parseMigrationInfo path')) = Description info)
  /\ (forall first rest,
        content = first ++ rest -> ~ In rLF first ->
        MaxScanTokenSize <= byteLen first ->
        lines = [] /\ Version info = [] /\ Description info = []).
Proof.
  intros Hread lines info.
  assert (Hscan : exists n,
     (n <= 10)%nat /\ (n <= length lines)%nat
     /\ Version info = lastMatch versionRegex (take n lines)
     /\ Description info = lastMatch descriptionRegex (take n lines)
     /\ (forall m, (m < n)%nat -> bothFound (take m lines) = false)
     /\ (bothFound (take n lines) = true \/ n = Nat.min 10 (length lines))).
  { subst info. unfold parseMigrationInfo. rewrite Hread. simpl fst.
    apply (headerLoop_scan lines []); try reflexivity.
    - simpl. lia.
    - intros m _. rewrite take_nil. reflexivity. }
  assert (Hnone : (forall line, In line (take 10 lines) ->
                     versionRegex line = None /\ descriptionRegex line = None) ->
                  Version info = [] /\ Description info = []).
  { intros Hnone. destruct Hscan as (n & Hn & _ & HV & HD & _).
    rewrite HV, HD. split; apply lastMatch_no_match; intros line Hin;
      apply (In_take line n 10) in Hin; try exact Hn; now apply Hnone. }
  split; [exact Hscan|]. split; [exact Hnone|]. split.
  - intros path' content' Hread' Hsame. subst info lines.
    unfold parseMigrationInfo. rewrite Hread, Hread'. cbn [fst].
    rewrite (headerLoop_take (fst (scanLines content'))),
            (headerLoop_take (fst (scanLines content))).
    replace (10 - 0)%nat with 10%nat by lia. rewrite Hsame.
    apply headerLoop_fields; reflexivity.
  - intros first rest -> Hno Hlong.
    assert (Hlines : lines = [])
      by (subst lines; now rewrite scanLines_too_long).
    split; [exact Hlines|]. apply Hnone. rewrite Hlines, take_nil.
    intros line [].
Qed.

(** The file with two version headers. *)
Lemma C3_headers_from_first_ten_lines_witness :
  let lines := fst (scanLines twoVersions) in
  let info := fst (@parseMigrationInfo (tableOS [(go "f.sql", twoVersions)])
                                       (go "f.sql")) in
  (exists n,
     (n <= 10)%nat /\ (n <= length lines)%nat
     /\ Version info = lastMatch versionRegex (take n lines)
     /\ Description info = lastMatch descriptionRegex (take n lines)
     /\ (forall m, (m < n)%nat -> bothFound (take m lines) = false)
     /\ (bothFound (take n lines) = true \/ n = Nat.min 10 (length lines)))
  /\ ((forall line, In line (take 10 lines) ->
         versionRegex line = None /\ descriptionRegex line = None) ->
      Version info = [] /\ Description info = [])
  /\ (forall path' content',
        @ReadFile (tableOS [(go "f.sql", twoVersions)]) path' = Some content' ->
        take 10 (fst (scanLines content')) = take 10 lines ->
        Version (fst (@parseMigrationInfo (tableOS [(go "f.sql", twoVersions)])
                                          path')) = Version info
        /\ Description (fst (@parseMigrationInfo
                                (tableOS [(go "f.sql", twoVersions)]) path'))
           = Description info)
  /\ (forall first rest,
        twoVersions = first ++ rest -> ~ In rLF first ->
        MaxScanTokenSize <= byteLen first ->
        lines = [] /\ Version info = [] /\ Description info = []).
Proof.
  apply (@C3_headers_from_first_ten_lines
           (tableOS [(go "f.sql", twoVersions)]) (go "f.sql") twoVersions).
  reflexivity.
Defined.

End ParserClaims.

(* ===================================================================== *)
(** * Facts about the index resolver                                      *)
(* ===================================================================== *)

Section ResolverClaims.
Context `{OS}.

(** The loop over the lines of a manifest appends what the lines
    contribute, when the recursive call appends what a nested manifest
    contributes. *)
Lemma scanManifest_splice
    (recurse : gostring -> list gostring -> list message ->
               list gostring * list message * option error)
    (nested : gostring -> option (list gostring))
    (dir : gostring) (debug : bool) :
  (forall p acc w files, nested p = Some files ->
     exists w', recurse p acc w = (acc ++ files, w', None)) ->
  forall lines acc w files,
    splice nested dir lines = Some files ->
    exists w', scanManifest recurse dir debug lines acc w
               = (acc ++ files, w', None).
Proof.
  intros Hrec lines. induction lines as [|text rest IH]; intros acc w files Hs.
  - simpl in Hs. injection Hs as <-. rewrite app_nil_r. simpl. eauto.
  - simpl in Hs. unfold classify in Hs. simpl scanManifest.
    destruct (isEmpty (TrimSpace text) || HasPrefix (TrimSpace text) (go "#")).
    { simpl in Hs. destruct (splice nested dir rest) as [after|] eqn:E;
        [|discriminate]. injection Hs as <-. now apply IH. }
    destruct (HasSuffix (TrimSpace text) (go ".lst")).
    { destruct (nested (JoinPath dir (TrimSpace text))) as [here|] eqn:En;
        [|discriminate]. simpl in Hs.
      destruct (splice nested dir rest) as [after|] eqn:E; [|discriminate].
      injection Hs as <-.
      destruct (Hrec _ acc w here En) as [w1 ->].
      destruct (IH (acc ++ here) w1 after eq_refl) as [w2 ->].
      rewrite <- app_assoc. eauto. }
    destruct (HasSuffix (TrimSpace text) (go ".sql")).
    { simpl in Hs. destruct (splice nested dir rest) as [after|] eqn:E;
        [|discriminate]. injection Hs as <-.
      destruct (IH (acc ++ [JoinPath dir (TrimSpace text)])
                   (if debug then w ++ [AddingSQL (TrimSpace text)] else w)
                   after eq_refl) as [w2 ->].
      rewrite <- app_assoc. eauto. }
    simpl in Hs. destruct (splice nested dir rest) as [after|] eqn:E;
      [|discriminate]. injection Hs as <-. now apply IH.
Qed.

Lemma scanManifest_spliced
    (recurse : gostring -> list gostring -> list message ->
               list gostring * list message * option error)
    (nested : gostring -> option (list gostring))
    (dir : gostring) (debug : bool) :
  (forall p acc w out w', recurse p acc w = (out, w', None) ->
     exists files, nested p = Some files /\ out = acc ++ files) ->
  forall lines acc w out w',
    scanManifest recurse dir debug lines acc w = (out, w', None) ->
    exists files, splice nested dir lines = Some files /\ out = acc ++ files.
Proof.
  intros Hrec lines. induction lines as [|text rest IH]; intros acc w out w' Hs.
  - simpl in Hs. injection Hs as <- <-. exists []. rewrite app_nil_r. auto.
  - simpl in Hs. simpl splice. unfold classify.
    destruct (isEmpty (TrimSpace text) || HasPrefix (TrimSpace text) (go "#")).
    { apply IH in Hs as (after & -> & ->). simpl. eauto. }
    destruct (HasSuffix (TrimSpace text) (go ".lst")).
    { destruct (recurse (JoinPath dir (TrimSpace text)) acc w)
        as [[acc1 w1] [err|]] eqn:Er; try discriminate.
      apply Hrec in Er as (here & -> & ->).
      apply IH in Hs as (after & -> & ->). simpl.
      exists (here ++ after). rewrite app_assoc. auto. }
    destruct (HasSuffix (TrimSpace text) (go ".sql")).
    { apply IH in Hs as (after & -> & ->). simpl.
      eexists. split; [reflexivity|]. rewrite <- app_assoc. reflexivity. }
    apply IH in Hs as (after & -> & ->). simpl. eauto.
Qed.

(** A manifest that lists a SQL file and then a nested manifest yields
    the file first and the files of the nested manifest after it, whatever
    the depth of the nesting below. *)
Lemma resolve_sql_then_nested (free : nat) (manifest content a n : gostring)
    (nestedFiles : list gostring) :
  ReadFile manifest = Some content ->
  scanLines content = ([a; n], false) ->
  classify (Dir manifest) a = SQLFile (JoinPath (Dir manifest) (TrimSpace a)) ->
  classify (Dir manifest) n
    = NestedManifest (JoinPath (Dir manifest) (TrimSpace n)) ->
  resolve free (JoinPath (Dir manifest) (TrimSpace n)) = Some nestedFiles ->
  resolve (S free) manifest
    = Some (JoinPath (Dir manifest) (TrimSpace a) :: nestedFiles).
Proof.
  intros Hread Hlines Ha Hn Hnested. simpl. rewrite Hread. simpl.
  rewrite Hlines. simpl. rewrite Ha, Hn. simpl. rewrite Hnested. simpl.
  rewrite app_nil_r. reflexivity.
Qed.

(** The two halves of the refinement. *)
Lemma processWithWriter_resolves (free : nat) (manifest : gostring)
    (sqlfiles : list gostring) (w : list message) (debug : bool)
    (files : list gostring) :
  resolve free manifest = Some files ->
  exists w', processWithWriter free manifest sqlfiles w debug
             = (sqlfiles ++ files, w', None).
Proof.
  revert manifest sqlfiles w files.
  induction free as [|free IH]; intros manifest sqlfiles w files Hres;
    [discriminate|].
  cbn [resolve] in Hres. cbn [processWithWriter].
  destruct (ReadFile manifest) as [content|]; [|discriminate]. simpl in Hres.
  destruct (scanLines content) as [lines tooLong]. cbn [fst snd] in Hres.
  destruct (splice (resolve free) (Dir manifest) lines) as [found|] eqn:Hs;
    [|discriminate]. simpl in Hres.
  destruct tooLong; [discriminate|]. injection Hres as <-.
  destruct (scanManifest_splice
              (fun p acc w0 => processWithWriter free p acc w0 debug)
              (resolve free) (Dir manifest) debug
              (fun p acc w0 fs Hp => IH p acc w0 fs Hp)
              lines sqlfiles (w ++ [ProcessingFile manifest (Dir manifest)])
              found Hs) as [w' ->].
  eauto.
Qed.

Lemma processWithWriter_resolved (free : nat) (manifest : gostring)
    (sqlfiles : list gostring) (w : list message) (debug : bool)
    (out : list gostring) (w' : list message) :
  processWithWriter free manifest sqlfiles w debug = (out, w', None) ->
  exists files, resolve free manifest = Some files /\ out = sqlfiles ++ files.
Proof.
  revert manifest sqlfiles w out w'.
  induction free as [|free IH]; intros manifest sqlfiles w out w' Hproc;
    [discriminate|].
  cbn [processWithWriter] in Hproc. cbn [resolve].
  destruct (ReadFile manifest) as [content|]; [|discriminate]. simpl.
  destruct (scanLines content) as [lines tooLong]. cbn [fst snd].
  destruct (scanManifest _ (Dir manifest) debug lines sqlfiles _)
    as [[acc1 w1] [err|]] eqn:Hs; [discriminate|].
  destruct tooLong; [discriminate|]. injection Hproc as <- <-.
  apply (scanManifest_spliced _ (resolve free)) in Hs as (files & -> & ->).
  - simpl. eauto.
  - intros p acc w0 o w2 Hp. now apply (IH p acc w0 o w2).
Qed.

(** C7: when the manifest tree can be read to the end (every manifest of
    it is opened and the line scanner comes to the end of each), whatever
    the slice held before, [processWithWriter] returns without error and
    has appended to it the files of the tree in document order, nested
    manifests expanded in place and every name joined to the directory of
    the manifest that lists it; and it returns without error only then. *)
Theorem C7_files_in_document_order (free : nat) (manifest : gostring)
    (sqlfiles : list gostring) (w : list message) (debug : bool) :
  (forall files, resolve free manifest = Some files ->
     exists w', processWithWriter free manifest sqlfiles w debug
                = (sqlfiles ++ files, w', None))
  /\ (forall out w',
        processWithWriter free manifest sqlfiles w debug = (out, w', None) ->
        exists files, resolve free manifest = Some files
                      /\ out = sqlfiles ++ files).
Proof.
  split.
  - intros files Hres. now apply processWithWriter_resolves.
  - intros out w' Hproc. now apply processWithWriter_resolved in Hproc.
Qed.

End ResolverClaims.

(** The example of the specification, in a subdirectory: [a.sql] comes
    before [b.sql], and [b.sql] is found next to the nested manifest. *)
Example resolve_nested_example :
  @processWithWriter (tableOS nestedFiles) 2 (go "sql/index.lst") [] [] false
  = ([go "sql/a.sql"; go "sql/more/b.sql"],
     [ProcessingFile (go "sql/index.lst") (go "sql");
      ProcessingFile (go "sql/more/index.lst") (go "sql/more")],
     None).
Proof. vm_compute. reflexivity. Qed.

(* ===================================================================== *)
(** * Facts about the driver                                              *)
(* ===================================================================== *)

Section DriverFacts.
Context `{OS} {B : Type} `{DatabaseExecutor B}.

Implicit Types w : world B.

Lemma split_all_trimmed (sql : gostring) :
  Forall trimmed (splitSQLStatements sql).
Proof.
  apply List.Forall_forall. intros stmt Hin. now apply split_trimmed in Hin.
Qed.

Lemma execute_effects (sql : gostring) w :
  let r := execute sql w in
  backend (fst r) = fst (Execute (backend w) sql)
  /\ snd r = BackendError <$> snd (Execute (backend w) sql)
  /\ issued (fst r) = issued w ++ [sql]
  /\ ledger (fst r) = ledger w
  /\ stdout (fst r) = stdout w
  /\ stderr (fst r) = stderr w.
Proof.
  unfold execute. destruct (Execute (backend w) sql) as [b err].
  simpl. repeat split.
Qed.

(** Executing statements touches neither the ledger nor the error stream. *)
Lemma executeStatements_ledger (stmts : list gostring) (i total : nat)
    (debug : bool) w :
  ledger (fst (executeStatements stmts i total debug w)) = ledger w
  /\ stderr (fst (executeStatements stmts i total debug w)) = stderr w.
Proof.
  revert i w. induction stmts as [|text rest IH]; intros i w; simpl; [auto|].
  destruct (isEmpty (TrimSpace text)); [apply IH|].
  set (w1 := if debug then say (ExecutingStatement (i + 1) total) w else w).
  assert (Hw1 : ledger w1 = ledger w /\ stderr w1 = stderr w)
    by (subst w1; destruct debug; simpl; auto).
  pose proof (execute_effects (TrimSpace text) w1) as (_ & _ & _ & Hl & _ & He).
  destruct (execute (TrimSpace text) w1) as [w2 err]. simpl in Hl, He.
  destruct Hw1 as [Hl1 He1].
  destruct err as [e|]; simpl.
  - split; congruence.
  - destruct (IH (S i) w2) as [-> ->]. split; congruence.
Qed.

(** Statements that all succeed are all issued, in order. *)
Lemma executeStatements_ok (stmts : list gostring) (i total : nat)
    (debug : bool) w (b' : B) :
  Forall trimmed stmts ->
  executedAll (backend w) stmts = Some b' ->
  let r := executeStatements stmts i total debug w in
  snd r = None /\ backend (fst r) = b' /\ issued (fst r) = issued w ++ stmts.
Proof.
  revert i w. induction stmts as [|stmt rest IH]; intros i w Htr Hall.
  - simpl in *. injection Hall as <-. rewrite app_nil_r. auto.
  - apply Forall_cons in Htr as [[Hfix Hne] Htr]. simpl in Hall.
    cbv zeta. simpl executeStatements. rewrite Hfix, Hne.
    set (w1 := if debug then say (ExecutingStatement (i + 1) total) w else w).
    assert (Hw1 : backend w1 = backend w /\ issued w1 = issued w)
      by (subst w1; destruct debug; simpl; auto).
    destruct Hw1 as [Hb1 Hi1].
    pose proof (execute_effects stmt w1) as (Hb & Herr & Hi & _).
    destruct (execute stmt w1) as [w2 err]. simpl in Hb, Herr, Hi.
    rewrite Hb1 in Hb, Herr.
    destruct (Execute (backend w) stmt) as [b1 [e|]]; [discriminate|].
    simpl in Hb, Herr. subst err.
    rewrite <- Hb in Hall.
    destruct (IH (S i) w2 Htr Hall) as (Hs & Hbk & His).
    repeat split; [exact Hs | exact Hbk |].
    rewrite His, Hi, Hi1, <- app_assoc. reflexivity.
Qed.

(** The first statement that fails ends the loop: it is the last one
    issued, and the error carries its index, counted from 1. *)
Lemma executeStatements_fail (pre post : list gostring) (stmt e : gostring)
    (i total : nat) (debug : bool) w (bk b' : B) :
  Forall trimmed pre -> trimmed stmt ->
  executedAll (backend w) pre = Some bk ->
  Execute bk stmt = (b', Some e) ->
  let r := executeStatements (pre ++ stmt :: post) i total debug w in
  snd r = Some (StatementFailed (i + length pre + 1) (BackendError e))
  /\ backend (fst r) = b'
  /\ issued (fst r) = issued w ++ pre ++ [stmt].
Proof.
  revert i w. induction pre as [|s pre IH]; intros i w Htr [Hfix Hne] Hall Hex.
  - simpl in Hall. injection Hall as <-. cbv zeta. simpl.
    rewrite Hfix, Hne.
    set (w1 := if debug then say (ExecutingStatement (i + 1) total) w else w).
    assert (Hw1 : backend w1 = backend w /\ issued w1 = issued w)
      by (subst w1; destruct debug; simpl; auto).
    destruct Hw1 as [Hb1 Hi1].
    pose proof (execute_effects stmt w1) as (Hb & Herr & Hi & _).
    destruct (execute stmt w1) as [w2 err]. simpl in Hb, Herr, Hi.
    rewrite Hb1, Hex in Hb, Herr. simpl in Hb, Herr. subst err. simpl.
    replace (i + 0 + 1)%nat with (i + 1)%nat by lia.
    repeat split; congruence.
  - apply Forall_cons in Htr as [[Hfixs Hnes] Htr]. simpl in Hall.
    cbv zeta. simpl. rewrite Hfixs, Hnes.
    set (w1 := if debug then say (ExecutingStatement (i + 1) total) w else w).
    assert (Hw1 : backend w1 = backend w /\ issued w1 = issued w)
      by (subst w1; destruct debug; simpl; auto).
    destruct Hw1 as [Hb1 Hi1].
    pose proof (execute_effects s w1) as (Hb & Herr & Hi & _).
    destruct (execute s w1) as [w2 err]. simpl in Hb, Herr, Hi.
    rewrite Hb1 in Hb, Herr.
    destruct (Execute (backend w) s) as [b1 [e1|]]; [discriminate|].
    simpl in Hb, Herr. subst err. rewrite <- Hb in Hall.
    destruct (IH (S i) w2 Htr (conj Hfix Hne) Hall Hex) as (Hs & Hbk & His).
    replace (i + S (length pre) + 1)%nat with (S i + length pre + 1)%nat by lia.
    repeat split; [exact Hs | exact Hbk |].
    rewrite His, Hi, Hi1, <- !app_assoc. reflexivity.
Qed.

Lemma executeSQLWithWriter_ledger (path : gostring) (debug : bool) w :
  ledger (fst (executeSQLWithWriter path debug w)) = ledger w
  /\ stderr (fst (executeSQLWithWriter path debug w)) = stderr w.
Proof.
  unfold executeSQLWithWriter.
  destruct (ReadFile path) as [sql|]; [|simpl; auto].
  pose proof (executeStatements_ledger (splitSQLStatements sql) 0
                (length (splitSQLStatements sql)) debug
                (say (ExecutingFile path) w)) as [Hl He].
  destruct (executeStatements _ _ _ _ _) as [w2 [e|]]; simpl in *; auto.
Qed.

(** [recordMigration] issues the insert and, when it succeeds, adds the
    row to the ledger; it looks at no row that is already there. *)
Lemma recordMigration_effects (info : MigrationInfo) w :
  let r := recordMigration info w in
  backend (fst r) = fst (Execute (backend w) (insertSQL info))
  /\ issued (fst r) = issued w ++ [insertSQL info]
  /\ stdout (fst r) = stdout w /\ stderr (fst r) = stderr w
  /\ ((snd r = None /\ ledger (fst r) = ledger w ++ [info])
      \/ (snd r <> None /\ ledger (fst r) = ledger w)).
Proof.
  unfold recordMigration.
  pose proof (execute_effects (insertSQL info) w) as (Hb & Herr & Hi & Hl & Ho & He).
  destruct (execute (insertSQL info) w) as [w' err]. simpl in *.
  destruct err as [e|]; cbn; (split; [exact Hb|]); (split; [exact Hi|]);
    (split; [exact Ho|]); (split; [exact He|]).
  - right. split; [discriminate | exact Hl].
  - left. split; [reflexivity | congruence].
Qed.

(** When all statements are accepted, all have been passed. *)
Lemma sendAll_accepted (b : B) (stmts : list gostring) :
  snd (sendAll b stmts) = true -> snd (fst (sendAll b stmts)) = stmts.
Proof.
  revert b. induction stmts as [|stmt rest IH]; intros b; [reflexivity|].
  cbn [sendAll]. destruct (Execute b stmt) as [b' [e|]]; [discriminate|].
  specialize (IH b'). destruct (sendAll b' rest) as [[b'' sent] accepted].
  cbn [fst snd] in *. intros Hacc. now rewrite IH.
Qed.

Lemma sendAll_executedAll (b : B) (stmts : list gostring) :
  executedAll b stmts
  = if snd (sendAll b stmts) then Some (fst (fst (sendAll b stmts))) else None.
Proof.
  revert b. induction stmts as [|stmt rest IH]; intros b; [reflexivity|].
  cbn [sendAll executedAll]. destruct (Execute b stmt) as [b' [e|]];
    [reflexivity|].
  rewrite IH. destruct (sendAll b' rest) as [[b'' sent] accepted]. reflexivity.
Qed.

(** The statement loop passes the statements to the executor one after
    the other until one is rejected. *)
Lemma executeStatements_sendAll (stmts : list gostring) (i total : nat)
    (debug : bool) w :
  Forall trimmed stmts ->
  let r := executeStatements stmts i total debug w in
  let sent := sendAll (backend w) stmts in
  backend (fst r) = fst (fst sent)
  /\ issued (fst r) = issued w ++ snd (fst sent)
  /\ (snd r = None <-> snd sent = true).
Proof.
  revert i w. induction stmts as [|stmt rest IH]; intros i w Htr.
  - simpl. rewrite app_nil_r. repeat split.
  - apply Forall_cons in Htr as [[Hfix Hne] Htr].
    cbv zeta. cbn [executeStatements sendAll]. rewrite Hfix, Hne.
    set (w1 := if debug then say (ExecutingStatement (i + 1) total) w else w).
    assert (Hw1 : backend w1 = backend w /\ issued w1 = issued w)
      by (subst w1; destruct debug; simpl; auto).
    destruct Hw1 as [Hb1 Hi1].
    pose proof (execute_effects stmt w1) as (Hb & Herr & Hi & _).
    destruct (execute stmt w1) as [w2 err]. simpl in Hb, Herr, Hi.
    rewrite Hb1 in Hb, Herr.
    destruct (Execute (backend w) stmt) as [b1 [e|]]; simpl in Hb, Herr;
      subst err.
    + cbn [fst snd]. rewrite Hi, Hi1.
      split; [exact Hb|]. split; [reflexivity|]. split; discriminate.
    + destruct (IH (S i) w2 Htr) as (Hbk & His & Hok). rewrite Hb in Hbk, Hok, His.
      destruct (sendAll b1 rest) as [[b'' sent] accepted]. cbn [fst snd] in *.
      split; [exact Hbk|]. split; [|exact Hok].
      rewrite His, Hi, Hi1, <- app_assoc. reflexivity.
Qed.

(** [executeSQLWithWriter] on a file that can be read passes the
    statements of the splitter to the executor, and nothing else. *)
Lemma executeSQLWithWriter_sendAll (path content : gostring) (debug : bool) w :
  ReadFile path = Some content ->
  let r := executeSQLWithWriter path debug w in
  let sent := sendAll (backend w) (splitSQLStatements content) in
  backend (fst r) = fst (fst sent)
  /\ issued (fst r) = issued w ++ snd (fst sent)
  /\ (snd r = None <-> snd sent = true).
Proof.
  intros Hread. cbv zeta. unfold executeSQLWithWriter. rewrite Hread.
  pose proof (executeStatements_sendAll (splitSQLStatements content) 0
                (length (splitSQLStatements content)) debug
                (say (ExecutingFile path) w) (split_all_trimmed content))
    as (Hb & Hi & Hok).
  cbv zeta in Hb, Hi, Hok. cbn [say backend issued] in Hb, Hi, Hok.
  destruct (executeStatements _ _ _ debug _) as [w2 [e|]]; cbn [fst snd] in *;
    auto.
Qed.


(** The loop over a list of files that is cut in two. *)
Lemma migrateFiles_app (cfg : RunConfig) (applied : gmap (list Z) (list Z))
    (before rest : list gostring) (nA nS : nat) w :
  migrateFiles cfg applied (before ++ rest) nA nS w =
  match migrateFiles cfg applied before nA nS w with
  | (w0, Some (a, s)) => migrateFiles cfg applied rest a s w0
  | (w0, None) => (w0, None)
  end.
Proof.
  revert nA nS w. induction before as [|f before IH]; intros nA nS w; simpl.
  - reflexivity.
  - destruct (migrateFile cfg applied f w) as [w' []]; auto.
Qed.

End DriverFacts.

Section DriverClaims.
Context `{OS} {B : Type} `{DatabaseExecutor B}.

Implicit Types w : world B.

Lemma afterParse_effects (sqlFile : gostring) w :
  sameEffects w (afterParse sqlFile w)
  /\ stderr (afterParse sqlFile w) = stderr w.
Proof.
  unfold afterParse, sameEffects.
  destruct (snd (parseMigrationInfo sqlFile)); simpl; auto.
Qed.

(** What the loop body does once it has decided to apply the file. *)
Lemma applyMigration_cases (cfg : RunConfig) (sqlFile : gostring)
    (info : MigrationInfo) w :
  let ran := executeSQLWithWriter sqlFile (Debug cfg) w in
  let r := applyMigration cfg sqlFile info w in
  match snd ran with
  | Some e => r = (complain (ErrExecuting sqlFile e) (fst ran), Aborted)
  | None =>
      snd r = Applied
      /\ stderr (fst r) = stderr w
      /\ if isEmpty (Version info) then fst r = fst ran
         else
           backend (fst r) = fst (Execute (backend (fst ran)) (insertSQL info))
           /\ issued (fst r) = issued (fst ran) ++ [insertSQL info]
           /\ ledger (fst r) =
              match snd (Execute (backend (fst ran)) (insertSQL info)) with
              | None => ledger w ++ [info]
              | Some _ => ledger w
              end
  end.
Proof.
  cbv zeta. unfold applyMigration.
  pose proof (executeSQLWithWriter_ledger sqlFile (Debug cfg) w) as [Hl He].
  destruct (executeSQLWithWriter sqlFile (Debug cfg) w) as [w1 [e|]];
    simpl in *; [reflexivity|].
  destruct (isEmpty (Version info)); simpl; [auto|].
  pose proof (execute_effects (insertSQL info) w1)
    as (Hb & Herr & Hi & Hl2 & _ & He2).
  unfold recordMigration.
  destruct (execute (insertSQL info) w1) as [w2 err]. simpl in Hb, Herr, Hi, Hl2, He2.
  destruct (Execute (backend w1) (insertSQL info)) as [b2 [e2|]];
    simpl in Herr, Hb; subst err; simpl;
    repeat split; auto; congruence.
Qed.

(** The loop body follows the state machine of the specification. *)
Lemma migrateFile_decision (cfg : RunConfig) (applied : gmap (list Z) (list Z))
    (sqlFile : gostring) w :
  let info := fst (parseMigrationInfo sqlFile) in
  let r := migrateFile cfg applied sqlFile w in
  match decideFile (Force cfg) info applied with
  | Skip => snd r = Skipped /\ sameEffects w (fst r) /\ stderr (fst r) = stderr w
  | Reject => snd r = Aborted /\ sameEffects w (fst r)
  | AlwaysApply | Apply =>
      r = applyMigration cfg sqlFile info (afterParse sqlFile w)
  end.
Proof.
  cbv zeta. unfold migrateFile, decideFile, afterParse.
  destruct (parseMigrationInfo sqlFile) as [info err]. simpl fst. simpl snd.
  set (w1 := match err with
             | Some e => say (WarnParse sqlFile e) w
             | None => w
             end).
  assert (Hw1 : sameEffects w w1 /\ stderr w1 = stderr w)
    by (subst w1; unfold sameEffects; destruct err; simpl; auto).
  destruct Hw1 as [(Hb & Hi & Hl) He].
  destruct (isEmpty (Version info)), (Force cfg); simpl; try reflexivity.
  destruct (applied !! Version info) as [existing|]; [|reflexivity].
  destruct (eqString existing (Checksum info)); unfold sameEffects.
  - destruct (Debug cfg); simpl; auto.
  - simpl. auto.
Qed.

(** A file that is read and whose statement [k] is the first to fail. *)
Lemma executeSQLWithWriter_fail (path content stmt e : gostring) (k : nat)
    (debug : bool) w (bk b' : B) :
  ReadFile path = Some content ->
  splitSQLStatements content !! k = Some stmt ->
  executedAll (backend w) (take k (splitSQLStatements content)) = Some bk ->
  Execute bk stmt = (b', Some e) ->
  let r := executeSQLWithWriter path debug w in
  snd r = Some (StatementFailed (S k) (BackendError e))
  /\ backend (fst r) = b'
  /\ issued (fst r) = issued w ++ take (S k) (splitSQLStatements content).
Proof.
  intros Hread Hk Hall Hex. cbv zeta. unfold executeSQLWithWriter.
  rewrite Hread.
  pose proof (split_all_trimmed content) as Htr.
  set (stmts := splitSQLStatements content) in *.
  pose proof (take_drop_middle stmts k stmt Hk) as Hmid.
  assert (Hlen : length (take k stmts) = k).
  { rewrite length_take. apply lookup_lt_Some in Hk. lia. }
  assert (Hpre : Forall trimmed (take k stmts)) by now apply Forall_take.
  assert (Hst : trimmed stmt).
  { rewrite List.Forall_forall in Htr. apply Htr.
    apply list_elem_of_In. now apply list_elem_of_lookup_2 in Hk. }
  pose proof (executeStatements_fail (take k stmts) (drop (S k) stmts) stmt e
                0 (length stmts) debug (say (ExecutingFile path) w) bk b'
                Hpre Hst Hall Hex) as (Hs & Hb & Hi).
  rewrite Hmid in Hs, Hb, Hi. rewrite Hlen in Hs.
  destruct (executeStatements stmts 0 (length stmts) debug
              (say (ExecutingFile path) w)) as [w2 err].
  simpl in Hs, Hb, Hi. subst err. simpl.
  split; [f_equal; f_equal; lia|]. split; [exact Hb|].
  rewrite Hi. rewrite (take_S_r stmts k stmt Hk). reflexivity.
Qed.


(** What applying a file that can be read does to the executor and to
    the ledger. *)
Lemma applyMigration_sent (cfg : RunConfig) (sqlFile content : gostring)
    (info : MigrationInfo) w :
  ReadFile sqlFile = Some content ->
  let sent := sendAll (backend w) (splitSQLStatements content) in
  let r := applyMigration cfg sqlFile info w in
  if snd sent then
    snd r = Applied
    /\ if isEmpty (Version info)
       then backend (fst r) = fst (fst sent)
            /\ issued (fst r) = issued w ++ splitSQLStatements content
            /\ ledger (fst r) = ledger w
       else backend (fst r) = fst (Execute (fst (fst sent)) (insertSQL info))
            /\ issued (fst r)
               = issued w ++ splitSQLStatements content ++ [insertSQL info]
            /\ ledger (fst r)
               = match snd (Execute (fst (fst sent)) (insertSQL info)) with
                 | None => ledger w ++ [info]
                 | Some _ => ledger w
                 end
  else
    snd r = Aborted
    /\ backend (fst r) = fst (fst sent)
    /\ issued (fst r) = issued w ++ snd (fst sent)
    /\ ledger (fst r) = ledger w.
Proof.
  intros Hread. cbv zeta.
  pose proof (applyMigration_cases cfg sqlFile info w) as Happ.
  pose proof (executeSQLWithWriter_sendAll sqlFile content (Debug cfg) w Hread)
    as (Hb & Hi & Hok).
  pose proof (executeSQLWithWriter_ledger sqlFile (Debug cfg) w) as [Hl _].
  pose proof (sendAll_accepted (backend w) (splitSQLStatements content)) as Hall.
  cbv zeta in Happ, Hb, Hi, Hok.
  destruct (snd (executeSQLWithWriter sqlFile (Debug cfg) w)) as [e|] eqn:Herr.
  - destruct (snd (sendAll (backend w) (splitSQLStatements content))) eqn:Hs.
    { destruct Hok as [_ Hok]. discriminate (Hok eq_refl). }
    rewrite Happ. simpl. repeat split; congruence.
  - destruct Hok as [Hok _]. rewrite (Hok eq_refl) in *.
    rewrite Hall in Hi by reflexivity.
    destruct Happ as (Hs & _ & Hcase). split; [exact Hs|].
    destruct (isEmpty (Version info)).
    + rewrite Hcase. auto.
    + destruct Hcase as (Hb2 & Hi2 & Hl2). rewrite Hb in Hb2, Hl2.
      rewrite Hi, <- app_assoc in Hi2. auto.
Qed.

Lemma applyMigration_afterParse (cfg : RunConfig) (sqlFile content : gostring) w :
  ReadFile sqlFile = Some content ->
  let info := fst (parseMigrationInfo sqlFile) in
  let sent := sendAll (backend w) (splitSQLStatements content) in
  let r := applyMigration cfg sqlFile info (afterParse sqlFile w) in
  if snd sent then
    snd r = Applied
    /\ if isEmpty (Version info)
       then backend (fst r) = fst (fst sent)
            /\ issued (fst r) = issued w ++ splitSQLStatements content
            /\ ledger (fst r) = ledger w
       else backend (fst r) = fst (Execute (fst (fst sent)) (insertSQL info))
            /\ issued (fst r)
               = issued w ++ splitSQLStatements content ++ [insertSQL info]
            /\ ledger (fst r)
               = match snd (Execute (fst (fst sent)) (insertSQL info)) with
                 | None => ledger w ++ [info]
                 | Some _ => ledger w
                 end
  else
    snd r = Aborted
    /\ backend (fst r) = fst (fst sent)
    /\ issued (fst r) = issued w ++ snd (fst sent)
    /\ ledger (fst r) = ledger w.
Proof.
  intros Hread.
  destruct (afterParse_effects sqlFile w) as [(Hbp & Hip & Hlp) _].
  pose proof (applyMigration_sent cfg sqlFile content
                (fst (parseMigrationInfo sqlFile)) (afterParse sqlFile w) Hread)
    as Hsent.
  cbv zeta in Hsent |- *. rewrite Hbp, Hip, Hlp in Hsent. exact Hsent.
Qed.


(** The file loop at the first statement that fails. *)
Lemma migrateFiles_statement_failure (cfg : RunConfig)
    (appliedMigrations : gmap (list Z) (list Z))
    (before rest : list gostring) (sqlFile content stmt e : gostring)
    (nA nS nA' nS' k : nat) w (w0 : world B) (bk b' : B) :
  migrateFiles cfg appliedMigrations before nA nS w = (w0, Some (nA', nS')) ->
  ReadFile sqlFile = Some content ->
  decideFile (Force cfg) (fst (parseMigrationInfo sqlFile)) appliedMigrations = Apply
  \/ decideFile (Force cfg) (fst (parseMigrationInfo sqlFile)) appliedMigrations
     = AlwaysApply ->
  splitSQLStatements content !! k = Some stmt ->
  executedAll (backend w0) (take k (splitSQLStatements content)) = Some bk ->
  Execute bk stmt = (b', Some e) ->
  let r := migrateFiles cfg appliedMigrations (before ++ sqlFile :: rest) nA nS w in
  snd r = None
  /\ stderr (fst r) =
     stderr w0 ++ [ErrExecuting sqlFile (StatementFailed (S k) (BackendError e))]
  /\ issued (fst r) = issued w0 ++ take (S k) (splitSQLStatements content)
  /\ backend (fst r) = b'
  /\ ledger (fst r) = ledger w0.
Proof.
  intros Hbefore Hread Hdec Hk Hall Hex. cbv zeta.
  rewrite migrateFiles_app, Hbefore. simpl migrateFiles.
  pose proof (migrateFile_decision cfg appliedMigrations sqlFile w0) as Hm.
  cbv zeta in Hm.
  assert (Hparse : afterParse sqlFile w0 = w0).
  { unfold afterParse, parseMigrationInfo. rewrite Hread. reflexivity. }
  assert (Hm' : migrateFile cfg appliedMigrations sqlFile w0
                = applyMigration cfg sqlFile (fst (parseMigrationInfo sqlFile)) w0).
  { destruct Hdec as [Hd | Hd]; rewrite Hd, Hparse in Hm; exact Hm. }
  rewrite Hm'.
  pose proof (applyMigration_cases cfg sqlFile (fst (parseMigrationInfo sqlFile)) w0)
    as Happ. cbv zeta in Happ.
  pose proof (executeSQLWithWriter_fail sqlFile content stmt e k (Debug cfg) w0
                bk b' Hread Hk Hall Hex) as (Hs & Hb & Hi).
  pose proof (executeSQLWithWriter_ledger sqlFile (Debug cfg) w0) as [Hl He].
  rewrite Hs in Happ. rewrite Happ. simpl.
  repeat split; congruence.
Qed.

(** C4: when the manifest resolves to the files [before], [sqlFile] and
    [rest], the files before [sqlFile] have gone through, [sqlFile] is
    applied and its statement [k] (counted from 0) is the first that the
    executor rejects, the run ends at once with status 1: the error
    written names statement [k + 1]; the statements issued are those
    before and the rejected one, none after it and none of a later file;
    the executor is left as the rejected statement left it; no row is
    recorded. *)
Theorem C4_statement_failure_aborts (free : nat) (cfg : RunConfig)
    (appliedMigrations : gmap (list Z) (list Z))
    (before rest : list gostring) (sqlFile content stmt e : gostring)
    (nA' nS' k : nat) w (w0 : world B) (bk b' : B) (out : list message) :
  processWithWriter free (Path cfg) [] (stdout w) (Debug cfg)
  = (before ++ sqlFile :: rest, out, None) ->
  migrateFiles cfg appliedMigrations before 0 0
    (World (backend w) (issued w) (ledger w) out (stderr w))
  = (w0, Some (nA', nS')) ->
  ReadFile sqlFile = Some content ->
  decideFile (Force cfg) (fst (parseMigrationInfo sqlFile)) appliedMigrations = Apply
  \/ decideFile (Force cfg) (fst (parseMigrationInfo sqlFile)) appliedMigrations
     = AlwaysApply ->
  splitSQLStatements content !! k = Some stmt ->
  executedAll (backend w0) (take k (splitSQLStatements content)) = Some bk ->
  Execute bk stmt = (b', Some e) ->
  exists w',
    resolveAndMigrate free cfg appliedMigrations w = (w', 1)
    /\ stderr w' =
       stderr w0 ++ [ErrExecuting sqlFile (StatementFailed (S k) (BackendError e))]
    /\ issued w' = issued w0 ++ take (S k) (splitSQLStatements content)
    /\ backend w' = b'
    /\ ledger w' = ledger w0.
Proof.
  intros Hres Hbefore Hread Hdec Hk Hall Hex.
  pose proof (migrateFiles_statement_failure cfg appliedMigrations before rest
                sqlFile content stmt e 0 0 nA' nS' k _ w0 bk b'
                Hbefore Hread Hdec Hk Hall Hex) as Hloop.
  cbv zeta in Hloop. unfold resolveAndMigrate. rewrite Hres.
  destruct (migrateFiles cfg appliedMigrations (before ++ sqlFile :: rest) 0 0 _)
    as [w' res].
  simpl in Hloop. destruct Hloop as (-> & Hrest). eauto.
Qed.

End DriverClaims.

Section LedgerClaims.
Context `{OS} {B : Type} `{DatabaseExecutor B}.

Implicit Types w : world B.

(** Without the force flag the loop body leaves the ledger alone or adds
    the row of a file whose version the loaded mapping does not hold. *)
Lemma migrateFile_ledger (cfg : RunConfig) (applied : gmap (list Z) (list Z))
    (sqlFile : gostring) w :
  Force cfg = false ->
  let info := fst (parseMigrationInfo sqlFile) in
  let r := migrateFile cfg applied sqlFile w in
  ledger (fst r) = ledger w
  \/ (ledger (fst r) = ledger w ++ [info]
      /\ isEmpty (Version info) = false
      /\ applied !! Version info = None).
Proof.
  intros Hforce. cbv zeta.
  pose proof (migrateFile_decision cfg applied sqlFile w) as Hdec.
  pose proof (applyMigration_cases cfg sqlFile (fst (parseMigrationInfo sqlFile))
                (afterParse sqlFile w)) as Happ.
  pose proof (executeSQLWithWriter_ledger sqlFile (Debug cfg)
                (afterParse sqlFile w)) as [Hl _].
  destruct (afterParse_effects sqlFile w) as [(_ & _ & Hlp) _].
  cbv zeta in Hdec, Happ. unfold decideFile in Hdec. rewrite Hforce in Hdec.
  destruct (isEmpty (Version (fst (parseMigrationInfo sqlFile)))) eqn:Ev.
  - left. rewrite Hdec.
    destruct (snd (executeSQLWithWriter _ _ _)) as [e|].
    + rewrite Happ. simpl. congruence.
    + destruct Happ as (_ & _ & ->). congruence.
  - destruct (applied !! Version (fst (parseMigrationInfo sqlFile)))
      as [existing|] eqn:Ea.
    + left.
      destruct (eqString existing (Checksum (fst (parseMigrationInfo sqlFile))));
        [destruct Hdec as (_ & (_ & _ & Hled) & _)
        | destruct Hdec as (_ & (_ & _ & Hled))]; exact Hled.
    + rewrite Hdec.
      destruct (snd (executeSQLWithWriter _ _ _)) as [e|].
      * left. rewrite Happ. simpl. congruence.
      * destruct Happ as (_ & _ & _ & _ & Hled). rewrite Hlp in Hled.
        destruct (snd (Execute _ _)); [left | right]; auto.
Qed.

Lemma versionsOf_cons (sqlFile : gostring) (rest : list gostring) :
  versionsOf (sqlFile :: rest) =
  (if isEmpty (Version (fst (parseMigrationInfo sqlFile))) then []
   else [Version (fst (parseMigrationInfo sqlFile))]) ++ versionsOf rest.
Proof.
  unfold versionsOf. simpl.
  destruct (isEmpty (Version (fst (parseMigrationInfo sqlFile)))); reflexivity.
Qed.

(** The invariant of the file loop: the versions of the ledger are
    distinct, and each is in the loaded mapping or is the version of none
    of the files still to come. *)
Lemma migrateFiles_distinct (cfg : RunConfig) (applied : gmap (list Z) (list Z))
    (sqlfiles : list gostring) (nA nS : nat) w :
  Force cfg = false ->
  List.NoDup (map Version (ledger w)) ->
  (forall row, In row (ledger w) ->
     is_Some (applied !! Version row) \/ ~ In (Version row) (versionsOf sqlfiles)) ->
  List.NoDup (versionsOf sqlfiles) ->
  List.NoDup (map Version (ledger (fst (migrateFiles cfg applied sqlfiles nA nS w)))).
Proof.
  intros Hforce. revert nA nS w.
  induction sqlfiles as [|f rest IH]; intros nA nS w Hnd Hcov Hfiles;
    [exact Hnd|].
  simpl migrateFiles.
  pose proof (migrateFile_ledger cfg applied f w Hforce) as Hstep.
  cbv zeta in Hstep. rewrite versionsOf_cons in Hcov, Hfiles.
  assert (Hrest : List.NoDup (versionsOf rest)).
  { destruct (isEmpty (Version (fst (parseMigrationInfo f)))); simpl in Hfiles;
      [exact Hfiles | now apply List.NoDup_cons_iff in Hfiles]. }
  assert (Hnext :
    List.NoDup (map Version (ledger (fst (migrateFile cfg applied f w))))
    /\ forall row, In row (ledger (fst (migrateFile cfg applied f w))) ->
         is_Some (applied !! Version row) \/ ~ In (Version row) (versionsOf rest)).
  { destruct Hstep as [-> | (-> & Hne & Hnew)].
    - split; [exact Hnd|]. intros row Hin.
      destruct (Hcov row Hin) as [Hs | Hn]; [now left | right].
      intros Hv. apply Hn. apply in_app_iff. now right.
    - rewrite Hne in Hcov, Hfiles. simpl in Hcov, Hfiles.
      apply List.NoDup_cons_iff in Hfiles as [Hfresh _].
      split.
      + rewrite map_app. simpl.
        apply List.NoDup_app;
          [exact Hnd | constructor; [intros [] | constructor] |].
        intros v Hv [<- | []].
        apply in_map_iff in Hv as (row & Hrow & Hin).
        destruct (Hcov row Hin) as [[c Hc] | Hn].
        * rewrite Hrow in Hc. congruence.
        * apply Hn. left. symmetry. exact Hrow.
      + intros row Hin. apply in_app_iff in Hin as [Hin | [<- | []]].
        * destruct (Hcov row Hin) as [Hs | Hn]; [now left | right].
          intros Hv. apply Hn. now right.
        * now right. }
  destruct Hnext as [Hnd' Hcov'].
  destruct (migrateFile cfg applied f w) as [w' []]; simpl in *; auto.
Qed.

(** Under the force flag a versioned file whose statements and whose
    insert are accepted gets its row added to the ledger, whatever the
    ledger and the loaded mapping hold. *)
Lemma migrateFile_forced_row (cfg : RunConfig) (applied : gmap (list Z) (list Z))
    (sqlFile content : gostring) w :
  Force cfg = true ->
  ReadFile sqlFile = Some content ->
  Version (fst (parseMigrationInfo sqlFile)) <> [] ->
  snd (sendAll (backend w) (splitSQLStatements content)) = true ->
  snd (Execute (fst (fst (sendAll (backend w) (splitSQLStatements content))))
         (insertSQL (fst (parseMigrationInfo sqlFile)))) = None ->
  ledger (fst (migrateFile cfg applied sqlFile w))
  = ledger w ++ [fst (parseMigrationInfo sqlFile)].
Proof.
  intros Hforce Hread Hne Hacc Hins.
  pose proof (migrateFile_decision cfg applied sqlFile w) as Hdec.
  pose proof (applyMigration_afterParse cfg sqlFile content w Hread) as Happ.
  cbv zeta in Hdec, Happ. unfold decideFile in Hdec.
  apply isEmpty_false in Hne. rewrite Hforce, Hne in Hdec.
  rewrite Hacc, Hne, Hins in Happ. rewrite Hdec.
  now destruct Happ as (_ & _ & _ & Hl).
Qed.

Lemma repeated_version_not_distinct (rows : list MigrationInfo)
    (info : MigrationInfo) :
  In (Version info) (map Version rows) ->
  ~ List.NoDup (map Version (rows ++ [info])).
Proof.
  intros Hin Hnd. rewrite map_app in Hnd. cbn [map] in Hnd.
  apply in_split in Hin as (l1 & l2 & Heq). rewrite Heq, <- app_assoc in Hnd.
  cbn [app] in Hnd. apply List.NoDup_remove_2 in Hnd. apply Hnd.
  apply in_app_iff. right. apply in_app_iff. right. now left.
Qed.

(** C5, amended: without the force flag, when the versions of the ledger
    are distinct and all held by the loaded mapping, and no two files of
    the run carry the same version, the versions of the ledger are
    distinct after the loop; a successful [recordMigration] adds its row
    to whatever rows are there; and under the force flag a versioned
    file that is executed and recorded gets a row more, so that a file
    whose version the ledger holds leaves two rows of that version. *)
Theorem C5_one_row_per_version_without_force (cfg : RunConfig)
    (appliedMigrations : gmap (list Z) (list Z)) (sqlfiles : list gostring)
    (nA nS : nat) w :
  Force cfg = false ->
  List.NoDup (map Version (ledger w)) ->
  (forall row, In row (ledger w) -> is_Some (appliedMigrations !! Version row)) ->
  List.NoDup (versionsOf sqlfiles) ->
  List.NoDup (map Version
                (ledger (fst (migrateFiles cfg appliedMigrations sqlfiles nA nS w))))
  /\ (forall info w',
        snd (recordMigration info w') = None ->
        ledger (fst (recordMigration info w')) = ledger w' ++ [info])
  /\ (forall (forced : RunConfig) (loaded : gmap (list Z) (list Z))
             (sqlFile content : gostring) (w0 : world B),
        Force forced = true ->
        ReadFile sqlFile = Some content ->
        Version (fst (parseMigrationInfo sqlFile)) <> [] ->
        snd (sendAll (backend w0) (splitSQLStatements content)) = true ->
        snd (Execute
               (fst (fst (sendAll (backend w0) (splitSQLStatements content))))
               (insertSQL (fst (parseMigrationInfo sqlFile)))) = None ->
        ledger (fst (migrateFile forced loaded sqlFile w0))
        = ledger w0 ++ [fst (parseMigrationInfo sqlFile)]
        /\ (In (Version (fst (parseMigrationInfo sqlFile)))
               (map Version (ledger w0)) ->
            ~ List.NoDup
                (map Version (ledger (fst (migrateFile forced loaded sqlFile w0)))))).
Proof.
  intros Hforce Hnd Hcov Hfiles. split; [|split].
  - apply migrateFiles_distinct; auto.
  - intros info w' Hok.
    destruct (recordMigration_effects info w') as (_ & _ & _ & _ & [[_ Hl] | [Hne _]]);
      [exact Hl | contradiction].
  - intros forced loaded sqlFile content w0 Hf Hread Hne Hacc Hins.
    pose proof (migrateFile_forced_row forced loaded sqlFile content w0
                  Hf Hread Hne Hacc Hins) as Hrow.
    split; [exact Hrow|]. intros Hin. rewrite Hrow.
    now apply repeated_version_not_distinct.
Qed.

(** C6: when the query for the applied migrations fails, [run] goes on
    with the empty mapping, as a run does whose query returns no row, and
    under the empty mapping every file is applied; the failure is written
    to the output when the debug flag is set, and only then. *)
Theorem C6_query_failure_falls_back (free : nat) (cfg : RunConfig) w (b : B)
    (rows : list (gmap (list Z) value)) (e : gostring) :
  Query (backend w) (go "SELECT version, checksum FROM schema_versions")
  = (b, rows, Some e) ->
  let w1 := World b (issued w) (ledger w) (stdout w) (stderr w) in
  run free cfg w =
  resolveAndMigrate free cfg ∅
    (if Debug cfg then say (NoteCouldNotQuery (BackendError e)) w1 else w1)
  /\ (forall w2,
        Query (backend w2) (go "SELECT version, checksum FROM schema_versions")
        = (b, [], None) ->
        issued w2 = issued w -> ledger w2 = ledger w ->
        stdout w2 = stdout w -> stderr w2 = stderr w ->
        run free cfg w2 = resolveAndMigrate free cfg ∅ w1)
  /\ (forall info,
        decideFile (Force cfg) info ∅ = Apply
        \/ decideFile (Force cfg) info ∅ = AlwaysApply).
Proof.
  intros Hq. cbv zeta. split; [|split].
  - unfold run, getAppliedMigrations. rewrite Hq. reflexivity.
  - intros w2 Hq2 Hi Hl Ho He. unfold run, getAppliedMigrations.
    rewrite Hq2, Hi, Hl, Ho, He. reflexivity.
  - intros info. unfold decideFile.
    destruct (isEmpty (Version info)); [now right|].
    destruct (Force cfg); [now left|]. rewrite lookup_empty. now left.
Qed.

End LedgerClaims.

(* ===================================================================== *)
(** * The claims on the examples                                          *)
(* ===================================================================== *)

(** The picky executor rejects the second of the three statements of
    [m.sql]; [n.sql] is never reached. *)
Lemma C4_statement_failure_aborts_witness :
  exists w',
    @resolveAndMigrate (tableOS badFiles) _ pickyExecutor 1 plainRun ∅ freshLog
    = (w', 1)
    /\ stderr w' =
       stderr freshLog
       ++ [ErrExecuting (go "m.sql")
             (StatementFailed 2 (BackendError (go "syntax error")))]
    /\ issued w' =
       issued freshLog
       ++ take 2 (splitSQLStatements
                    (go "-- version: 1.0.0" ++ nl
                     ++ go "-- description: three statements" ++ nl
                     ++ go "SELECT 1; BAD; SELECT 3;" ++ nl))
    /\ backend w' =
       [go "-- version: 1.0.0" ++ nl ++ go "-- description: three statements"
        ++ nl ++ go "SELECT 1"]
    /\ ledger w' = ledger freshLog.
Proof.
  apply (@C4_statement_failure_aborts (tableOS badFiles) _ pickyExecutor
           1 plainRun ∅ [] [go "n.sql"] (go "m.sql") _ (go "BAD")
           (go "syntax error") 0 0 1 freshLog
           (World [] [] [] [ProcessingFile (go "index.lst") (go ".")] [])
           [go "-- version: 1.0.0" ++ nl ++ go "-- description: three statements"
            ++ nl ++ go "SELECT 1"]
           _ [ProcessingFile (go "index.lst") (go ".")]).
  - vm_compute. reflexivity.
  - reflexivity.
  - reflexivity.
  - left. vm_compute. reflexivity.
  - vm_compute. reflexivity.
  - vm_compute. reflexivity.
  - vm_compute. reflexivity.
Defined.

(** C5, the claim as it is worded, fails: a first run records the row of
    the migration; a second run under the force flag, with that row
    reported by the executor, executes the file again and records a
    second row for the same version. *)
Lemma C5_force_duplicates_row :
  (exists w1, @run (tableOS oneFile) _ mockExecutorWithRows 2 plainRun beforeFirstRun
              = (w1, 0)
              /\ ledger w1 = ledger afterFirstRun)
  /\ List.NoDup (map Version (ledger afterFirstRun))
  /\ exists w2, @run (tableOS oneFile) _ mockExecutorWithRows 2 forcedRun afterFirstRun
                = (w2, 0)
                /\ map Version (ledger w2) = [go "1.0.0"; go "1.0.0"]
                /\ ~ List.NoDup (map Version (ledger w2)).
Proof.
  split; [|split].
  - eexists. split; [vm_compute; reflexivity|]. vm_compute. reflexivity.
  - vm_compute. constructor; [intros []|constructor].
  - eexists. split; [vm_compute; reflexivity|].
    split; [vm_compute; reflexivity|].
    intros Hnd. vm_compute in Hnd.
    apply List.NoDup_cons_iff in Hnd as [Hnotin _]. apply Hnotin. now left.
Qed.

(** A later run without the force flag: the ledger holds the row of
    [m.sql], the mapping its version; the manifest lists [m.sql], which
    is skipped, and [n.sql], whose row is added. *)
Lemma C5_one_row_per_version_without_force_witness :
  List.NoDup (map Version
                (ledger (fst (@migrateFiles (tableOS twoFiles) _ mockExecutorWithRows
                                plainRun (<[go "1.0.0" := oneMigration]> ∅)
                                [go "m.sql"; go "n.sql"] 0 0 afterFirstRun))))
  /\ (forall info w',
        snd (@recordMigration _ mockExecutorWithRows info w') = None ->
        ledger (fst (@recordMigration _ mockExecutorWithRows info w'))
        = ledger w' ++ [info])
  /\ (forall (forced : RunConfig) (loaded : gmap (list Z) (list Z))
             (sqlFile content : gostring) (w0 : world MockExecutorWithRows),
        Force forced = true ->
        @ReadFile (tableOS twoFiles) sqlFile = Some content ->
        Version (fst (@parseMigrationInfo (tableOS twoFiles) sqlFile)) <> [] ->
        snd (@sendAll _ mockExecutorWithRows (backend w0)
               (splitSQLStatements content)) = true ->
        snd (@Execute _ mockExecutorWithRows
               (fst (fst (@sendAll _ mockExecutorWithRows (backend w0)
                            (splitSQLStatements content))))
               (insertSQL (fst (@parseMigrationInfo (tableOS twoFiles) sqlFile))))
        = None ->
        ledger (fst (@migrateFile (tableOS twoFiles) _ mockExecutorWithRows
                       forced loaded sqlFile w0))
        = ledger w0 ++ [fst (@parseMigrationInfo (tableOS twoFiles) sqlFile)]
        /\ (In (Version (fst (@parseMigrationInfo (tableOS twoFiles) sqlFile)))
               (map Version (ledger w0)) ->
            ~ List.NoDup
                (map Version
                   (ledger (fst (@migrateFile (tableOS twoFiles) _
                                   mockExecutorWithRows forced loaded sqlFile w0)))))).
Proof.
  apply (@C5_one_row_per_version_without_force (tableOS twoFiles) _
           mockExecutorWithRows plainRun (<[go "1.0.0" := oneMigration]> ∅)
           [go "m.sql"; go "n.sql"] 0 0 afterFirstRun).
  - reflexivity.
  - vm_compute. constructor; [intros []|constructor].
  - intros row [<-|[]]. vm_compute. eauto.
  - vm_compute. constructor; [|constructor; [intros []|constructor]].
    intros [Heq|[]]. discriminate.
Defined.

(** The ledger after that run holds the two versions. *)
Example later_run_adds_the_new_row :
  map Version
    (ledger (fst (@migrateFiles (tableOS twoFiles) _ mockExecutorWithRows
                    plainRun (<[go "1.0.0" := oneMigration]> ∅)
                    [go "m.sql"; go "n.sql"] 0 0 afterFirstRun)))
  = [go "1.0.0"; go "1.1.0"]
  /\ snd (@migrateFiles (tableOS twoFiles) _ mockExecutorWithRows
            plainRun (<[go "1.0.0" := oneMigration]> ∅)
            [go "m.sql"; go "n.sql"] 0 0 afterFirstRun)
     = Some (1%nat, 1%nat).
Proof. split; vm_compute; reflexivity. Qed.

(** C6, the claim as it is worded, fails: without the debug flag a run
    whose ledger query fails ends with status 0 and has written nothing
    about the failure, on either stream. *)
Lemma C6_query_failure_is_silent :
  snd (@getAppliedMigrations _ mockExecutorWithRows unreachableLedger)
  = Some (BackendError (go "query error"))
  /\ exists w', @run (tableOS oneFile) _ mockExecutorWithRows 2 plainRun
                  unreachableLedger = (w', 0)
                /\ stderr w' = []
                /\ stdout w' =
                   [ProcessingFile (go "index.lst") (go ".");
                    ExecutingFile (go "m.sql");
                    Executed (go "m.sql") 1;
                    MigrationComplete 1 0].
Proof.
  split; [vm_compute; reflexivity|].
  eexists. split; [vm_compute; reflexivity|]. split; vm_compute; reflexivity.
Qed.

(** The store whose ledger cannot be queried, without the debug flag. *)
Lemma C6_query_failure_falls_back_witness :
  let w1 := World (reporting [] true) (issued unreachableLedger)
              (ledger unreachableLedger) (stdout unreachableLedger)
              (stderr unreachableLedger) in
  @run (tableOS oneFile) _ mockExecutorWithRows 2 plainRun unreachableLedger =
  @resolveAndMigrate (tableOS oneFile) _ mockExecutorWithRows 2 plainRun ∅
    (if Debug plainRun
     then say (NoteCouldNotQuery (BackendError (go "query error"))) w1 else w1)
  /\ (forall w2,
        @Query _ mockExecutorWithRows (backend w2)
          (go "SELECT version, checksum FROM schema_versions")
        = (reporting [] true, [], None) ->
        issued w2 = issued unreachableLedger ->
        ledger w2 = ledger unreachableLedger ->
        stdout w2 = stdout unreachableLedger ->
        stderr w2 = stderr unreachableLedger ->
        @run (tableOS oneFile) _ mockExecutorWithRows 2 plainRun w2
        = @resolveAndMigrate (tableOS oneFile) _ mockExecutorWithRows 2 plainRun ∅ w1)
  /\ (forall info,
        decideFile (Force plainRun) info ∅ = Apply
        \/ decideFile (Force plainRun) info ∅ = AlwaysApply).
Proof.
  apply (@C6_query_failure_falls_back (tableOS oneFile) _ mockExecutorWithRows
           2 plainRun unreachableLedger (reporting [] true) []
           (go "query error")).
  reflexivity.
Defined.

(** The manifest that lists [a.sql] and then a nested manifest listing
    [b.sql]. *)
Lemma C7_files_in_document_order_witness :
  exists w',
    @processWithWriter (tableOS nestedFiles) 2 (go "sql/index.lst") [] [] false
    = ([] ++ [go "sql/a.sql"; go "sql/more/b.sql"], w', None).
Proof.
  apply (proj1 (@C7_files_in_document_order (tableOS nestedFiles) 2
                  (go "sql/index.lst") [] [] false)).
  vm_compute. reflexivity.
Defined.

(* ===================================================================== *)
(** * The tests of the repository and the examples of the specification   *)
(* ===================================================================== *)

(** TestSplitSQLStatementsSimple *)
Example split_simple :
  splitSQLStatements (go "SELECT 1; SELECT 2; SELECT 3;")
  = [go "SELECT 1"; go "SELECT 2"; go "SELECT 3"].
Proof. vm_compute. reflexivity. Qed.

(** TestSplitSQLStatementsWithSingleQuotes *)
Example split_single_quotes :
  splitSQLStatements (go "INSERT INTO test VALUES ('hello; world'); SELECT 1;")
  = [go "INSERT INTO test VALUES ('hello; world')"; go "SELECT 1"].
Proof. vm_compute. reflexivity. Qed.

(** TestSplitSQLStatementsWithLineComments *)
Example split_line_comment :
  splitSQLStatements
    (go "SELECT 1; -- comment; with semicolon" ++ nl ++ go "SELECT 2;")
  = [go "SELECT 1"; go "-- comment; with semicolon" ++ nl ++ go "SELECT 2"].
Proof. vm_compute. reflexivity. Qed.

(** TestSplitSQLStatementsWithBlockComments *)
Example split_block_comment :
  splitSQLStatements (go "SELECT 1; /* block; comment */ SELECT 2;")
  = [go "SELECT 1"; go "/* block; comment */ SELECT 2"].
Proof. vm_compute. reflexivity. Qed.

(** TestSplitSQLStatementsNoTrailingSemicolon, Empty and WhitespaceOnly *)
Example split_unterminated_and_blank :
  splitSQLStatements (go "SELECT 1; SELECT 2") = [go "SELECT 1"; go "SELECT 2"]
  /\ splitSQLStatements [] = []
  /\ splitSQLStatements (go "   ;   ;   ") = [].
Proof. repeat split; vm_compute; reflexivity. Qed.

(** TestSplitSQLStatementsEscapedQuotes *)
Example split_escaped_quote :
  splitSQLStatements (go "INSERT INTO test VALUES ('it\'s working'); SELECT 1;")
  = [go "INSERT INTO test VALUES ('it\'s working')"; go "SELECT 1"].
Proof. vm_compute. reflexivity. Qed.

(** An unterminated literal keeps the rest of the text in one statement. *)
Example split_unterminated_quote :
  splitSQLStatements (go "SELECT 'a; SELECT 2;") = [go "SELECT 'a; SELECT 2;"].
Proof. vm_compute. reflexivity. Qed.

(** TestParseMigrationInfoWithVersionAndDescription *)
Example parse_headers :
  fst (@parseMigrationInfo (tableOS oneFile) (go "m.sql")) = oneInfo.
Proof. vm_compute. reflexivity. Qed.

(** Headers after the tenth line are not found. *)
Example parse_late_header :
  let text := go "--" ++ nl ++ go "--" ++ nl ++ go "--" ++ nl ++ go "--" ++ nl
              ++ go "--" ++ nl ++ go "--" ++ nl ++ go "--" ++ nl ++ go "--" ++ nl
              ++ go "--" ++ nl ++ go "--" ++ nl ++ go "-- version: 1.0.0" ++ nl in
  Version (fst (@parseMigrationInfo (tableOS [(go "late.sql", text)])
                                    (go "late.sql"))) = [].
Proof. vm_compute. reflexivity. Qed.

(** A recorded migration with an unchanged text is skipped: nothing is
    issued, nothing recorded, status 0. *)
Example run_skips_recorded :
  exists w', @run (tableOS oneFile) _ mockExecutorWithRows 1 plainRun afterFirstRun
             = (w', 0)
             /\ issued w' = [] /\ ledger w' = [oneInfo]
             /\ stdout w' = [ProcessingFile (go "index.lst") (go ".");
                             MigrationComplete 0 1].
Proof. eexists. split; [vm_compute; reflexivity|]. repeat split. Qed.

(** A recorded migration with another checksum ends the run with status
    1 before anything is issued. *)
Example run_rejects_changed :
  exists w', @run (tableOS oneFile) _ mockExecutorWithRows 1 plainRun
               (World (reporting [staleRow] false) [] [] [] [])
             = (w', 1)
             /\ issued w' = [] /\ ledger w' = []
             /\ stderr w' = [MismatchWarning (go "1.0.0");
                             MismatchFile (go "m.sql");
                             MismatchExpected (go "X");
                             MismatchCurrent oneMigration;
                             MismatchHint].
Proof. eexists. split; [vm_compute; reflexivity|]. repeat split. Qed.

(** TestExecuteSQL: the statement is executed without its semicolon, and an
    executor that fails makes the first statement fail. *)
Example execute_with_mock :
  let files := [(go "test.sql", go "CREATE TABLE test (id INT);")] in
  let ok := World {| executedSQL := []; shouldError := false |} [] [] [] [] in
  let failing := World {| executedSQL := []; shouldError := true |} [] [] [] [] in
  executedSQL (backend (fst (@executeSQLWithWriter (tableOS files) _ mockExecutor
                               (go "test.sql") false ok)))
  = [go "CREATE TABLE test (id INT)"]
  /\ snd (@executeSQLWithWriter (tableOS files) _ mockExecutor
            (go "test.sql") false failing)
     = Some (StatementFailed 1 (BackendError (go "context deadline exceeded"))).
Proof. split; vm_compute; reflexivity. Qed.

(* ===================================================================== *)
(** * Further properties: escaping and splitting                          *)
(* ===================================================================== *)

(** Rewrites with the flags known to be lowered. *)
Ltac rewrite_all_false :=
  repeat match goal with H : _ = false |- _ => rewrite H end.

Section EscapeFacts.

Lemma escapeSQLString_cons (c : rune) (s : gostring) :
  escapeSQLString (c :: s) =
  (if c =? rSQuote then [rSQuote; rSQuote] else [c]) ++ escapeSQLString s.
Proof. reflexivity. Qed.

(** X1: [escapeSQLString] loses nothing: two strings with the same
    escaped form are the same string. *)
Theorem escapeSQLString_injective (a b : gostring) :
  escapeSQLString a = escapeSQLString b -> a = b.
Proof.
  revert b. induction a as [|x a IH]; intros [|y b] Heq.
  - reflexivity.
  - rewrite escapeSQLString_cons in Heq. simpl in Heq.
    destruct (y =? rSQuote); discriminate.
  - rewrite escapeSQLString_cons in Heq. simpl in Heq.
    destruct (x =? rSQuote); discriminate.
  - rewrite !escapeSQLString_cons in Heq.
    destruct (x =? rSQuote) eqn:Ex, (y =? rSQuote) eqn:Ey; bool_facts;
      simpl in Heq.
    + injection Heq as Heq. apply IH in Heq. congruence.
    + injection Heq as Hy _. congruence.
    + injection Heq as Hx _. congruence.
    + injection Heq as Hxy Heq. apply IH in Heq. congruence.
Qed.

Lemma escapeSQLString_length (s : gostring) :
  length (escapeSQLString s)
  = (length s + count_occ Z.eq_dec s rSQuote)%nat.
Proof.
  induction s as [|c s IH]; [reflexivity|].
  rewrite escapeSQLString_cons, length_app, IH. cbn [count_occ length].
  destruct (c =? rSQuote) eqn:E; bool_facts.
  - destruct (Z.eq_dec c rSQuote); [simpl; lia | contradiction].
  - destruct (Z.eq_dec c rSQuote); [contradiction | simpl; lia].
Qed.

(** X2: the escaped form has one rune more for every single quote of the
    string, holds twice as many single quotes, and is the string itself
    exactly when the string holds no single quote. *)
Theorem escapeSQLString_quotes (s : gostring) :
  length (escapeSQLString s) = (length s + count_occ Z.eq_dec s rSQuote)%nat
  /\ count_occ Z.eq_dec (escapeSQLString s) rSQuote
     = (2 * count_occ Z.eq_dec s rSQuote)%nat
  /\ (escapeSQLString s = s <-> ~ In rSQuote s).
Proof.
  split; [apply escapeSQLString_length|]. split.
  - induction s as [|c s IH]; [reflexivity|].
    rewrite escapeSQLString_cons, count_occ_app. unfold rune in *.
    rewrite IH. cbn [count_occ].
    destruct (c =? rSQuote) eqn:E; bool_facts.
    + subst c. cbn [count_occ].
      destruct (Z.eq_dec rSQuote rSQuote); [lia | contradiction].
    + cbn [count_occ].
      destruct (Z.eq_dec c rSQuote); [contradiction | lia].
  - split.
    + intros Heq Hin. pose proof (escapeSQLString_length s) as Hlen.
      rewrite Heq in Hlen.
      apply (count_occ_In Z.eq_dec) in Hin. lia.
    + induction s as [|c s IH]; intros Hnot; [reflexivity|].
      rewrite escapeSQLString_cons.
      destruct (c =? rSQuote) eqn:E; bool_facts.
      * exfalso. apply Hnot. now left.
      * simpl. f_equal. apply IH. intros Hin. apply Hnot. now right.
Qed.

End EscapeFacts.

Section SplitterMore.

Lemma runeAt_In (runes : list rune) (i : nat) :
  (i < length runes)%nat -> In (runeAt runes i) runes.
Proof. intros Hlt. unfold runeAt. now apply nth_In. Qed.

Lemma drop_runeAt (runes : list rune) (i : nat) :
  (i < length runes)%nat -> drop i runes = runeAt runes i :: drop (S i) runes.
Proof.
  intros Hlt. apply drop_S. unfold runeAt.
  destruct (nth_lookup_or_length runes i 0) as [Hl | Hge]; [exact Hl | lia].
Qed.

(** The segments of a text: joined by semicolons they are the text, and
    the statements are those that are kept. *)
Lemma split_segments (sql : gostring) :
  exists segs,
    Join segs (go ";") = sql /\ keptSegments segs = splitSQLStatements sql.
Proof.
  destruct (scanLoop_segmented sql (length sql)) as (segs & HJ & Hst & _).
  exists (segs ++ [current (scanLoop (length sql) sql initial)]).
  rewrite scanLoop_finishes, firstn_all in HJ. split; [exact HJ|].
  unfold splitSQLStatements. rewrite Hst. symmetry. apply flush_kept.
Qed.

(** X3: a text without semicolon is never cut, whatever quotes and
    comments it holds: it is returned whole, trimmed, or not at all when
    it is blank. *)
Theorem split_without_semicolon (sql : gostring) :
  ~ In rSemi sql ->
  splitSQLStatements sql =
  if isEmpty (TrimSpace sql) then [] else [TrimSpace sql].
Proof.
  intros Hno.
  assert (Hinv : let s := scanLoop (length sql) sql initial in
                 statements s = [] /\ current s = take (pos s) sql
                 /\ (pos s <= length sql)%nat).
  { apply (scanLoop_invariant
             (fun s => statements s = [] /\ current s = take (pos s) sql
                       /\ (pos s <= length sql)%nat)).
    - intros s (Hst & Hcur & Hle) Hlt.
      pose proof (take_S_runeAt sql (pos s) Hlt) as Htake.
      pose proof (runeAt_In sql (pos s) Hlt) as Hin.
      destruct (loopBody_branch sql s) as
        [ | | | _ _ Hlt2 _ | | | | Hsemi _ | ]; simpl;
        try (rewrite Htake, Hcur; repeat split; auto; lia).
      + replace (pos s + 1)%nat with (S (pos s)) in * by lia.
        rewrite (take_S_runeAt sql (S (pos s)) Hlt2), Htake, Hcur.
        repeat split; auto.
      + exfalso. apply Hno. rewrite <- Hsemi. exact Hin.
    - simpl. repeat split. lia. }
  cbv zeta in Hinv. destruct Hinv as (Hst & Hcur & _).
  unfold splitSQLStatements, flush.
  rewrite Hst, Hcur, scanLoop_finishes, firstn_all. reflexivity.
Qed.

Lemma split_without_semicolon_witness :
  splitSQLStatements (go "SELECT 'a' -- one /* two") =
  if isEmpty (TrimSpace (go "SELECT 'a' -- one /* two")) then []
  else [TrimSpace (go "SELECT 'a' -- one /* two")].
Proof.
  apply split_without_semicolon. vm_compute. intuition discriminate.
Defined.

(** X4: in a text without single quote, double quote, dash and slash the
    splitter cuts at every semicolon: its statements are the pieces
    between the semicolons, trimmed, without the blank ones. *)
Theorem split_plain_text (sql : gostring) :
  (forall c, In c sql ->
     c <> rSQuote /\ c <> rDQuote /\ c <> rDash /\ c <> rSlash) ->
  splitSQLStatements sql = keptSegments (splitAtSemicolons [] sql).
Proof.
  intros Hplain.
  assert (Hinv : let s := scanLoop (length sql) sql initial in
    plain s = true /\ (pos s <= length sql)%nat
    /\ exists segs, statements s = keptSegments segs
         /\ splitAtSemicolons [] sql
            = segs ++ splitAtSemicolons (current s) (drop (pos s) sql)).
  { apply (scanLoop_invariant (fun s =>
      plain s = true /\ (pos s <= length sql)%nat
      /\ exists segs, statements s = keptSegments segs
           /\ splitAtSemicolons [] sql
              = segs ++ splitAtSemicolons (current s) (drop (pos s) sql))).
    - intros s (Hp & Hle & segs & Hst & Hsp) Hlt.
      pose proof (drop_runeAt sql (pos s) Hlt) as Hdrop.
      destruct (Hplain _ (runeAt_In sql (pos s) Hlt)) as (Hq & Hdq & Hd & Hsl).
      unfold plain in Hp. bool_facts.
      destruct (loopBody_branch sql s) as
        [ | | | | | | | Hsemi _ | Hw ]; try congruence;
        try (match goal with H : _ \/ _ |- _ => destruct H as [[? ?]|[? ?]] end;
             congruence).
      + (* a boundary *)
        simpl. split; [unfold plain; simpl; now rewrite_all_false|].
        split; [lia|]. exists (segs ++ [current s]).
        split; [rewrite Hst; apply flush_kept|].
        rewrite Hsp, Hdrop, Hsemi. simpl. rewrite <- app_assoc. reflexivity.
      + (* any other rune *)
        assert (Hne : runeAt sql (pos s) <> rSemi).
        { destruct Hw as [Hne | Hf]; [exact Hne|]. unfold plain in Hf.
          repeat match goal with H : _ = false |- _ => rewrite H in * end.
          discriminate. }
        simpl. split; [unfold plain; simpl; now rewrite_all_false|].
        split; [lia|]. exists segs. split; [exact Hst|].
        rewrite Hsp, Hdrop. simpl.
        replace (runeAt sql (pos s) =? rSemi) with false
          by (symmetry; now apply Z.eqb_neq).
        reflexivity.
    - simpl. split; [reflexivity|]. split; [lia|]. exists []. auto. }
  cbv zeta in Hinv. destruct Hinv as (_ & _ & segs & Hst & Hsp).
  rewrite scanLoop_finishes, drop_all in Hsp. simpl in Hsp.
  unfold splitSQLStatements. rewrite Hst, Hsp. apply flush_kept.
Qed.

End SplitterMore.

Lemma split_plain_text_witness :
  splitSQLStatements (go "CREATE TABLE t (id INT); ; DROP TABLE u")
  = keptSegments
      (splitAtSemicolons [] (go "CREATE TABLE t (id INT); ; DROP TABLE u")).
Proof.
  apply split_plain_text. intros c Hin. vm_compute in Hin.
  repeat (destruct Hin as [<- | Hin];
          [repeat split; discriminate|]).
  destruct Hin.
Defined.

Section SplitterPieces.

Lemma trimLeft_suffix (s : gostring) : exists l, s = l ++ trimLeft s.
Proof.
  induction s as [|c s [l IH]]; [exists []; reflexivity|]. simpl.
  destruct (isSpace c).
  - exists (c :: l). simpl. now f_equal.
  - exists []. reflexivity.
Qed.

Lemma trimRight_prefix (s : gostring) : exists r, s = trimRight s ++ r.
Proof.
  unfold trimRight. destruct (trimLeft_suffix (rev s)) as [l Hl].
  exists (rev l). rewrite <- rev_app_distr, <- Hl. symmetry. apply rev_involutive.
Qed.

(** [TrimSpace] only removes runes at the two ends. *)
Lemma TrimSpace_infix (s : gostring) : exists l r, s = l ++ TrimSpace s ++ r.
Proof.
  unfold TrimSpace. destruct (trimLeft_suffix s) as [l Hl].
  destruct (trimRight_prefix (trimLeft s)) as [r Hr].
  exists l, r. rewrite <- Hr. exact Hl.
Qed.

Lemma inOrder_shift (pieces : list gostring) (skipped text : gostring) :
  inOrder pieces text -> inOrder pieces (skipped ++ text).
Proof.
  destruct pieces as [|piece rest]; [auto|]. simpl.
  intros (before & after & -> & Hrest).
  exists (skipped ++ before), after. rewrite <- app_assoc. auto.
Qed.

Lemma keptSegments_cons (seg : gostring) (segs : list gostring) :
  keptSegments (seg :: segs) =
  (if isEmpty (TrimSpace seg) then [] else [TrimSpace seg]) ++ keptSegments segs.
Proof.
  unfold keptSegments. cbn [map List.filter]. unfold nonBlank at 1.
  destruct (isEmpty (TrimSpace seg)); reflexivity.
Qed.

Lemma Join_cons (seg : gostring) (segs : list gostring) (sep : gostring) :
  exists rest, Join (seg :: segs) sep = seg ++ rest
               /\ (segs = [] \/ rest = sep ++ Join segs sep).
Proof.
  destruct segs as [|seg2 segs].
  - exists []. simpl. rewrite app_nil_r. auto.
  - eexists. split; [reflexivity|]. now right.
Qed.

Lemma keptSegments_inOrder (segs : list gostring) :
  inOrder (keptSegments segs) (Join segs (go ";")).
Proof.
  induction segs as [|seg segs IH]; [exact I|].
  rewrite keptSegments_cons.
  destruct (Join_cons seg segs (go ";")) as (rest & -> & Hrest).
  assert (Hafter : inOrder (keptSegments segs) rest).
  { destruct Hrest as [-> | ->]; [exact I | now apply inOrder_shift]. }
  destruct (isEmpty (TrimSpace seg)); simpl.
  - now apply inOrder_shift.
  - destruct (TrimSpace_infix seg) as (l & r & Hseg).
    exists l, (r ++ rest). split.
    + rewrite Hseg at 1. rewrite <- !app_assoc. reflexivity.
    + now apply inOrder_shift.
Qed.

(** X5: the splitter neither invents nor rewrites text: its statements
    are pieces of the text, found in it one after the other and without
    overlap, comments and inner whitespace included as written. *)
Theorem split_statements_are_pieces (sql : gostring) :
  inOrder (splitSQLStatements sql) sql.
Proof.
  destruct (split_segments sql) as (segs & HJ & <-).
  rewrite <- HJ. apply keptSegments_inOrder.
Qed.

End SplitterPieces.

(* ===================================================================== *)
(** * Further properties: the header lines                                *)
(* ===================================================================== *)

Section HeaderFacts.

Lemma HasPrefix_app (p s : gostring) : HasPrefix (p ++ s) p = true.
Proof.
  induction p as [|c p IH]; simpl; [destruct s; reflexivity|].
  rewrite Z.eqb_refl. exact IH.
Qed.

Lemma HasPrefix_head (c k : rune) (s key : gostring) :
  HasPrefix (c :: s) (k :: key) = true -> c = k.
Proof. simpl. intros Hp. bool_facts. assumption. Qed.

Lemma reSpace_isSpace (c : rune) : reSpace c = true -> isSpace c = true.
Proof.
  unfold reSpace, isSpace. intros Hc.
  repeat (apply orb_prop in Hc as [Hc | Hc]); bool_facts; subst; reflexivity.
Qed.

(** Two literal keys that start with different runes, none of them a
    space, never match at the same place. *)
Lemma reSpacesKey_exclusive (k1 k2 : rune) (key1 key2 s g : gostring) :
  k1 <> k2 -> reSpace k1 = false -> reSpace k2 = false ->
  reSpacesKey (k1 :: key1) s = Some g -> reSpacesKey (k2 :: key2) s = None.
Proof.
  intros Hne Hs1 Hs2. revert g.
  induction s as [|c s IH]; intros g Hm; [discriminate|].
  cbn [reSpacesKey] in *. unfold reKey in *.
  destruct (reSpace c) eqn:Ec.
  - assert (Hk : forall k key, reSpace k = false ->
                   HasPrefix (c :: s) (k :: key) = false).
    { intros k key Hk. destruct (HasPrefix (c :: s) (k :: key)) eqn:Hp;
        [|reflexivity].
      apply HasPrefix_head in Hp. congruence. }
    rewrite (Hk k2 key2 Hs2). rewrite (Hk k1 key1 Hs1) in Hm.
    destruct (reSpacesKey (k1 :: key1) s) as [g'|]; [|discriminate].
    rewrite (IH g' eq_refl). reflexivity.
  - destruct (HasPrefix (c :: s) (k1 :: key1)) eqn:Hp1; [|discriminate].
    apply HasPrefix_head in Hp1.
    destruct (HasPrefix (c :: s) (k2 :: key2)) eqn:Hp2; [|reflexivity].
    apply HasPrefix_head in Hp2. congruence.
Qed.

(** X6: no line is both a version header and a description header. *)
Theorem header_regexes_exclusive (line : gostring) :
  versionRegex line = None \/ descriptionRegex line = None.
Proof.
  unfold versionRegex, descriptionRegex, reHeader.
  destruct (HasPrefix line (go "--")); [|now left].
  destruct (reSpacesKey (go "version:") (drop 2 line)) as [g|] eqn:Ev;
    [right | now left].
  change (go "version:") with (118 :: go "ersion:") in Ev.
  change (go "description:") with (100 :: go "escription:").
  apply (reSpacesKey_exclusive 118 100 (go "ersion:") (go "escription:") _ g);
    try reflexivity; [discriminate | exact Ev].
Qed.

Lemma headerValue_head (v : gostring) :
  headerValue v -> exists c rest, v = c :: rest /\ reSpace c = false.
Proof.
  intros (Hne & Htrim & _). pose proof (TrimSpace_first v) as Hf.
  rewrite Htrim in Hf. destruct v as [|c rest]; [contradiction|].
  exists c, rest. split; [reflexivity|].
  destruct (reSpace c) eqn:E; [|reflexivity].
  apply reSpace_isSpace in E. congruence.
Qed.

Lemma headerValue_dots (v : gostring) : headerValue v -> forallb reDot v = true.
Proof.
  intros (_ & _ & Hlf). apply forallb_forall. intros c Hin. unfold reDot.
  apply negb_true_iff, Z.eqb_neq. intros ->. contradiction.
Qed.

(** The header line as the README writes it is matched, and the group is
    the value. *)
Lemma reHeader_written (k : rune) (key v : gostring) :
  reSpace k = false -> headerValue v ->
  reHeader (k :: key) (go "--" ++ [32] ++ (k :: key) ++ [32] ++ v) = Some v.
Proof.
  intros Hk Hv. unfold reHeader. rewrite HasPrefix_app.
  change 2%nat with (length (go "--")). rewrite drop_app_length.
  cbn [app reSpacesKey]. change (reSpace 32) with true. cbv iota.
  rewrite Hk. unfold reKey.
  change (k :: key ++ 32 :: v) with ((k :: key) ++ 32 :: v).
  rewrite HasPrefix_app, drop_app_length.
  cbn [reValue]. change (reSpace 32) with true. cbv iota.
  destruct (headerValue_head v Hv) as (c & rest & -> & Hc).
  cbn [reValue]. rewrite Hc. unfold reGroup.
  rewrite (headerValue_dots _ Hv). reflexivity.
Qed.

Lemma dropCR_value (before v : gostring) :
  headerValue v -> dropCR (before ++ v) = before ++ v.
Proof.
  intros (Hne & Htrim & _). pose proof (TrimSpace_last v) as Hl.
  rewrite Htrim in Hl. unfold dropCR. rewrite rev_app_distr.
  destruct (rev v) as [|c t] eqn:E.
  - apply (f_equal (@rev _)) in E. rewrite rev_involutive in E. contradiction.
  - simpl. destruct (c =? rCR) eqn:Ec; [|reflexivity].
    bool_facts. subst c. discriminate.
Qed.

(** X7: a file that starts with the two header lines in the form of the
    README, each short enough for the line scanner, gets exactly the
    version and the description written there, whatever follows. *)
Theorem parse_documented_headers `{OS} (path v d body : gostring) :
  headerValue v -> headerValue d ->
  byteLen (go "-- version: " ++ v) < MaxScanTokenSize ->
  byteLen (go "-- description: " ++ d) < MaxScanTokenSize ->
  ReadFile path
  = Some (go "-- version: " ++ v ++ [rLF]
          ++ go "-- description: " ++ d ++ [rLF] ++ body) ->
  snd (parseMigrationInfo path) = None
  /\ Version (fst (parseMigrationInfo path)) = v
  /\ Description (fst (parseMigrationInfo path)) = d.
Proof.
  intros Hv Hd Hvfit Hdfit Hread. unfold parseMigrationInfo. rewrite Hread.
  cbn [fst snd]. split; [reflexivity|].
  assert (Hlines : exists more,
    fst (scanLines (go "-- version: " ++ v ++ [rLF]
                    ++ go "-- description: " ++ d ++ [rLF] ++ body))
    = (go "-- version: " ++ v) :: (go "-- description: " ++ d) :: more).
  { unfold scanLines. eexists.
    rewrite (app_assoc (go "-- version: ") v).
    rewrite scanLinesFrom_line_app.
    - rewrite (app_assoc (go "-- description: ") d).
      rewrite scanLinesFrom_line_app.
      + cbn [app fst]. rewrite !dropCR_value by assumption. reflexivity.
      + intros Hin. apply in_app_iff in Hin as [Hin | Hin];
          [vm_compute in Hin; intuition discriminate | now apply Hd].
      + exact Hdfit.
    - intros Hin. apply in_app_iff in Hin as [Hin | Hin];
        [vm_compute in Hin; intuition discriminate | now apply Hv].
    - exact Hvfit. }
  destruct Hlines as [more ->].
  assert (Hver : versionRegex (go "-- version: " ++ v) = Some v).
  { change (go "-- version: ") with (go "--" ++ [32] ++ go "version:" ++ [32]).
    rewrite <- !app_assoc.
    apply (reHeader_written 118 (go "ersion:") v); [reflexivity | exact Hv]. }
  assert (Hdesc : descriptionRegex (go "-- description: " ++ d) = Some d).
  { change (go "-- description: ")
      with (go "--" ++ [32] ++ go "description:" ++ [32]).
    rewrite <- !app_assoc.
    apply (reHeader_written 100 (go "escription:") d); [reflexivity | exact Hd]. }
  assert (Hcross1 : descriptionRegex (go "-- version: " ++ v) = None).
  { destruct (header_regexes_exclusive (go "-- version: " ++ v)); congruence. }
  assert (Hcross2 : versionRegex (go "-- description: " ++ d) = None).
  { destruct (header_regexes_exclusive (go "-- description: " ++ d)); congruence. }
  destruct Hv as (Hvne & Hvt & _). destruct Hd as (Hdne & Hdt & _).
  apply isEmpty_false in Hvne, Hdne.
  match goal with |- context [headerLoop _ 0 ?i] => set (info0 := i) end.
  assert (H1 : headerLine (go "-- version: " ++ v) info0 = setVersion v info0).
  { unfold headerLine. rewrite Hver, Hcross1, Hvt. reflexivity. }
  assert (H2 : headerLine (go "-- description: " ++ d) (setVersion v info0)
               = setDescription d (setVersion v info0)).
  { unfold headerLine. rewrite Hcross2, Hdesc, Hdt. reflexivity. }
  assert (F1 : foundBoth (setVersion v info0) = false).
  { unfold foundBoth. simpl. apply andb_false_r. }
  assert (F2 : foundBoth (setDescription d (setVersion v info0)) = true).
  { unfold foundBoth. simpl. rewrite Hvne, Hdne. reflexivity. }
  cbn [headerLoop]. change (0 <? 10)%nat with true. cbv iota zeta.
  rewrite H1, F1. change (1 <? 10)%nat with true. cbv iota.
  rewrite H2, F2. split; reflexivity.
Qed.

End HeaderFacts.

(** The sample migration of the repository. *)
Lemma parse_documented_headers_witness :
  let files :=
    [(go "sample.sql",
      go "-- version: " ++ go "1.0.1" ++ [rLF]
      ++ go "-- description: " ++ go "Create sample users table" ++ [rLF]
      ++ go "CREATE TABLE IF NOT EXISTS users (id UUID);")] in
  snd (@parseMigrationInfo (tableOS files) (go "sample.sql")) = None
  /\ Version (fst (@parseMigrationInfo (tableOS files) (go "sample.sql")))
     = go "1.0.1"
  /\ Description (fst (@parseMigrationInfo (tableOS files) (go "sample.sql")))
     = go "Create sample users table".
Proof.
  apply (@parse_documented_headers _ (go "sample.sql") (go "1.0.1")
           (go "Create sample users table")
           (go "CREATE TABLE IF NOT EXISTS users (id UUID);")).
  - repeat split; [discriminate | vm_compute; intuition discriminate].
  - repeat split; [discriminate | vm_compute; intuition discriminate].
  - vm_compute. reflexivity.
  - vm_compute. reflexivity.
  - reflexivity.
Defined.

(* ===================================================================== *)
(** * Further properties: the index resolver                              *)
(* ===================================================================== *)

Section ResolverMore.
Context `{OS}.

(** The tests of the loop of [processWithWriter], read through
    [classify]. *)
Lemma scanManifest_step
    (recurse : gostring -> list gostring -> list message ->
               list gostring * list message * option error)
    (dir : gostring) (debug : bool) (text : gostring) (rest : list gostring)
    (acc : list gostring) (w : list message) :
  scanManifest recurse dir debug (text :: rest) acc w =
  match classify dir text with
  | NestedManifest p =>
      match recurse p acc w with
      | (acc', w', Some err) => (acc', w', Some err)
      | (acc', w', None) => scanManifest recurse dir debug rest acc' w'
      end
  | SQLFile p =>
      scanManifest recurse dir debug rest (acc ++ [p])
        (if debug then w ++ [AddingSQL (TrimSpace text)] else w)
  | Ignored =>
      scanManifest recurse dir debug rest acc
        (if isEmpty (TrimSpace text) || HasPrefix (TrimSpace text) (go "#")
         then w else w ++ [WarnUnknownType (TrimSpace text)])
  end.
Proof.
  cbn [scanManifest]. unfold classify.
  destruct (isEmpty (TrimSpace text) || HasPrefix (TrimSpace text) (go "#"));
    [reflexivity|].
  destruct (HasSuffix (TrimSpace text) (go ".lst")); [reflexivity|].
  destruct (HasSuffix (TrimSpace text) (go ".sql")); reflexivity.
Qed.

(** Lines that name no nested manifest are gone through without error. *)
Lemma scanManifest_flat
    (recurse : gostring -> list gostring -> list message ->
               list gostring * list message * option error)
    (dir : gostring) (debug : bool) (pre rest : list gostring) :
  (forall l, In l pre -> forall q, classify dir l <> NestedManifest q) ->
  forall acc w, exists acc' w',
    scanManifest recurse dir debug (pre ++ rest) acc w
    = scanManifest recurse dir debug rest (acc ++ acc') (w ++ w').
Proof.
  induction pre as [|l pre IH]; intros Hflat acc w.
  - exists [], []. rewrite !app_nil_r. reflexivity.
  - cbn [app]. rewrite scanManifest_step.
    assert (Hpre : forall l', In l' pre ->
                     forall q, classify dir l' <> NestedManifest q)
      by (intros l' Hin; apply Hflat; now right).
    destruct (classify dir l) as [|q|p] eqn:Ec.
    + destruct (IH Hpre acc
                  (if isEmpty (TrimSpace l) || HasPrefix (TrimSpace l) (go "#")
                   then w else w ++ [WarnUnknownType (TrimSpace l)]))
        as (acc' & w' & ->).
      destruct (isEmpty (TrimSpace l) || HasPrefix (TrimSpace l) (go "#")).
      * exists acc', w'. reflexivity.
      * exists acc', ([WarnUnknownType (TrimSpace l)] ++ w').
        rewrite !app_assoc. reflexivity.
    + exfalso. apply (Hflat l (or_introl eq_refl) q). exact Ec.
    + destruct (IH Hpre (acc ++ [p])
                  (if debug then w ++ [AddingSQL (TrimSpace l)] else w))
        as (acc' & w' & ->).
      exists ([p] ++ acc').
      destruct debug.
      * exists ([AddingSQL (TrimSpace l)] ++ w'). rewrite !app_assoc. reflexivity.
      * exists w'. rewrite !app_assoc. reflexivity.
Qed.

(** X8: the resolver has no cycle detection.  A manifest on a cycle of
    nested manifests, each reached before any other nested manifest of
    its parent, is never resolved: every level of the recursion opens the
    next and keeps its own manifest open, and the resolution ends with
    the error of [os.Open] on a manifest of the cycle when the process
    has no file descriptor left, however many it had. *)
Theorem cycle_is_never_resolved (onCycle : gostring -> Prop) :
  (forall p, onCycle p ->
     exists content pre text post q,
       ReadFile p = Some content
       /\ fst (scanLines content) = pre ++ text :: post
       /\ (forall l, In l pre -> forall n, classify (Dir p) l <> NestedManifest n)
       /\ classify (Dir p) text = NestedManifest q
       /\ onCycle q) ->
  forall free p, onCycle p ->
  forall sqlfiles w debug,
  exists files out q,
    processWithWriter free p sqlfiles w debug
    = (files, out, Some (TooManyOpenFiles q))
    /\ onCycle q.
Proof.
  intros Hcycle free. induction free as [|free IH]; intros p Hp sqlfiles w debug.
  - cbn [processWithWriter]. eauto.
  - destruct (Hcycle p Hp) as (content & pre & text & post & q
                               & Hread & Hlines & Hflat & Hnested & Hq).
    cbn [processWithWriter]. rewrite Hread.
    destruct (scanLines content) as [lines tooLong]. cbn [fst] in Hlines.
    subst lines.
    destruct (scanManifest_flat
                (fun p0 sqlfiles0 w0 => processWithWriter free p0 sqlfiles0 w0 debug)
                (Dir p) debug pre (text :: post) Hflat sqlfiles
                (w ++ [ProcessingFile p (Dir p)])) as (acc' & w' & ->).
    rewrite scanManifest_step, Hnested.
    destruct (IH q Hq (sqlfiles ++ acc')
                ((w ++ [ProcessingFile p (Dir p)]) ++ w') debug)
      as (files & out & q' & -> & Hq').
    eauto.
Qed.

(** The slice and the output only grow, also when an error is returned. *)
Lemma scanManifest_extends
    (recurse : gostring -> list gostring -> list message ->
               list gostring * list message * option error)
    (dir : gostring) (debug : bool) :
  (forall p acc w r w' e, recurse p acc w = (r, w', e) ->
     exists more out, r = acc ++ more /\ w' = w ++ out) ->
  forall lines acc w r w' e,
    scanManifest recurse dir debug lines acc w = (r, w', e) ->
    exists more out, r = acc ++ more /\ w' = w ++ out.
Proof.
  intros Hrec lines. induction lines as [|text rest IH]; intros acc w r w' e Hs.
  - simpl in Hs. injection Hs as <- <- <-. exists [], [].
    rewrite !app_nil_r. auto.
  - rewrite scanManifest_step in Hs. destruct (classify dir text) as [|q|p].
    + apply IH in Hs as (more & out & -> & ->).
      destruct (isEmpty (TrimSpace text) || HasPrefix (TrimSpace text) (go "#")).
      * eauto.
      * exists more, ([WarnUnknownType (TrimSpace text)] ++ out).
        rewrite app_assoc. auto.
    + destruct (recurse q acc w) as [[acc1 w1] [err|]] eqn:Er.
      * injection Hs as <- <- <-. eapply Hrec. exact Er.
      * apply Hrec in Er as (m1 & o1 & -> & ->).
        apply IH in Hs as (m2 & o2 & -> & ->).
        exists (m1 ++ m2), (o1 ++ o2). rewrite !app_assoc. auto.
    + apply IH in Hs as (more & out & -> & ->).
      exists ([p] ++ more).
      destruct debug.
      * exists ([AddingSQL (TrimSpace text)] ++ out). rewrite !app_assoc. auto.
      * exists out. rewrite !app_assoc. auto.
Qed.

(** X9: [processWithWriter] only appends: whatever it returns, error or
    not, the slice it was given is the start of the slice it leaves, and
    what was written before is the start of what has been written. *)
Theorem processWithWriter_only_appends (free : nat) (path : gostring)
    (sqlfiles : list gostring) (w : list message) (debug : bool)
    (result : list gostring) (w' : list message) (err : option error) :
  processWithWriter free path sqlfiles w debug = (result, w', err) ->
  exists more out, result = sqlfiles ++ more /\ w' = w ++ out.
Proof.
  revert path sqlfiles w result w' err.
  induction free as [|free IH]; intros path sqlfiles w result w' err Hp.
  - cbn [processWithWriter] in Hp. injection Hp as <- <- <-.
    exists [], [ErrOpening (TooManyOpenFiles path)]. rewrite app_nil_r. auto.
  - cbn [processWithWriter] in Hp.
    destruct (ReadFile path) as [content|].
    + destruct (scanLines content) as [lines tooLong].
      destruct (scanManifest _ (Dir path) debug lines sqlfiles _)
        as [[acc1 w1] e1] eqn:Hs.
      apply (scanManifest_extends _ _ _ (fun p acc w0 r w2 e => IH p acc w0 r w2 e))
        in Hs as (more & out & -> & ->).
      exists more, ([ProcessingFile path (Dir path)] ++ out).
      rewrite app_assoc.
      destruct e1; [|destruct tooLong]; injection Hp as <- <- <-; auto.
    + injection Hp as <- <- <-. exists [], [ErrOpening (OsError path)].
      rewrite app_nil_r. auto.
Qed.

Lemma scanManifest_sameResolution
    (rec1 rec2 : gostring -> list gostring -> list message ->
                 list gostring * list message * option error)
    (dir : gostring) (d1 d2 : bool) :
  (forall p acc w1 w2, sameResolution (rec1 p acc w1) (rec2 p acc w2)) ->
  forall lines acc w1 w2,
    sameResolution (scanManifest rec1 dir d1 lines acc w1)
                   (scanManifest rec2 dir d2 lines acc w2).
Proof.
  intros Hrec lines. induction lines as [|text rest IH]; intros acc w1 w2.
  - split; reflexivity.
  - rewrite !scanManifest_step. destruct (classify dir text) as [|q|p];
      [apply IH | | apply IH].
    specialize (Hrec q acc w1 w2). unfold sameResolution in Hrec.
    destruct (rec1 q acc w1) as [[a1 o1] e1], (rec2 q acc w2) as [[a2 o2] e2].
    cbn [fst snd] in Hrec. destruct Hrec as [-> ->].
    destruct e2; [split; reflexivity | apply IH].
Qed.

Lemma processWithWriter_sameResolution (free : nat) (path : gostring)
    (sqlfiles : list gostring) (w1 w2 : list message) (d1 d2 : bool) :
  sameResolution (processWithWriter free path sqlfiles w1 d1)
                 (processWithWriter free path sqlfiles w2 d2).
Proof.
  revert path sqlfiles w1 w2.
  induction free as [|free IH]; intros path sqlfiles w1 w2;
    [split; reflexivity|].
  cbn [processWithWriter]. destruct (ReadFile path) as [content|];
    [|split; reflexivity].
  destruct (scanLines content) as [lines tooLong].
  pose proof (scanManifest_sameResolution
                (fun p acc w => processWithWriter free p acc w d1)
                (fun p acc w => processWithWriter free p acc w d2)
                (Dir path) d1 d2 (fun p acc o1 o2 => IH p acc o1 o2)
                lines sqlfiles (w1 ++ [ProcessingFile path (Dir path)])
                (w2 ++ [ProcessingFile path (Dir path)])) as Hsame.
  unfold sameResolution in *.
  destruct (scanManifest _ (Dir path) d1 lines sqlfiles _) as [[a1 o1] e1],
           (scanManifest _ (Dir path) d2 lines sqlfiles _) as [[a2 o2] e2].
  cbn [fst snd] in Hsame. destruct Hsame as [-> ->].
  destruct e2; [|destruct tooLong]; split; reflexivity.
Qed.

(** The forward half of the refinement, for a prefix of the lines. *)
Lemma scanManifest_splice_prefix
    (recurse : gostring -> list gostring -> list message ->
               list gostring * list message * option error)
    (nested : gostring -> option (list gostring))
    (dir : gostring) (debug : bool) :
  (forall p acc w files, nested p = Some files ->
     exists w', recurse p acc w = (acc ++ files, w', None)) ->
  forall lines acc w files,
    splice nested dir lines = Some files ->
    exists w', forall rest,
      scanManifest recurse dir debug (lines ++ rest) acc w
      = scanManifest recurse dir debug rest (acc ++ files) w'.
Proof.
  intros Hrec lines. induction lines as [|l lines IH]; intros acc w files Hs.
  - simpl in Hs. injection Hs as <-. exists w. intros rest.
    rewrite app_nil_r. reflexivity.
  - cbn [splice] in Hs.
    destruct (classify dir l) as [|n|p] eqn:Ec; simpl in Hs.
    + destruct (splice nested dir lines) as [after|] eqn:Ea; [|discriminate].
      injection Hs as <-.
      destruct (IH acc
                  (if isEmpty (TrimSpace l) || HasPrefix (TrimSpace l) (go "#")
                   then w else w ++ [WarnUnknownType (TrimSpace l)])
                  after eq_refl) as [w1 Hw1].
      exists w1. intros rest. cbn [app]. rewrite scanManifest_step, Ec.
      apply Hw1.
    + destruct (nested n) as [here|] eqn:En; [|discriminate]. simpl in Hs.
      destruct (splice nested dir lines) as [after|] eqn:Ea; [|discriminate].
      injection Hs as <-.
      destruct (Hrec n acc w here En) as [w1 Hw1].
      destruct (IH (acc ++ here) w1 after eq_refl) as [w2 Hw2].
      exists w2. intros rest. cbn [app]. rewrite scanManifest_step, Ec, Hw1.
      rewrite Hw2, <- app_assoc. reflexivity.
    + destruct (splice nested dir lines) as [after|] eqn:Ea; [|discriminate].
      injection Hs as <-.
      destruct (IH (acc ++ [p])
                  (if debug then w ++ [AddingSQL (TrimSpace l)] else w)
                  after eq_refl) as [w1 Hw1].
      exists w1. intros rest. cbn [app]. rewrite scanManifest_step, Ec.
      rewrite Hw1, <- app_assoc. reflexivity.
Qed.

(** Complete lines that fit into the buffer are all delivered. *)
Lemma scanLines_unlines (texts : list gostring) (tail : gostring) :
  Forall scannable texts ->
  scanLines (unlines texts ++ tail)
  = (map dropCR texts ++ fst (scanLines tail), snd (scanLines tail)).
Proof.
  unfold scanLines. induction 1 as [|text texts [Hno Hfit] _ IH].
  - simpl. now destruct (scanLinesFrom [] tail).
  - cbn [unlines flat_map]. fold (unlines texts).
    rewrite <- !app_assoc. rewrite scanLinesFrom_line_app by assumption.
    rewrite IH. reflexivity.
Qed.

(** X10: a line of a manifest that does not fit into the buffer of the
    line scanner ends the reading of that manifest with a read error:
    the files of the lines before it have been collected, those of the
    lines after it are not, and the error names the manifest. *)
Theorem long_line_is_a_read_error (free : nat)
    (manifest long rest : gostring) (texts before sqlfiles : list gostring)
    (w : list message) (debug : bool) :
  ReadFile manifest = Some (unlines texts ++ long ++ rest) ->
  Forall scannable texts ->
  ~ In rLF long -> MaxScanTokenSize <= byteLen long ->
  splice (resolve free) (Dir manifest) (map dropCR texts) = Some before ->
  exists w',
    processWithWriter (S free) manifest sqlfiles w debug
    = (sqlfiles ++ before, w', Some (ErrorReadingFile manifest TokenTooLong)).
Proof.
  intros Hread Htexts Hno Hlong Hbefore. cbn [processWithWriter].
  rewrite Hread, (scanLines_unlines texts (long ++ rest) Htexts).
  rewrite (scanLines_too_long long rest Hno Hlong). cbn [fst snd].
  rewrite app_nil_r.
  destruct (scanManifest_splice
              (fun p acc w0 => processWithWriter free p acc w0 debug)
              (resolve free) (Dir manifest) debug
              (fun p acc w0 files Hres =>
                 processWithWriter_resolves free p acc w0 debug files Hres)
              (map dropCR texts) sqlfiles
              (w ++ [ProcessingFile manifest (Dir manifest)]) before Hbefore)
    as [w' ->].
  eauto.
Qed.

(** X11: when a nested manifest cannot be opened, resolution stops there
    with the error of that manifest: the files listed before it have
    been collected, those listed after it are not. *)
Theorem missing_nested_manifest (free : nat) (manifest content text q : gostring)
    (pre post before sqlfiles : list gostring) (w : list message) (debug : bool) :
  ReadFile manifest = Some content ->
  fst (scanLines content) = pre ++ text :: post ->
  splice (resolve (S free)) (Dir manifest) pre = Some before ->
  classify (Dir manifest) text = NestedManifest q ->
  ReadFile q = None ->
  exists w',
    processWithWriter (S (S free)) manifest sqlfiles w debug
    = (sqlfiles ++ before, w', Some (OsError q)).
Proof.
  intros Hread Hlines Hpre Hnested Hq.
  change (processWithWriter (S (S free)) manifest sqlfiles w debug)
    with (match ReadFile manifest with
          | None =>
              (sqlfiles, w ++ [ErrOpening (OsError manifest)],
               Some (OsError manifest))
          | Some content0 =>
              let '(lines, tooLong) := scanLines content0 in
              match scanManifest
                      (fun p acc w0 => processWithWriter (S free) p acc w0 debug)
                      (Dir manifest) debug lines sqlfiles
                      (w ++ [ProcessingFile manifest (Dir manifest)]) with
              | (sqlfiles', w', Some err) => (sqlfiles', w', Some err)
              | (sqlfiles', w', None) =>
                  if tooLong
                  then (sqlfiles', w',
                        Some (ErrorReadingFile manifest TokenTooLong))
                  else (sqlfiles', w', None)
              end
          end).
  rewrite Hread. destruct (scanLines content) as [lines tooLong].
  cbn [fst] in Hlines. subst lines.
  destruct (scanManifest_splice_prefix
              (fun p acc w0 => processWithWriter (S free) p acc w0 debug)
              (resolve (S free)) (Dir manifest) debug
              (fun p acc w0 files Hres =>
                 processWithWriter_resolves (S free) p acc w0 debug files Hres)
              pre sqlfiles (w ++ [ProcessingFile manifest (Dir manifest)])
              before Hpre) as [w1 Hw1].
  rewrite Hw1, scanManifest_step, Hnested.
  cbn [processWithWriter]. rewrite Hq. eauto.
Qed.

End ResolverMore.

(* ===================================================================== *)
(** * Further properties: the applied-state registry                      *)
(* ===================================================================== *)

Section RegistryMore.
Context `{OS} {B : Type} `{DatabaseExecutor B}.

Implicit Types w : world B.

Lemma collectRows_snoc (rows : list (gmap (list Z) value))
    (row : gmap (list Z) value) :
  collectRows (rows ++ [row]) =
  if negb (isEmpty (rowVersion row))
  then <[rowVersion row := rowChecksum row]> (collectRows rows)
  else collectRows rows.
Proof. unfold collectRows. rewrite fold_left_app. reflexivity. Qed.

Lemma snoc_split {A : Type} (before after rows : list A) (row r : A) :
  before ++ row :: after = rows ++ [r] ->
  (after = [] /\ row = r /\ before = rows)
  \/ exists after', after = after' ++ [r] /\ rows = before ++ row :: after'.
Proof.
  intros Heq. destruct after as [|a after] using rev_ind.
  - left. apply app_inj_tail in Heq as [-> ->]. auto.
  - right.
    change (before ++ row :: after ++ [a])
      with (before ++ (row :: after) ++ [a]) in Heq.
    rewrite app_assoc in Heq. apply app_inj_tail in Heq as [Hrows ->].
    exists after. split; [reflexivity | symmetry; exact Hrows].
Qed.

Lemma collectRows_lookup (rows : list (gmap (list Z) value)) (v c : gostring) :
  collectRows rows !! v = Some c <->
  v <> []
  /\ exists before row after,
       rows = before ++ row :: after
       /\ rowVersion row = v /\ rowChecksum row = c
       /\ forall r, In r after -> rowVersion r <> v.
Proof.
  induction rows as [|r rows IH] using rev_ind.
  - unfold collectRows. simpl. rewrite lookup_empty. split; [discriminate|].
    intros (_ & before & row & after & Heq & _). destruct before; discriminate.
  - rewrite collectRows_snoc.
    destruct (isEmpty (rowVersion r)) eqn:Er; cbn [negb].
    + apply isEmpty_true in Er. rewrite IH. split.
      * intros (Hv & before & row & after & -> & Hrv & Hrc & Hafter).
        split; [exact Hv|]. exists before, row, (after ++ [r]).
        rewrite <- app_assoc. repeat split; auto.
        intros r' Hin. apply in_app_iff in Hin as [Hin | [<- | []]];
          [now apply Hafter | congruence].
      * intros (Hv & before & row & after & Heq & Hrv & Hrc & Hafter).
        split; [exact Hv|].
        symmetry in Heq. apply snoc_split in Heq as [(-> & -> & ->) | (after' & -> & ->)];
          [congruence|].
        exists before, row, after'. repeat split; auto.
        intros r' Hin. apply Hafter. apply in_app_iff. now left.
    + apply isEmpty_false in Er.
      destruct (decide (rowVersion r = v)) as [Heq | Hne].
      * rewrite Heq, lookup_insert_eq. split.
        -- intros [= <-]. split; [congruence|].
           exists rows, r, []. repeat split; auto.
        -- intros (_ & before & row & after & Hrows & Hrv & Hrc & Hafter).
           symmetry in Hrows. apply snoc_split in Hrows as [(-> & -> & ->) | (after' & -> & ->)].
           ++ congruence.
           ++ exfalso. apply (Hafter r); [|exact Heq].
              apply in_app_iff. right. now left.
      * rewrite lookup_insert_ne by exact Hne. rewrite IH. split.
        -- intros (Hv & before & row & after & -> & Hrv & Hrc & Hafter).
           split; [exact Hv|]. exists before, row, (after ++ [r]).
           rewrite <- app_assoc. repeat split; auto.
           intros r' Hin. apply in_app_iff in Hin as [Hin | [<- | []]];
             [now apply Hafter | exact Hne].
        -- intros (Hv & before & row & after & Heq & Hrv & Hrc & Hafter).
           split; [exact Hv|].
           symmetry in Heq. apply snoc_split in Heq as [(-> & -> & ->) | (after' & -> & ->)];
             [congruence|].
           exists before, row, after'. repeat split; auto.
           intros r' Hin. apply Hafter. apply in_app_iff. now left.
Qed.

(** X12: when the query succeeds, the mapping of [getAppliedMigrations]
    holds, for every version that is not empty, the checksum of the last
    row with that version, and nothing else: rows without a version are
    left out, and of two rows with one version the later one counts. *)
Theorem applied_migrations_last_row_wins w (b : B)
    (rows : list (gmap (list Z) value)) :
  Query (backend w) (go "SELECT version, checksum FROM schema_versions")
  = (b, rows, None) ->
  let loaded := snd (fst (getAppliedMigrations w)) in
  snd (getAppliedMigrations w) = None
  /\ loaded !! [] = None
  /\ forall v c,
       loaded !! v = Some c <->
       v <> []
       /\ exists before row after,
            rows = before ++ row :: after
            /\ rowVersion row = v /\ rowChecksum row = c
            /\ forall r, In r after -> rowVersion r <> v.
Proof.
  intros Hq. cbv zeta. unfold getAppliedMigrations. rewrite Hq. cbn [fst snd].
  fold (collectRows rows). split; [reflexivity|]. split.
  - destruct (collectRows rows !! []) as [c|] eqn:E; [|reflexivity].
    apply collectRows_lookup in E as [Hne _]. contradiction.
  - apply collectRows_lookup.
Qed.

End RegistryMore.

(* ===================================================================== *)
(** * Further properties: the file loop                                   *)
(* ===================================================================== *)

Section LoopMore.
Context `{OS} {B : Type} `{DatabaseExecutor B}.

Implicit Types w : world B.

Lemma applyMigration_outcome (cfg : RunConfig) (sqlFile : gostring)
    (info : MigrationInfo) w :
  snd (applyMigration cfg sqlFile info w) <> Skipped.
Proof.
  pose proof (applyMigration_cases cfg sqlFile info w) as Happ.
  cbv zeta in Happ.
  destruct (snd (executeSQLWithWriter sqlFile (Debug cfg) w)) as [e|].
  - rewrite Happ. discriminate.
  - destruct Happ as [-> _]. discriminate.
Qed.

Lemma migrateFile_forced (cfg : RunConfig) (applied : gmap (list Z) (list Z))
    (sqlFile : gostring) w :
  Force cfg = true -> snd (migrateFile cfg applied sqlFile w) <> Skipped.
Proof.
  intros Hforce.
  pose proof (migrateFile_decision cfg applied sqlFile w) as Hdec.
  cbv zeta in Hdec. unfold decideFile in Hdec. rewrite Hforce in Hdec.
  destruct (isEmpty (Version (fst (parseMigrationInfo sqlFile))));
    rewrite Hdec; apply applyMigration_outcome.
Qed.

(** X13: when the file loop comes to its end, every file has been counted
    once, as applied or as skipped; under the force flag none is
    skipped. *)
Theorem every_file_is_counted (cfg : RunConfig)
    (appliedMigrations : gmap (list Z) (list Z)) (sqlfiles : list gostring)
    (nA nS a s : nat) w (w' : world B) :
  migrateFiles cfg appliedMigrations sqlfiles nA nS w = (w', Some (a, s)) ->
  (a + s = nA + nS + length sqlfiles)%nat
  /\ (nA <= a)%nat /\ (nS <= s)%nat
  /\ (Force cfg = true -> s = nS /\ a = (nA + length sqlfiles)%nat).
Proof.
  revert nA nS w. induction sqlfiles as [|f rest IH]; intros nA nS w Hm.
  - simpl in Hm. injection Hm as <- <- <-. simpl. repeat split; lia.
  - simpl in Hm.
    pose proof (migrateFile_forced cfg appliedMigrations f w) as Hforced.
    destruct (migrateFile cfg appliedMigrations f w) as [w1 []];
      [| |discriminate]; apply IH in Hm as (Hsum & Ha & Hs & Hf);
      cbn [length]; (split; [lia|]); (split; [lia|]); (split; [lia|]);
      intros Hforce.
    + destruct (Hf Hforce). lia.
    + exfalso. now apply Hforced.
Qed.

(** X14: a run is idempotent on what is recorded: without the force flag,
    when every file carries a version that the loaded mapping holds with
    the checksum of the file, the loop executes nothing, records nothing,
    writes no error and counts every file as skipped. *)
Theorem recorded_files_are_all_skipped (cfg : RunConfig)
    (appliedMigrations : gmap (list Z) (list Z)) (sqlfiles : list gostring)
    (nA nS : nat) w :
  Force cfg = false ->
  (forall f, In f sqlfiles ->
     Version (fst (parseMigrationInfo f)) <> []
     /\ appliedMigrations !! Version (fst (parseMigrationInfo f))
        = Some (Checksum (fst (parseMigrationInfo f)))) ->
  let r := migrateFiles cfg appliedMigrations sqlfiles nA nS w in
  snd r = Some (nA, (nS + length sqlfiles)%nat)
  /\ sameEffects w (fst r) /\ stderr (fst r) = stderr w.
Proof.
  intros Hforce. revert nA nS w.
  induction sqlfiles as [|f rest IH]; intros nA nS w Hall; cbv zeta.
  - simpl. replace (nS + 0)%nat with nS by lia. unfold sameEffects. auto.
  - destruct (Hall f (or_introl eq_refl)) as [Hv Hc].
    pose proof (migrateFile_decision cfg appliedMigrations f w) as Hdec.
    cbv zeta in Hdec. unfold decideFile in Hdec.
    apply isEmpty_false in Hv. rewrite Hv, Hforce, Hc in Hdec.
    replace (eqString (Checksum (fst (parseMigrationInfo f)))
                      (Checksum (fst (parseMigrationInfo f)))) with true in Hdec
      by (symmetry; now apply eqString_eq).
    destruct Hdec as (Hs & (Hb & Hi & Hl) & He).
    simpl migrateFiles.
    destruct (migrateFile cfg appliedMigrations f w) as [w1 o].
    simpl in Hs, Hb, Hi, Hl, He. subst o.
    destruct (IH nA (S nS) w1 (fun f' Hin => Hall f' (or_intror Hin)))
      as (Hr & (Hb' & Hi' & Hl') & He').
    cbn [length]. replace (nS + S (length rest))%nat
      with (S nS + length rest)%nat by lia.
    split; [exact Hr|]. unfold sameEffects. repeat split; congruence.
Qed.


(** Statements that went through without error were all executed. *)
Lemma executeStatements_none (stmts : list gostring) (i total : nat)
    (debug : bool) w :
  Forall trimmed stmts ->
  snd (executeStatements stmts i total debug w) = None ->
  executedAll (backend w) stmts
  = Some (backend (fst (executeStatements stmts i total debug w))).
Proof.
  revert i w. induction stmts as [|stmt rest IH]; intros i w Htr Hnone.
  - reflexivity.
  - apply Forall_cons in Htr as [[Hfix Hne] Htr].
    cbn [executeStatements executedAll] in *. rewrite Hfix, Hne in *.
    set (w1 := if debug then say (ExecutingStatement (i + 1) total) w else w) in *.
    assert (Hb1 : backend w1 = backend w) by (subst w1; destruct debug; reflexivity).
    pose proof (execute_effects stmt w1) as (Hb & Herr & _).
    destruct (execute stmt w1) as [w2 err]. simpl in Hb, Herr.
    rewrite Hb1 in Hb, Herr.
    destruct (Execute (backend w) stmt) as [b1 [e|]]; simpl in Hb, Herr;
      subst err; [discriminate|].
    rewrite <- Hb. now apply IH.
Qed.

(** X16: [executeSQLWithWriter] returns no error exactly when every
    statement of the file is accepted by the executor, one after the
    other; the statements issued are then those of the splitter, all of
    them, in order. *)
Theorem executeSQL_succeeds_iff_all_accepted (path content : gostring)
    (debug : bool) w :
  ReadFile path = Some content ->
  let r := executeSQLWithWriter path debug w in
  (snd r = None <->
   is_Some (executedAll (backend w) (splitSQLStatements content)))
  /\ (snd r = None ->
      executedAll (backend w) (splitSQLStatements content)
      = Some (backend (fst r))
      /\ issued (fst r) = issued w ++ splitSQLStatements content).
Proof.
  intros Hread. cbv zeta. unfold executeSQLWithWriter. rewrite Hread.
  pose proof (split_all_trimmed content) as Htr.
  set (stmts := splitSQLStatements content) in *.
  pose proof (executeStatements_none stmts 0 (length stmts) debug
                (say (ExecutingFile path) w) Htr) as Hnone.
  assert (Hok : forall b', executedAll (backend w) stmts = Some b' ->
            snd (executeStatements stmts 0 (length stmts) debug
                   (say (ExecutingFile path) w)) = None
            /\ issued (fst (executeStatements stmts 0 (length stmts) debug
                              (say (ExecutingFile path) w)))
               = issued w ++ stmts).
  { intros b' Hall.
    destruct (executeStatements_ok stmts 0 (length stmts) debug
                (say (ExecutingFile path) w) b' Htr Hall) as (Hs & _ & Hi).
    auto. }
  destruct (executeStatements stmts 0 (length stmts) debug
              (say (ExecutingFile path) w)) as [w2 [e|]]; simpl in *.
  - split; [|discriminate]. split; [discriminate|].
    intros [b' Hall]. destruct (Hok b' Hall). discriminate.
  - specialize (Hnone eq_refl). split.
    + split; [intros _; eauto | reflexivity].
    + intros _. split; [exact Hnone|]. now destruct (Hok _ Hnone).
Qed.

(** With or without the force flag, the loop body leaves the ledger alone
    or adds the row of the file, which then carries a version. *)
Lemma migrateFile_ledger_any (cfg : RunConfig) (applied : gmap (list Z) (list Z))
    (sqlFile : gostring) w :
  let info := fst (parseMigrationInfo sqlFile) in
  let r := migrateFile cfg applied sqlFile w in
  ledger (fst r) = ledger w
  \/ (ledger (fst r) = ledger w ++ [info] /\ Version info <> []).
Proof.
  cbv zeta.
  pose proof (migrateFile_decision cfg applied sqlFile w) as Hdec.
  pose proof (applyMigration_cases cfg sqlFile (fst (parseMigrationInfo sqlFile))
                (afterParse sqlFile w)) as Happ.
  pose proof (executeSQLWithWriter_ledger sqlFile (Debug cfg)
                (afterParse sqlFile w)) as [Hl _].
  destruct (afterParse_effects sqlFile w) as [(_ & _ & Hlp) _].
  cbv zeta in Hdec, Happ.
  assert (Happly : migrateFile cfg applied sqlFile w
                   = applyMigration cfg sqlFile (fst (parseMigrationInfo sqlFile))
                       (afterParse sqlFile w) ->
          ledger (fst (migrateFile cfg applied sqlFile w)) = ledger w
          \/ (ledger (fst (migrateFile cfg applied sqlFile w))
              = ledger w ++ [fst (parseMigrationInfo sqlFile)]
              /\ Version (fst (parseMigrationInfo sqlFile)) <> [])).
  { intros ->.
    destruct (snd (executeSQLWithWriter _ _ _)) as [e|].
    - left. rewrite Happ. simpl. congruence.
    - destruct Happ as (_ & _ & Hrec).
      destruct (isEmpty (Version (fst (parseMigrationInfo sqlFile)))) eqn:Ev.
      + left. rewrite Hrec. congruence.
      + destruct Hrec as (_ & _ & Hled). rewrite Hlp in Hled.
        destruct (snd (Execute _ _)); [now left | right].
        split; [exact Hled | now apply isEmpty_false]. }
  destruct (decideFile (Force cfg) (fst (parseMigrationInfo sqlFile)) applied);
    try (now apply Happly).
  - left. now destruct Hdec as (_ & (_ & _ & Hled) & _).
  - left. now destruct Hdec as (_ & (_ & _ & Hled)).
Qed.

(** X17: the ledger is append-only for a run: the rows it held stay, in
    their order, and every row added is the metadata of a file of the
    list that carries a version. *)
Theorem ledger_is_append_only (cfg : RunConfig)
    (appliedMigrations : gmap (list Z) (list Z)) (sqlfiles : list gostring)
    (nA nS : nat) w :
  exists added,
    ledger (fst (migrateFiles cfg appliedMigrations sqlfiles nA nS w))
    = ledger w ++ added
    /\ forall row, In row added ->
         Version row <> []
         /\ exists f, In f sqlfiles /\ row = fst (parseMigrationInfo f).
Proof.
  revert nA nS w. induction sqlfiles as [|f rest IH]; intros nA nS w.
  - exists []. simpl. rewrite app_nil_r. split; [reflexivity | intros row []].
  - simpl migrateFiles.
    pose proof (migrateFile_ledger_any cfg appliedMigrations f w) as Hstep.
    cbv zeta in Hstep.
    assert (Hfirst : exists added1,
              ledger (fst (migrateFile cfg appliedMigrations f w))
              = ledger w ++ added1
              /\ forall row, In row added1 ->
                   Version row <> [] /\ row = fst (parseMigrationInfo f)).
    { destruct Hstep as [-> | [-> Hv]].
      - exists []. rewrite app_nil_r. split; [reflexivity | intros row []].
      - eexists. split; [reflexivity|]. intros row [<- | []]. auto. }
    destruct Hfirst as (added1 & Hl1 & Hrows1).
    destruct (migrateFile cfg appliedMigrations f w) as [w1 o]. simpl in Hl1.
    assert (Hstop : exists added,
              ledger w1 = ledger w ++ added
              /\ forall row, In row added ->
                   Version row <> []
                   /\ exists f', In f' (f :: rest)
                                 /\ row = fst (parseMigrationInfo f')).
    { exists added1. split; [exact Hl1|]. intros row Hin.
      destruct (Hrows1 row Hin) as [Hv ->]. split; [exact Hv|].
      exists f. split; [now left | reflexivity]. }
    assert (Hgo : forall a s, exists added,
              ledger (fst (migrateFiles cfg appliedMigrations rest a s w1))
              = ledger w ++ added
              /\ forall row, In row added ->
                   Version row <> []
                   /\ exists f', In f' (f :: rest)
                                 /\ row = fst (parseMigrationInfo f')).
    { intros a s. destruct (IH a s w1) as (added2 & Hl2 & Hrows2).
      exists (added1 ++ added2). rewrite Hl2, Hl1, <- app_assoc.
      split; [reflexivity|]. intros row Hin.
      apply in_app_iff in Hin as [Hin | Hin].
      - destruct (Hrows1 row Hin) as [Hv ->]. split; [exact Hv|].
        exists f. split; [now left | reflexivity].
      - destruct (Hrows2 row Hin) as (Hv & f' & Hf' & ->). split; [exact Hv|].
        exists f'. split; [now right | reflexivity]. }
    destruct o; [apply Hgo | apply Hgo | exact Hstop].
Qed.

End LoopMore.

(* ===================================================================== *)
(** * Further properties: the run as a whole                              *)
(* ===================================================================== *)

Section RunMore.
Context `{OS} {B : Type} `{DatabaseExecutor B}.

Implicit Types w : world B.

Lemma sameButStdout_say (m1 : list message) w1 w2 :
  sameButStdout w1 w2 ->
  sameButStdout
    (World (backend w1) (issued w1) (ledger w1) m1 (stderr w1)) w2.
Proof. unfold sameButStdout. simpl. auto. Qed.

Lemma sameButStdout_sym w1 w2 : sameButStdout w1 w2 -> sameButStdout w2 w1.
Proof. unfold sameButStdout. intuition congruence. Qed.

Lemma sameButStdout_trans w1 w2 w3 :
  sameButStdout w1 w2 -> sameButStdout w2 w3 -> sameButStdout w1 w3.
Proof. unfold sameButStdout. intuition congruence. Qed.

Lemma sameButStdout_optional_say (b1 b2 : bool) (m1 m2 : message) w1 w2 :
  sameButStdout w1 w2 ->
  sameButStdout (if b1 then say m1 w1 else w1) (if b2 then say m2 w2 else w2).
Proof. unfold sameButStdout. destruct b1, b2; simpl; auto. Qed.

Lemma sameButStdout_complain (m : message) w1 w2 :
  sameButStdout w1 w2 -> sameButStdout (complain m w1) (complain m w2).
Proof. unfold sameButStdout. simpl. intuition congruence. Qed.

Lemma execute_same (sql : gostring) w1 w2 :
  sameButStdout w1 w2 ->
  snd (execute sql w1) = snd (execute sql w2)
  /\ sameButStdout (fst (execute sql w1)) (fst (execute sql w2)).
Proof.
  intros (Hb & Hi & Hl & He). unfold execute. rewrite Hb.
  destruct (Execute (backend w2) sql) as [b err]. unfold sameButStdout.
  simpl. repeat split; congruence.
Qed.

Lemma executeStatements_same (stmts : list gostring) (i t1 t2 : nat)
    (d1 d2 : bool) w1 w2 :
  sameButStdout w1 w2 ->
  snd (executeStatements stmts i t1 d1 w1) = snd (executeStatements stmts i t2 d2 w2)
  /\ sameButStdout (fst (executeStatements stmts i t1 d1 w1))
                   (fst (executeStatements stmts i t2 d2 w2)).
Proof.
  revert i w1 w2. induction stmts as [|text rest IH]; intros i w1 w2 Hs.
  - simpl. auto.
  - cbn [executeStatements]. destruct (isEmpty (TrimSpace text)); [now apply IH|].
    pose proof (sameButStdout_optional_say d1 d2
                  (ExecutingStatement (i + 1) t1) (ExecutingStatement (i + 1) t2)
                  w1 w2 Hs) as Hs1.
    destruct (execute_same (TrimSpace text) _ _ Hs1) as [Herr Hs2].
    destruct (execute (TrimSpace text)
                (if d1 then say (ExecutingStatement (i + 1) t1) w1 else w1))
      as [u1 e1],
      (execute (TrimSpace text)
                (if d2 then say (ExecutingStatement (i + 1) t2) w2 else w2))
      as [u2 e2].
    simpl in Herr, Hs2. subst e2. destruct e1; [simpl; auto | now apply IH].
Qed.

Lemma executeSQLWithWriter_same (path : gostring) (d1 d2 : bool) w1 w2 :
  sameButStdout w1 w2 ->
  snd (executeSQLWithWriter path d1 w1) = snd (executeSQLWithWriter path d2 w2)
  /\ sameButStdout (fst (executeSQLWithWriter path d1 w1))
                   (fst (executeSQLWithWriter path d2 w2)).
Proof.
  intros Hs. unfold executeSQLWithWriter.
  assert (Hs1 : sameButStdout (say (ExecutingFile path) w1)
                              (say (ExecutingFile path) w2))
    by (destruct Hs as (? & ? & ? & ?); unfold sameButStdout; simpl; auto).
  destruct (ReadFile path) as [sql|]; [|simpl; auto].
  destruct (executeStatements_same (splitSQLStatements sql) 0
              (length (splitSQLStatements sql)) (length (splitSQLStatements sql))
              d1 d2 _ _ Hs1) as [Herr Hs2].
  destruct (executeStatements _ _ _ d1 _) as [u1 e1],
           (executeStatements _ _ _ d2 _) as [u2 e2].
  simpl in Herr, Hs2. subst e2. destruct e1; simpl; [auto|].
  split; [reflexivity|].
  destruct Hs2 as (? & ? & ? & ?). unfold sameButStdout. simpl. auto.
Qed.

Lemma recordMigration_same (info : MigrationInfo) w1 w2 :
  sameButStdout w1 w2 ->
  snd (recordMigration info w1) = snd (recordMigration info w2)
  /\ sameButStdout (fst (recordMigration info w1)) (fst (recordMigration info w2)).
Proof.
  intros Hs. unfold recordMigration.
  destruct (execute_same (insertSQL info) _ _ Hs) as [Herr Hs2].
  destruct (execute (insertSQL info) w1) as [u1 e1],
           (execute (insertSQL info) w2) as [u2 e2].
  simpl in Herr, Hs2. subst e2. destruct e1; simpl; [auto|].
  split; [reflexivity|].
  destruct Hs2 as (? & ? & ? & ?). unfold sameButStdout. simpl.
  repeat split; congruence.
Qed.

Lemma applyMigration_same (cfg1 cfg2 : RunConfig) (sqlFile : gostring)
    (info : MigrationInfo) w1 w2 :
  sameButStdout w1 w2 ->
  snd (applyMigration cfg1 sqlFile info w1)
  = snd (applyMigration cfg2 sqlFile info w2)
  /\ sameButStdout (fst (applyMigration cfg1 sqlFile info w1))
                   (fst (applyMigration cfg2 sqlFile info w2)).
Proof.
  intros Hs. unfold applyMigration.
  destruct (executeSQLWithWriter_same sqlFile (Debug cfg1) (Debug cfg2) _ _ Hs)
    as [Herr Hs1].
  destruct (executeSQLWithWriter sqlFile (Debug cfg1) w1) as [u1 e1],
           (executeSQLWithWriter sqlFile (Debug cfg2) w2) as [u2 e2].
  simpl in Herr, Hs1. subst e2. destruct e1 as [e|].
  - simpl. split; [reflexivity | now apply sameButStdout_complain].
  - destruct (isEmpty (Version info)); simpl; [auto|].
    destruct (recordMigration_same info _ _ Hs1) as [Hrerr Hs2].
    destruct (recordMigration info u1) as [v1 r1],
             (recordMigration info u2) as [v2 r2].
    simpl in Hrerr, Hs2. subst r2. destruct r1; simpl; [|auto].
    split; [reflexivity|].
    destruct Hs2 as (? & ? & ? & ?). unfold sameButStdout. simpl. auto.
Qed.

Lemma migrateFile_same (cfg1 cfg2 : RunConfig)
    (applied : gmap (list Z) (list Z)) (sqlFile : gostring) w1 w2 :
  Force cfg1 = Force cfg2 -> sameButStdout w1 w2 ->
  snd (migrateFile cfg1 applied sqlFile w1)
  = snd (migrateFile cfg2 applied sqlFile w2)
  /\ sameButStdout (fst (migrateFile cfg1 applied sqlFile w1))
                   (fst (migrateFile cfg2 applied sqlFile w2)).
Proof.
  intros Hforce Hs. unfold migrateFile. rewrite Hforce.
  destruct (parseMigrationInfo sqlFile) as [info err].
  set (u1 := match err with Some e => say (WarnParse sqlFile e) w1 | None => w1 end).
  set (u2 := match err with Some e => say (WarnParse sqlFile e) w2 | None => w2 end).
  assert (Hu : sameButStdout u1 u2).
  { subst u1 u2. destruct err; [|exact Hs].
    destruct Hs as (? & ? & ? & ?). unfold sameButStdout. simpl. auto. }
  destruct (negb (Force cfg2) && negb (isEmpty (Version info)));
    [|now apply applyMigration_same].
  destruct (applied !! Version info) as [existing|];
    [|now apply applyMigration_same].
  destruct (eqString existing (Checksum info)); simpl.
  - split; [reflexivity|]. now apply sameButStdout_optional_say.
  - split; [reflexivity|]. now repeat apply sameButStdout_complain.
Qed.

Lemma migrateFiles_same (cfg1 cfg2 : RunConfig)
    (applied : gmap (list Z) (list Z)) (sqlfiles : list gostring)
    (nA nS : nat) w1 w2 :
  Force cfg1 = Force cfg2 -> sameButStdout w1 w2 ->
  snd (migrateFiles cfg1 applied sqlfiles nA nS w1)
  = snd (migrateFiles cfg2 applied sqlfiles nA nS w2)
  /\ sameButStdout (fst (migrateFiles cfg1 applied sqlfiles nA nS w1))
                   (fst (migrateFiles cfg2 applied sqlfiles nA nS w2)).
Proof.
  intros Hforce. revert nA nS w1 w2.
  induction sqlfiles as [|f rest IH]; intros nA nS w1 w2 Hs; [simpl; auto|].
  simpl. destruct (migrateFile_same cfg1 cfg2 applied f w1 w2 Hforce Hs)
    as [Ho Hs1].
  destruct (migrateFile cfg1 applied f w1) as [u1 o1],
           (migrateFile cfg2 applied f w2) as [u2 o2].
  simpl in Ho, Hs1. subst o2. destruct o1; [now apply IH | now apply IH | auto].
Qed.

Lemma resolveAndMigrate_same (free : nat) (cfg1 cfg2 : RunConfig)
    (applied : gmap (list Z) (list Z)) w1 w2 :
  Path cfg1 = Path cfg2 -> Force cfg1 = Force cfg2 -> sameButStdout w1 w2 ->
  sameRun (resolveAndMigrate free cfg1 applied w1)
          (resolveAndMigrate free cfg2 applied w2).
Proof.
  intros Hpath Hforce Hs. unfold resolveAndMigrate, sameRun. rewrite Hpath.
  pose proof (processWithWriter_sameResolution free (Path cfg2) []
                (stdout w1) (stdout w2) (Debug cfg1) (Debug cfg2)) as Hres.
  unfold sameResolution in Hres.
  destruct (processWithWriter free (Path cfg2) [] (stdout w1) (Debug cfg1))
    as [[f1 o1] e1],
    (processWithWriter free (Path cfg2) [] (stdout w2) (Debug cfg2))
    as [[f2 o2] e2]. cbn [fst snd] in Hres.
  destruct Hres as [<- <-].
  assert (Hs1 : sameButStdout
                  (World (backend w1) (issued w1) (ledger w1) o1 (stderr w1))
                  (World (backend w2) (issued w2) (ledger w2) o2 (stderr w2)))
    by (destruct Hs as (? & ? & ? & ?); unfold sameButStdout; simpl; auto).
  destruct e1 as [e|].
  - simpl. split; [reflexivity | now apply sameButStdout_complain].
  - destruct (migrateFiles_same cfg1 cfg2 applied f1 0 0 _ _ Hforce Hs1)
      as [Hc Hs2].
    destruct (migrateFiles cfg1 applied f1 0 0 _) as [u1 c1],
             (migrateFiles cfg2 applied f1 0 0 _) as [u2 c2].
    simpl in Hc, Hs2. subst c2. destruct c1 as [[a s]|]; simpl; [|auto].
    split; [reflexivity|].
    destruct Hs2 as (? & ? & ? & ?). unfold sameButStdout. simpl. auto.
Qed.

(** X18: the debug flag changes what is written to the standard output
    and nothing else: with and without it a run ends with the same
    status, the same executor, the same statements issued, the same
    ledger and the same error output. *)
Theorem debug_flag_only_changes_stdout (free : nat) (cfg : RunConfig) w :
  sameRun (run free cfg w)
          (run free {| Path := Path cfg; Force := Force cfg; Debug := false |} w).
Proof.
  unfold run, getAppliedMigrations.
  destruct (Query (backend w) (go "SELECT version, checksum FROM schema_versions"))
    as [[b rows] [e|]].
  - apply resolveAndMigrate_same; try reflexivity.
    cbn [Debug]. destruct (Debug cfg); unfold sameButStdout; simpl; auto.
  - apply resolveAndMigrate_same; try reflexivity.
    unfold sameButStdout. auto.
Qed.

(** X19: the manifests are all read before the first statement is
    executed: when the resolution of the manifest ends with an error, the
    run ends with status 1 after the ledger query, no statement has been
    issued and no row recorded. *)
Theorem unresolved_manifest_leaves_database_untouched (free : nat)
    (cfg : RunConfig) w (files : list gostring) (out : list message)
    (e : error) :
  processWithWriter free (Path cfg) [] [] false = (files, out, Some e) ->
  exists w',
    run free cfg w = (w', 1)
    /\ issued w' = issued w /\ ledger w' = ledger w
    /\ stderr w' = stderr w ++ [ErrProcessingIndex e]
    /\ backend w'
       = fst (fst (Query (backend w)
                     (go "SELECT version, checksum FROM schema_versions"))).
Proof.
  intros Hres.
  assert (Hany : forall applied u,
            exists w', resolveAndMigrate free cfg applied u = (w', 1)
                       /\ issued w' = issued u /\ ledger w' = ledger u
                       /\ stderr w' = stderr u ++ [ErrProcessingIndex e]
                       /\ backend w' = backend u).
  { intros applied u. unfold resolveAndMigrate.
    pose proof (processWithWriter_sameResolution free (Path cfg) []
                  [] (stdout u) false (Debug cfg)) as Hsame.
    unfold sameResolution in Hsame. rewrite Hres in Hsame.
    destruct (processWithWriter free (Path cfg) [] (stdout u) (Debug cfg))
      as [[f2 o2] e2]. cbn [fst snd] in Hsame.
    destruct Hsame as [_ <-]. eexists. split; [reflexivity|]. simpl. auto. }
  unfold run, getAppliedMigrations.
  destruct (Query (backend w) (go "SELECT version, checksum FROM schema_versions"))
    as [[b rows] [qe|]]; cbn [fst].
  - destruct (Hany ∅ (if Debug cfg
                      then say (NoteCouldNotQuery (BackendError qe))
                             (World b (issued w) (ledger w) (stdout w) (stderr w))
                      else World b (issued w) (ledger w) (stdout w) (stderr w)))
      as (w' & -> & Hi & Hl & He & Hb).
    exists w'. split; [reflexivity|].
    destruct (Debug cfg); simpl in *; auto.
  - match goal with |- context [resolveAndMigrate free cfg ?a ?u] =>
      destruct (Hany a u) as (w' & -> & Hi & Hl & He & Hb) end.
    exists w'. simpl in *. auto.
Qed.

End RunMore.

(* ===================================================================== *)
(** * Further properties: connection defaults                             *)
(* ===================================================================== *)

Section ConnectionFacts.

Lemma connection_eq (c d : connection) :
  Engine c = Engine d -> Port c = Port d -> User c = User d ->
  Database c = Database d -> c = d.
Proof. destruct c, d. simpl. congruence. Qed.

Lemma applyDefaults_fields (k : executorKind) (cfg : connection) :
  let cfg' := applyDefaultsWithConfig k cfg in
  Engine cfg' = Engine cfg
  /\ Port cfg' = (if Port cfg =? 0 then DefaultPort k else Port cfg)
  /\ User cfg'
     = (if eqString (Engine cfg) (go "clickhouse") && isEmpty (User cfg)
        then go "default" else User cfg)
  /\ Database cfg'
     = (if eqString (Engine cfg) (go "clickhouse") && isEmpty (Database cfg)
        then go "default" else Database cfg).
Proof.
  destruct cfg as [engine port user database]. unfold applyDefaultsWithConfig.
  cbn [Engine Port User Database].
  destruct (port =? 0); cbn [Engine Port User Database];
    destruct (eqString engine (go "clickhouse")); cbn [andb];
    destruct (isEmpty user); cbn [Engine Port User Database];
    destruct (isEmpty database); cbn [Engine Port User Database];
    repeat split; reflexivity.
Qed.

Lemma isEmpty_default : isEmpty (go "default") = false.
Proof. reflexivity. Qed.

(** X20: the defaults fill in what was left unset and nothing else: the
    engine is never changed, a port other than 0 is kept, and so are a
    user and a database that are not empty. *)
Theorem defaults_keep_what_is_set (k : executorKind) (cfg : connection) :
  let cfg' := applyDefaultsWithConfig k cfg in
  Engine cfg' = Engine cfg
  /\ (Port cfg <> 0 -> Port cfg' = Port cfg)
  /\ (User cfg <> [] -> User cfg' = User cfg)
  /\ (Database cfg <> [] -> Database cfg' = Database cfg).
Proof.
  destruct (applyDefaults_fields k cfg) as (He & Hp & Hu & Hd).
  cbv zeta. rewrite He, Hp, Hu, Hd. split; [reflexivity|]. split; [|split].
  - intros Hne. apply Z.eqb_neq in Hne. now rewrite Hne.
  - intros Hne. destruct (User cfg); [contradiction|].
    now rewrite andb_false_r.
  - intros Hne. destruct (Database cfg); [contradiction|].
    now rewrite andb_false_r.
Qed.

(** X21: applying the defaults a second time changes nothing. *)
Theorem defaults_applied_twice (k : executorKind) (cfg : connection) :
  applyDefaultsWithConfig k (applyDefaultsWithConfig k cfg)
  = applyDefaultsWithConfig k cfg.
Proof.
  destruct (applyDefaults_fields k cfg) as (He & Hp & Hu & Hd).
  destruct (applyDefaults_fields k (applyDefaultsWithConfig k cfg))
    as (He2 & Hp2 & Hu2 & Hd2).
  cbv zeta in *. apply connection_eq.
  - exact He2.
  - rewrite Hp2, Hp. destruct k. cbn [DefaultPort].
    destruct (Z.eqb_spec (Port cfg) 0) as [_|Hne]; [reflexivity|].
    apply Z.eqb_neq in Hne. now rewrite Hne.
  - rewrite Hu2, He, Hu.
    destruct (eqString (Engine cfg) (go "clickhouse")); [|reflexivity].
    cbn [andb]. destruct (isEmpty (User cfg)) eqn:E;
      [now rewrite isEmpty_default | now rewrite E].
  - rewrite Hd2, He, Hd.
    destruct (eqString (Engine cfg) (go "clickhouse")); [|reflexivity].
    cbn [andb]. destruct (isEmpty (Database cfg)) eqn:E;
      [now rewrite isEmpty_default | now rewrite E].
Qed.

(** X22: for an engine that [createExecutor] accepts, the settings that
    reach [Connect] are complete: the port is not 0 and neither the user
    nor the database is empty. *)
Theorem accepted_engine_connects_with_complete_settings
    (cfg : connection) (k : executorKind) :
  createExecutor (Engine cfg) = inl k ->
  let cfg' := applyDefaultsWithConfig k cfg in
  Port cfg' <> 0 /\ User cfg' <> [] /\ Database cfg' <> [].
Proof.
  intros Hk. unfold createExecutor in Hk.
  destruct (eqString (Engine cfg) (go "clickhouse")) eqn:E; [|discriminate].
  destruct (applyDefaults_fields k cfg) as (He & Hp & Hu & Hd).
  cbv zeta in *. rewrite Hp, Hu, Hd, E. cbn [andb]. split; [|split].
  - destruct k. cbn [DefaultPort].
    destruct (Z.eqb_spec (Port cfg) 0); [lia | assumption].
  - destruct (User cfg); [discriminate|]. cbn. discriminate.
  - destruct (Database cfg); [discriminate|]. cbn. discriminate.
Qed.

Lemma accepted_engine_connects_with_complete_settings_witness :
  let cfg' := applyDefaultsWithConfig ClickHouseExecutor
                {| Engine := go "clickhouse"; Port := 0;
                   User := []; Database := [] |} in
  Port cfg' <> 0 /\ User cfg' <> [] /\ Database cfg' <> [].
Proof.
  apply (accepted_engine_connects_with_complete_settings
           {| Engine := go "clickhouse"; Port := 0; User := []; Database := [] |}
           ClickHouseExecutor).
  reflexivity.
Defined.

End ConnectionFacts.

(* ===================================================================== *)
(** * Further properties: loading CSV data                                *)
(* ===================================================================== *)

Section CSVFacts.
Context `{OS} `{DataDir} {B : Type} `{DatabaseExecutor B}.

Implicit Types w : world B.

Lemma readRecords_inl (n : nat) (reads : list csvRead)
    (acc records : list (list gostring)) :
  readRecords n reads acc = inl records ->
  exists rows, reads = map CSVRecord rows
               /\ Forall (fun row => length row = n) rows
               /\ records = acc ++ rows.
Proof.
  revert acc. induction reads as [|[record|msg] rest IH]; intros acc; simpl.
  - intros [= <-]. exists []. rewrite app_nil_r. auto.
  - destruct (Nat.eqb_spec (length record) n) as [Hlen|]; [|discriminate].
    intros Hr. apply IH in Hr as (rows & -> & Hall & ->).
    exists (record :: rows). simpl. rewrite <- app_assoc. auto.
  - discriminate.
Qed.

Lemma readRecords_rows (n : nat) (rows acc : list (list gostring)) :
  Forall (fun row => length row = n) rows ->
  readRecords n (map CSVRecord rows) acc = inl (acc ++ rows).
Proof.
  intros Hall. revert acc. induction Hall as [|row rows Hrow _ IH]; intros acc.
  - simpl. now rewrite app_nil_r.
  - simpl. apply Nat.eqb_eq in Hrow. rewrite Hrow, IH, <- app_assoc.
    reflexivity.
Qed.

Lemma readRecords_rejected (n : nat) (rows acc : list (list gostring))
    (bad : csvRead) (rest : list csvRead) (e : csvError) :
  Forall (fun row => length row = n) rows ->
  rowError n bad = Some e ->
  readRecords n (map CSVRecord rows ++ bad :: rest) acc = inr e.
Proof.
  intros Hall Hbad. revert acc. induction Hall as [|row rows Hrow _ IH]; intros acc.
  - simpl. destruct bad as [record|msg]; simpl in Hbad.
    + destruct (length record =? n)%nat; congruence.
    + congruence.
  - simpl. apply Nat.eqb_eq in Hrow. now rewrite Hrow, IH.
Qed.

(** The two ways in which the loading of a file ends. *)
Lemma loadCSVFile_cases (csvPath tableName : gostring)
    (debug : bool) w (out : list csvMessage) :
  match loadCSVFileWithWriter csvPath tableName debug w out with
  | (w', out', err) =>
      (exists reads headers rows,
          OpenCSV csvPath = Some reads
          /\ wellFormedCSV reads headers rows /\ rows <> []
          /\ issued w' = issued w ++ [csvInsertSQL tableName headers rows]
          /\ ledger w' = ledger w
          /\ (err = None
              <-> snd (Execute (backend w) (csvInsertSQL tableName headers rows))
                  = None))
      \/ (w' = w
          /\ (err = None
              <-> exists headers,
                    OpenCSV csvPath = Some [CSVRecord headers] /\ headers <> []))
  end.
Proof.
  unfold loadCSVFileWithWriter.
  destruct (OpenCSV csvPath) as [[|[headers|msg] rest]|] eqn:Hopen.
  - right. split; [reflexivity|]. split; [discriminate|].
    intros (h & Heq & _). discriminate.
  - destruct headers as [|h0 hs].
    { right. cbn. split; [reflexivity|]. split; [discriminate|].
      intros (h & Heq & Hne). injection Heq as <- _. contradiction. }
    cbn [length Nat.eqb].
    destruct (readRecords (S (length hs)) rest []) as [records|e] eqn:Hread.
    + apply readRecords_inl in Hread as (rows & -> & Hall & ->).
      rewrite app_nil_l. destruct rows as [|row rows].
      * right. cbn. split; [reflexivity|]. split; [|reflexivity].
        intros _. exists (h0 :: hs). split; [reflexivity | discriminate].
      * cbn [length Nat.eqb]. unfold execute.
        destruct (Execute (backend w) (csvInsertSQL tableName (h0 :: hs) (row :: rows)))
          as [b err] eqn:Hexec.
        destruct err as [err|]; cbn [fmap option_fmap option_map]; left;
        exists (CSVRecord (h0 :: hs) :: map CSVRecord (row :: rows)),
               (h0 :: hs), (row :: rows).
        all: split; [reflexivity|]; split;
          [repeat split; [discriminate | exact Hall]|];
          split; [discriminate|]; split; [reflexivity|]; split; [reflexivity|];
          rewrite Hexec; cbn; split; intros Heq;
          first [reflexivity | discriminate].
    + right. split; [reflexivity|]. split; [discriminate|].
      intros (h & Heq & _). injection Heq as _ ->. discriminate.
  - right. split; [reflexivity|]. split; [discriminate|].
    intros (h & Heq & _). discriminate.
  - right. split; [reflexivity|]. split; [discriminate|].
    intros (h & Heq & _). discriminate.
Qed.

(** X23: a CSV file is loaded with one INSERT statement that holds all
    its rows, or not at all.  A file with a header and at least one row,
    every row as wide as the header, gets exactly one statement issued,
    the INSERT of all its rows into the table, and the call fails only
    if the executor rejects that statement.  For every other file the
    world is left as it was: nothing reaches the executor, and the call
    succeeds only for a file that holds a header and no row. *)
Theorem csv_file_one_insert_or_nothing (csvPath tableName : gostring)
    (debug : bool) w (out : list csvMessage) :
  let r := loadCSVFileWithWriter csvPath tableName debug w out in
  (forall reads headers rows,
      OpenCSV csvPath = Some reads ->
      wellFormedCSV reads headers rows -> rows <> [] ->
      backend (fst (fst r))
      = fst (Execute (backend w) (csvInsertSQL tableName headers rows))
      /\ issued (fst (fst r))
         = issued w ++ [csvInsertSQL tableName headers rows]
      /\ ledger (fst (fst r)) = ledger w
      /\ (snd r = None
          <-> snd (Execute (backend w) (csvInsertSQL tableName headers rows))
              = None))
  /\ ((forall reads headers rows,
         OpenCSV csvPath = Some reads ->
         wellFormedCSV reads headers rows -> rows = []) ->
      fst (fst r) = w
      /\ (snd r = None
          <-> exists headers,
                OpenCSV csvPath = Some [CSVRecord headers] /\ headers <> [])).
Proof.
  cbv zeta. split.
  - intros reads headers rows Hopen (-> & Hne & Hall) Hrows.
    unfold loadCSVFileWithWriter. rewrite Hopen.
    destruct headers as [|h0 hs]; [contradiction|].
    rewrite (readRecords_rows _ rows [] Hall). rewrite app_nil_l.
    destruct rows as [|row rows]; [contradiction|].
    cbn [length Nat.eqb]. unfold execute.
    destruct (Execute (backend w)
                (csvInsertSQL tableName (h0 :: hs) (row :: rows)))
      as [b [e|]]; cbn; repeat split; try reflexivity; discriminate.
  - intros Hnot.
    pose proof (loadCSVFile_cases csvPath tableName debug w out) as Hcases.
    destruct (loadCSVFileWithWriter csvPath tableName debug w out)
      as [[w' out'] err].
    destruct Hcases as [(reads & headers & rows & Hopen & Hwf & Hrows & _)
                       | Hsame].
    + exfalso. apply Hrows. exact (Hnot reads headers rows Hopen Hwf).
    + exact Hsame.
Qed.

(** X24: a read that the loop over the rows rejects (an error of the
    reader, or a row of another width than the header) makes the call
    fail with that error before anything is executed: the rows read
    before it are not inserted. *)
Theorem csv_bad_row_inserts_nothing (csvPath tableName : gostring)
    (debug : bool) w (out : list csvMessage)
    (headers : list gostring) (rows : list (list gostring))
    (bad : csvRead) (rest : list csvRead) (e : csvError) :
  OpenCSV csvPath
  = Some (CSVRecord headers :: map CSVRecord rows ++ bad :: rest) ->
  headers <> [] ->
  Forall (fun row => length row = length headers) rows ->
  rowError (length headers) bad = Some e ->
  loadCSVFileWithWriter csvPath tableName debug w out
  = (w, out ++ [LoadingFile csvPath tableName], Some e).
Proof.
  intros Hopen Hne Hall Hbad. unfold loadCSVFileWithWriter. rewrite Hopen.
  destruct headers as [|h0 hs]; [contradiction|].
  rewrite (readRecords_rejected _ rows [] bad rest e Hall Hbad). reflexivity.
Qed.

Lemma loadCSVFile_effects (csvPath tableName : gostring) (debug : bool) w
    (out : list csvMessage) :
  match loadCSVFileWithWriter csvPath tableName debug w out with
  | (w', out', err) =>
      loadedFiles out' = loadedFiles out ++ [csvPath]
      /\ ledger w' = ledger w
      /\ (exists more, issued w' = issued w ++ more /\ (length more <= 1)%nat)
  end.
Proof.
  assert (Hnone : exists more : list gostring,
             issued w = issued w ++ more /\ (length more <= 1)%nat)
    by (exists []; rewrite app_nil_r; simpl; split; [reflexivity | lia]).
  assert (Hout : loadedFiles (out ++ [LoadingFile csvPath tableName])
                 = loadedFiles out ++ [csvPath])
    by (unfold loadedFiles; now rewrite omap_app).
  unfold loadCSVFileWithWriter.
  destruct (OpenCSV csvPath) as [[|[headers|msg] rest]|]; try (now repeat split).
  destruct (length headers =? 0)%nat; [now repeat split|].
  destruct (readRecords (length headers) rest []) as [records|e];
    [|now repeat split].
  destruct (length records =? 0)%nat.
  { repeat split; [|exact Hnone]. unfold loadedFiles in *.
    rewrite omap_app, Hout. cbn. now rewrite app_nil_r. }
  unfold execute.
  destruct (Execute (backend w) (csvInsertSQL tableName headers records))
    as [b [err|]]; cbn [fmap option_fmap option_map issued ledger].
  - split; [|split; [reflexivity|]].
    + destruct debug; [|exact Hout]. unfold loadedFiles in *.
      rewrite omap_app, Hout. cbn. now rewrite app_nil_r.
    + eexists. split; [reflexivity|]. simpl. lia.
  - split; [|split; [reflexivity|]].
    + unfold loadedFiles in *. rewrite omap_app. destruct debug.
      * rewrite omap_app, Hout. cbn. now rewrite !app_nil_r.
      * rewrite Hout. cbn. now rewrite app_nil_r.
    + eexists. split; [reflexivity|]. simpl. lia.
Qed.

Lemma loadEntries_app (dataDir : gostring) (debug : bool)
    (pre post : list (gostring * bool)) (n : nat) w (out : list csvMessage) :
  loadEntries dataDir debug (pre ++ post) n w out
  = match loadEntries dataDir debug pre n w out with
    | (w', out', inl n') => loadEntries dataDir debug post n' w' out'
    | failed => failed
    end.
Proof.
  revert n w out. induction pre as [|[name isDir] pre IH]; intros n w out.
  - reflexivity.
  - cbn [app loadEntries].
    destruct (isDir || negb (HasSuffix name (go ".csv"))); [apply IH|].
    destruct (loadCSVFileWithWriter _ _ debug w out) as [[w1 out1] [e|]];
      [reflexivity | apply IH].
Qed.

(** X25: the first file that fails to load ends the loading: the entries
    of the directory after it are not opened, whatever they are, and
    what the files before it inserted stays inserted. *)
Theorem csv_failure_stops_loading (dataDir : gostring) (debug : bool)
    (pre post : list (gostring * bool)) (n : nat) w w'
    (out out' : list csvMessage) (e : csvError) :
  loadEntries dataDir debug pre n w out = (w', out', inr e) ->
  loadEntries dataDir debug (pre ++ post) n w out = (w', out', inr e).
Proof. intros Hpre. now rewrite loadEntries_app, Hpre. Qed.

Lemma csvEntries_cons (name : gostring) (isDir : bool)
    (rest : list (gostring * bool)) :
  csvEntries ((name, isDir) :: rest)
  = if isDir || negb (HasSuffix name (go ".csv")) then csvEntries rest
    else name :: csvEntries rest.
Proof.
  unfold csvEntries. cbn [List.filter fst snd].
  destruct isDir; cbn [negb andb orb]; [reflexivity|].
  destruct (HasSuffix name (go ".csv")); reflexivity.
Qed.

Lemma loadEntries_effects (dataDir : gostring) (debug : bool)
    (entries : list (gostring * bool)) (n : nat) w (out : list csvMessage) :
  match loadEntries dataDir debug entries n w out with
  | (w', out', result) =>
      ledger w' = ledger w
      /\ (exists more, issued w' = issued w ++ more
                       /\ (length more <= length (csvEntries entries))%nat)
      /\ match result with
         | inl n' =>
             n' = (n + length (csvEntries entries))%nat
             /\ loadedFiles out'
                = loadedFiles out ++ map (JoinPath dataDir) (csvEntries entries)
         | inr e =>
             exists done name cause rest,
               csvEntries entries = done ++ name :: rest
               /\ e = FailedToLoad name cause
               /\ loadedFiles out'
                  = loadedFiles out ++ map (JoinPath dataDir) (done ++ [name])
         end
  end.
Proof.
  revert n w out. induction entries as [|[name isDir] rest IH]; intros n w out.
  - cbn. split; [reflexivity|]. split.
    + exists []. rewrite app_nil_r. split; [reflexivity | simpl; lia].
    + split; [lia | now rewrite app_nil_r].
  - cbn [loadEntries]. rewrite csvEntries_cons.
    destruct (isDir || negb (HasSuffix name (go ".csv"))); [apply IH|].
    pose proof (loadCSVFile_effects (JoinPath dataDir name)
                  (TrimSuffix name (go ".csv")) debug w out) as Hfile.
    destruct (loadCSVFileWithWriter _ _ debug w out) as [[w1 out1] [e|]].
    + destruct Hfile as (Hout & Hledger & more & Hissued & Hlen).
      split; [exact Hledger|]. split.
      * exists more. split; [exact Hissued | simpl; lia].
      * exists [], name, e, (csvEntries rest). repeat split. exact Hout.
    + destruct Hfile as (Hout & Hledger & more & Hissued & Hlen).
      specialize (IH (S n) w1 out1).
      destruct (loadEntries dataDir debug rest (S n) w1 out1)
        as [[w2 out2] result].
      destruct IH as (Hledger2 & (more2 & Hissued2 & Hlen2) & Hres).
      split; [congruence|]. split.
      * exists (more ++ more2). rewrite Hissued2, Hissued, <- app_assoc.
        split; [reflexivity|]. rewrite length_app. simpl. lia.
      * destruct result as [n'|e].
        -- destruct Hres as [-> Hfiles]. split; [simpl; lia|].
           rewrite Hfiles, Hout, <- app_assoc. reflexivity.
        -- destruct Hres as (done & bad & cause & rest' & Hentries & -> & Hfiles).
           exists (name :: done), bad, cause, rest'. rewrite Hentries.
           repeat split. rewrite Hfiles, Hout, <- app_assoc. reflexivity.
Qed.

(** X26: [loadCSVDataWithWriter] loads the files named [*.csv] of the
    directory, in the order of the directory listing, and nothing else.
    When it succeeds it has announced each of them once, in order, and
    its last line counts them; when it fails, the error names the file
    that failed, and the files announced are those up to that one.
    Either way it issues at most one statement for each such file and
    records no migration. *)
Theorem csv_files_loaded_in_directory_order (dataDir : gostring) (debug : bool)
    (entries : list (gostring * bool)) w (out : list csvMessage) :
  ReadDir dataDir = Some entries ->
  match loadCSVDataWithWriter dataDir debug w out with
  | (w', out', err) =>
      ledger w' = ledger w
      /\ (exists more, issued w' = issued w ++ more
                       /\ (length more <= length (csvEntries entries))%nat)
      /\ match err with
         | None =>
             loadedFiles out'
             = loadedFiles out ++ map (JoinPath dataDir) (csvEntries entries)
             /\ last out' = Some (closingLine (length (csvEntries entries)))
         | Some e =>
             exists done name cause rest,
               csvEntries entries = done ++ name :: rest
               /\ e = FailedToLoad name cause
               /\ loadedFiles out'
                  = loadedFiles out ++ map (JoinPath dataDir) (done ++ [name])
         end
  end.
Proof.
  intros Hdir. unfold loadCSVDataWithWriter. rewrite Hdir.
  pose proof (loadEntries_effects dataDir debug entries 0 w
                (out ++ [LoadingData dataDir])) as Hloop.
  assert (Hout : loadedFiles (out ++ [LoadingData dataDir]) = loadedFiles out)
    by (unfold loadedFiles; rewrite omap_app; cbn; now rewrite app_nil_r).
  rewrite Hout in Hloop.
  destruct (loadEntries dataDir debug entries 0 w (out ++ [LoadingData dataDir]))
    as [[w1 out1] [n|e]].
  - destruct Hloop as (Hledger & Hissued & -> & Hfiles). cbn [Nat.add].
    destruct (length (csvEntries entries)) as [|k] eqn:Hcount; cbn [Nat.eqb].
    + repeat split; try assumption.
      * unfold loadedFiles in *. rewrite omap_app, Hfiles. cbn.
        now rewrite app_nil_r.
      * now rewrite last_snoc.
    + repeat split; try assumption.
      * unfold loadedFiles in *. rewrite omap_app, Hfiles. cbn.
        now rewrite app_nil_r.
      * now rewrite last_snoc.
  - exact Hloop.
Qed.

End CSVFacts.

(* ===================================================================== *)
(** * The further properties on the examples                              *)
(* ===================================================================== *)

(** Two spellings of one string with a quote have one escaped form. *)
Lemma escapeSQLString_injective_witness :
  go "it's" = [105; 116; 39; 115].
Proof.
  apply (escapeSQLString_injective (go "it's") [105; 116; 39; 115]).
  vm_compute. reflexivity.
Defined.

(** A port and a user given on the command line are kept. *)
Lemma defaults_keep_what_is_set_witness :
  let cfg' := applyDefaultsWithConfig ClickHouseExecutor
                {| Engine := go "clickhouse"; Port := 8123;
                   User := go "admin"; Database := [] |} in
  Port cfg' = 8123 /\ User cfg' = go "admin".
Proof.
  destruct (defaults_keep_what_is_set ClickHouseExecutor
              {| Engine := go "clickhouse"; Port := 8123;
                 User := go "admin"; Database := [] |})
    as (_ & Hport & Huser & _).
  split; [apply Hport; simpl; lia | apply Huser; simpl; discriminate].
Defined.

(** The manifest that lists itself after [a.sql], for a process with
    seven descriptors left. *)
Lemma cycle_is_never_resolved_witness :
  exists files out q,
    @processWithWriter (tableOS loopFiles) 7 (go "index.lst") [] [] false
    = (files, out, Some (TooManyOpenFiles q))
    /\ q = go "index.lst".
Proof.
  apply (@cycle_is_never_resolved (tableOS loopFiles)
           (fun p => p = go "index.lst")); [|reflexivity].
  intros p ->.
  exists (go "a.sql" ++ nl ++ go "index.lst" ++ nl), [go "a.sql"],
         (go "index.lst"), [], (go "index.lst").
  split; [vm_compute; reflexivity|].
  split; [vm_compute; reflexivity|].
  split; [intros l [<-|[]] n; vm_compute; discriminate|].
  split; [vm_compute; reflexivity | reflexivity].
Defined.

(** The nested manifests, resolved into a slice that holds [z.sql]. *)
Lemma processWithWriter_only_appends_witness :
  exists more out,
    [go "z.sql"; go "sql/a.sql"; go "sql/more/b.sql"] = [go "z.sql"] ++ more
    /\ [ProcessingFile (go "sql/index.lst") (go "sql");
        ProcessingFile (go "sql/more/index.lst") (go "sql/more")] = [] ++ out.
Proof.
  apply (@processWithWriter_only_appends (tableOS nestedFiles) 2
           (go "sql/index.lst") [go "z.sql"] [] false _ _ None).
  vm_compute. reflexivity.
Defined.

(** [a.sql] is collected; the line after it fills the buffer of the
    scanner, and [b.sql] is not reached. *)
Lemma long_line_is_a_read_error_witness :
  exists w',
    @processWithWriter (tableOS longLineFiles) 1 (go "index.lst") [] [] false
    = ([] ++ [go "a.sql"], w',
       Some (ErrorReadingFile (go "index.lst") TokenTooLong)).
Proof.
  apply (@long_line_is_a_read_error (tableOS longLineFiles) 0 (go "index.lst")
           longLine (nl ++ go "b.sql" ++ nl) [go "a.sql"] [go "a.sql"] [] [] false).
  - reflexivity.
  - constructor; [|constructor].
    split; [vm_compute; intuition discriminate | vm_compute; reflexivity].
  - unfold longLine. intros Hin. apply repeat_spec in Hin. discriminate.
  - vm_compute. discriminate.
  - vm_compute. reflexivity.
Defined.

(** [a.sql] is collected, [missing.lst] cannot be opened, [b.sql] is not
    reached. *)
Lemma missing_nested_manifest_witness :
  exists w',
    @processWithWriter (tableOS brokenFiles) 3 (go "index.lst") [] [] false
    = ([] ++ [go "a.sql"], w', Some (OsError (go "missing.lst"))).
Proof.
  apply (@missing_nested_manifest (tableOS brokenFiles) 1 (go "index.lst")
           (go "a.sql" ++ nl ++ go "missing.lst" ++ nl ++ go "b.sql" ++ nl)
           (go "missing.lst") (go "missing.lst")
           [go "a.sql"] [go "b.sql"] [go "a.sql"] [] [] false).
  - vm_compute. reflexivity.
  - vm_compute. reflexivity.
  - vm_compute. reflexivity.
  - vm_compute. reflexivity.
  - vm_compute. reflexivity.
Defined.

(** Of the two rows of version 1.0.0 the second one is loaded. *)
Lemma applied_migrations_last_row_wins_witness :
  let w := World (reporting twiceRecorded false) [] [] [] [] in
  let loaded := snd (fst (@getAppliedMigrations _ mockExecutorWithRows w)) in
  snd (@getAppliedMigrations _ mockExecutorWithRows w) = None
  /\ loaded !! [] = None
  /\ forall v c,
       loaded !! v = Some c <->
       v <> []
       /\ exists before row after,
            twiceRecorded = before ++ row :: after
            /\ rowVersion row = v /\ rowChecksum row = c
            /\ forall r, In r after -> rowVersion r <> v.
Proof.
  apply (@applied_migrations_last_row_wins _ mockExecutorWithRows
           (World (reporting twiceRecorded false) [] [] [] [])
           (reporting twiceRecorded false) twiceRecorded).
  reflexivity.
Defined.

(** The first run over the one migration: one file, applied. *)
Lemma every_file_is_counted_witness :
  (1 + 0 = 0 + 0 + length [go "m.sql"])%nat
  /\ (0 <= 1)%nat /\ (0 <= 0)%nat
  /\ (Force plainRun = true -> 0%nat = 0%nat /\ 1%nat = (0 + length [go "m.sql"])%nat).
Proof.
  apply (@every_file_is_counted (tableOS oneFile) _ mockExecutorWithRows
           plainRun ∅ [go "m.sql"] 0 0 1 0 beforeFirstRun
           (fst (@migrateFiles (tableOS oneFile) _ mockExecutorWithRows
                   plainRun ∅ [go "m.sql"] 0 0 beforeFirstRun))).
  vm_compute. reflexivity.
Defined.

(** The second run over the one migration, the row of the first run
    loaded. *)
Lemma recorded_files_are_all_skipped_witness :
  let r := @migrateFiles (tableOS oneFile) _ mockExecutorWithRows plainRun
             (<[go "1.0.0" := oneMigration]> ∅) [go "m.sql"] 0 0 afterFirstRun in
  snd r = Some (0%nat, (0 + length [go "m.sql"])%nat)
  /\ sameEffects afterFirstRun (fst r) /\ stderr (fst r) = stderr afterFirstRun.
Proof.
  apply (@recorded_files_are_all_skipped (tableOS oneFile) _ mockExecutorWithRows
           plainRun (<[go "1.0.0" := oneMigration]> ∅) [go "m.sql"] 0 0
           afterFirstRun).
  - reflexivity.
  - intros f [<-|[]]. split; [vm_compute; discriminate | vm_compute; reflexivity].
Defined.


(** [n.sql] holds one statement, which the picky executor accepts. *)
Lemma executeSQL_succeeds_iff_all_accepted_witness :
  let r := @executeSQLWithWriter (tableOS badFiles) _ pickyExecutor
             (go "n.sql") false freshLog in
  (snd r = None <->
   is_Some (@executedAll _ pickyExecutor (backend freshLog)
              (splitSQLStatements (go "SELECT 4;" ++ nl))))
  /\ (snd r = None ->
      @executedAll _ pickyExecutor (backend freshLog)
        (splitSQLStatements (go "SELECT 4;" ++ nl))
      = Some (backend (fst r))
      /\ issued (fst r)
         = issued freshLog ++ splitSQLStatements (go "SELECT 4;" ++ nl)).
Proof.
  apply (@executeSQL_succeeds_iff_all_accepted (tableOS badFiles) _ pickyExecutor
           (go "n.sql") (go "SELECT 4;" ++ nl) false freshLog).
  vm_compute. reflexivity.
Defined.

(** The manifest that names a missing manifest: the run ends with status
    1 and the executor has seen the ledger query only. *)
Lemma unresolved_manifest_leaves_database_untouched_witness :
  exists w',
    @run (tableOS brokenFiles) _ mockExecutorWithRows 3 plainRun beforeFirstRun
    = (w', 1)
    /\ issued w' = issued beforeFirstRun /\ ledger w' = ledger beforeFirstRun
    /\ stderr w'
       = stderr beforeFirstRun
         ++ [ErrProcessingIndex (OsError (go "missing.lst"))]
    /\ backend w'
       = fst (fst (@Query _ mockExecutorWithRows (backend beforeFirstRun)
                     (go "SELECT version, checksum FROM schema_versions"))).
Proof.
  eapply (@unresolved_manifest_leaves_database_untouched (tableOS brokenFiles) _
            mockExecutorWithRows 3 plainRun beforeFirstRun _ _
            (OsError (go "missing.lst"))).
  vm_compute. reflexivity.
Defined.

(** [users.csv]: the two rows go to the executor in one statement. *)
Lemma csv_file_one_insert_or_nothing_witness :
  let r := @loadCSVFileWithWriter tableData _ mockExecutor
             (go "data/users.csv") (go "users") false freshMock [] in
  let insert := csvInsertSQL (go "users") [go "id"; go "name"]
                  [[go "1"; go "it's"]; [go "2"; go "bob"]] in
  backend (fst (fst r)) = fst (mockExecute (backend freshMock) insert)
  /\ issued (fst (fst r)) = issued freshMock ++ [insert]
  /\ ledger (fst (fst r)) = ledger freshMock
  /\ (snd r = None <-> snd (mockExecute (backend freshMock) insert) = None).
Proof.
  apply (proj1 (@csv_file_one_insert_or_nothing tableData _ mockExecutor
                  (go "data/users.csv") (go "users") false freshMock [])
           [CSVRecord [go "id"; go "name"];
            CSVRecord [go "1"; go "it's"]; CSVRecord [go "2"; go "bob"]]).
  - reflexivity.
  - split; [reflexivity|]. split; [discriminate|]. repeat constructor.
  - discriminate.
Defined.

(** [visits.csv]: the reader fails on the third line; the row of the
    second line is not inserted. *)
Lemma csv_bad_row_inserts_nothing_witness :
  @loadCSVFileWithWriter tableData _ mockExecutor
    (go "data/visits.csv") (go "visits") false freshMock []
  = (freshMock,
     [] ++ [LoadingFile (go "data/visits.csv") (go "visits")],
     Some (ErrorReadingCSV (go "record on line 3: wrong number of fields"))).
Proof.
  apply (@csv_bad_row_inserts_nothing tableData _ mockExecutor
           (go "data/visits.csv") (go "visits") false freshMock []
           [go "id"; go "day"] [[go "1"; go "mon"]]
           (CSVFailure (go "record on line 3: wrong number of fields")) []).
  - vm_compute. reflexivity.
  - discriminate.
  - repeat constructor.
  - reflexivity.
Defined.

(** The data directory: [users.csv] is loaded, [visits.csv] fails, and a
    file listed after it changes nothing. *)
Lemma csv_failure_stops_loading_witness :
  let insertUsers :=
    csvInsertSQL (go "users") [go "id"; go "name"]
      [[go "1"; go "it's"]; [go "2"; go "bob"]] in
  @loadEntries (tableOS []) tableData _ mockExecutor (go "data") false
    ([(go "old", true); (go "notes.txt", false);
      (go "users.csv", false); (go "visits.csv", false)]
     ++ [(go "zones.csv", false)]) 0 freshMock []
  = (World {| executedSQL := [insertUsers]; shouldError := false |}
           [insertUsers] [] [] [],
     [LoadingFile (go "data/users.csv") (go "users");
      LoadedRows 2 (go "users");
      LoadingFile (go "data/visits.csv") (go "visits")],
     inr (FailedToLoad (go "visits.csv")
            (ErrorReadingCSV (go "record on line 3: wrong number of fields")))).
Proof.
  apply (@csv_failure_stops_loading (tableOS []) tableData _ mockExecutor).
  vm_compute. reflexivity.
Defined.

(** The data directory as a whole. *)
Lemma csv_files_loaded_in_directory_order_witness :
  let entries := [(go "old", true); (go "notes.txt", false);
                  (go "users.csv", false); (go "visits.csv", false)] in
  match @loadCSVDataWithWriter (tableOS []) tableData _ mockExecutor
          (go "data") false freshMock [] with
  | (w', out', err) =>
      ledger w' = ledger freshMock
      /\ (exists more, issued w' = issued freshMock ++ more
                       /\ (length more <= length (csvEntries entries))%nat)
      /\ match err with
         | None =>
             loadedFiles out'
             = loadedFiles [] ++ map (@JoinPath (tableOS []) (go "data"))
                                     (csvEntries entries)
             /\ last out' = Some (closingLine (length (csvEntries entries)))
         | Some e =>
             exists done name cause rest,
               csvEntries entries = done ++ name :: rest
               /\ e = FailedToLoad name cause
               /\ loadedFiles out'
                  = loadedFiles [] ++ map (@JoinPath (tableOS []) (go "data"))
                                          (done ++ [name])
         end
  end.
Proof.
  apply (@csv_files_loaded_in_directory_order (tableOS []) tableData _ mockExecutor
           (go "data") false
           [(go "old", true); (go "notes.txt", false);
            (go "users.csv", false); (go "visits.csv", false)] freshMock []).
  vm_compute. reflexivity.
Defined.

(** The statement built for [users.csv]. *)
Example csv_insert_text :
  csvInsertSQL (go "users") [go "id"; go "name"]
    [[go "1"; go "it's"]; [go "2"; go "bob"]]
  = go "INSERT INTO users (id, name) VALUES ('1', 'it''s'), ('2', 'bob')".
Proof. vm_compute. reflexivity. Qed.
